(** * run_simulation_all.py: a shallow embedding and its properties

    The driver runs an external simulator toolchain over the cartesian
    product of bit widths and pipeline depths, for module ids
    [1..total_modules], classifies every run from its log and renders
    HTML reports.

    Conventions of the embedding:
    - Python integers are [Z]; Python [str] values are [string], read over
      the ASCII range.
    - The interpreter's environment is a [world]: the part of the file
      system the driver touches and the chronological trace of its
      observable effects (clock reads, child processes, printed lines).
    - The external toolchain, the clock and the date are oracles of the
      history so far; they are section variables, so every statement holds
      for all behaviours of the environment.
    - A child process is taken to be launched and to terminate; creating
      directories and opening files under the run's output root succeed.
      The only operating-system failures that are modelled are those of
      the [latest_results] update, which the source guards with
      [try/except].
    - Report rendering is pure templating; a rendered page is kept as the
      record of the values substituted in the template. *)

From Stdlib Require Import ZArith Lia Ascii.
From stdpp Require Import base gmap strings list fin_maps pretty.

Local Open Scope Z_scope.

(** ** Python primitives *)

Module Py.

(** [str.split(sep)] with an explicit one-character separator. *)
Fixpoint split (sep : ascii) (s : string) : list string :=
  match s with
  | EmptyString => [""]
  | String c s' =>
      if decide (c = sep) then "" :: split sep s'
      else match split sep s' with
           | [] => [String c ""]
           | h :: t => String c h :: t
           end
  end.

(** Characters for which [str.isspace] holds, ASCII range. *)
Definition is_space (c : ascii) : bool :=
  let n := nat_of_ascii c in
  ((9 <=? n)%nat && (n <=? 13)%nat) || ((28 <=? n)%nat && (n <=? 32)%nat).

Definition is_digit (c : ascii) : bool :=
  let n := nat_of_ascii c in (48 <=? n)%nat && (n <=? 57)%nat.

Definition digit_val (c : ascii) : Z := Z.of_nat (nat_of_ascii c) - 48.

Fixpoint lstrip (s : string) : string :=
  match s with
  | String c s' => if is_space c then lstrip s' else s
  | EmptyString => EmptyString
  end.

Fixpoint rstrip (s : string) : string :=
  match s with
  | EmptyString => EmptyString
  | String c s' =>
      match rstrip s' with
      | EmptyString => if is_space c then EmptyString else String c EmptyString
      | r => String c r
      end
  end.

Definition strip (s : string) : string := rstrip (lstrip s).

(** Decimal digits with single underscores allowed between two digits;
    [prev] tells whether the previous character was a digit. *)
Fixpoint parse_digits (s : string) (acc : Z) (prev : bool) : option Z :=
  match s with
  | EmptyString => if prev then Some acc else None
  | String c s' =>
      if is_digit c then parse_digits s' (10 * acc + digit_val c) true
      else if decide (c = "_"%char) then
        (if prev then parse_digits s' acc false else None)
      else None
  end.

(** [int(s)] in base ten; [None] stands for [ValueError]. *)
Definition int (s : string) : option Z :=
  match strip s with
  | String "+" r => parse_digits r 0 false
  | String "-" r => Z.opp <$> parse_digits r 0 false
  | t => parse_digits t 0 false
  end.

(** [[int(x) for x in l]]: the first [ValueError] aborts the comprehension. *)
Definition ints (l : list string) : option (list Z) := mapM int l.

(** [range(lo, hi)]. *)
Definition range (lo hi : Z) : list Z :=
  (λ i : nat, lo + Z.of_nat i) <$> seq 0 (Z.to_nat (hi - lo)).

(** [needle in s] for strings. *)
Fixpoint contains (needle s : string) : bool :=
  String.prefix needle s ||
  match s with
  | EmptyString => false
  | String _ s' => contains needle s'
  end.

(** Integer true division followed by [int(...)]:
    [int(n / d)] for [0 <= n] and [0 < d].  The quotient is the binary64
    number nearest to the exact ratio (ties to even), with [prec] = 53
    significant bits and least exponent [emin] = -1074; [int] then
    truncates it.  [Z.log2] locates the leading bit of the ratio. *)
Definition prec : Z := 53.
Definition emin : Z := -1074.

(** floor (log2 (n / d)) for positive [n], [d]. *)
Definition ratio_log2 (n d : Z) : Z :=
  let k := Z.log2 n - Z.log2 d in
  if d * 2 ^ Z.max k 0 <=? n * 2 ^ Z.max (- k) 0 then k else k - 1.

(** Nearest integer to [a / b], ties to even, for [0 <= a], [0 < b]. *)
Definition round_half_even (a b : Z) : Z :=
  let q := a / b in
  let r := a mod b in
  if 2 * r <? b then q
  else if b <? 2 * r then q + 1
  else if Z.even q then q else q + 1.

(** The quotient as [m * 2 ^ e]. *)
Definition truediv (n d : Z) : Z * Z :=
  if n =? 0 then (0, 0)
  else
    let e := Z.max (ratio_log2 n d - (prec - 1)) emin in
    let m := if 0 <=? e then round_half_even n (d * 2 ^ e)
             else round_half_even (n * 2 ^ (- e)) d in
    (m, e).

Definition trunc_float (f : Z * Z) : Z :=
  let '(m, e) := f in
  if 0 <=? e then m * 2 ^ e else m / 2 ^ (- e).

Definition int_truediv (n d : Z) : Z := trunc_float (truediv n d).

End Py.

(** ** The environment *)

(** [self.status]: the strings "UNKNOWN", "PASSED", "FAILED" and
    "COMPILE FAILED". *)
Inductive Status := UNKNOWN | PASSED | FAILED | COMPILE_FAILED.

Global Instance Status_eq_dec : EqDecision Status.
Proof. solve_decision. Defined.

(** The two child processes of a module run. *)
Inductive command :=
  | Compile (width pipe_stages module_id : Z)
  | Simulate (width pipe_stages module_id : Z).

Global Instance command_eq_dec : EqDecision command.
Proof. solve_decision. Defined.

Definition exe_name (width pipe_stages module_id : Z) : string :=
  "sim_w" +:+ pretty width +:+ "_p" +:+ pretty pipe_stages +:+
  "_m" +:+ pretty module_id +:+ ".exe".

(** The argument list handed to [subprocess.run]. *)
Definition argv (c : command) : list string :=
  match c with
  | Compile w p m =>
      ["verilator"; "--binary"; "--timing"; "--assert"; "--autoflush";
       "-j"; "2"; "-sv";
       "-Wno-CASEINCOMPLETE"; "-Wno-REALCVT"; "-Wno-SELRANGE";
       "-Wno-TIMESCALEMOD"; "-Wno-UNSIGNED"; "-Wno-WIDTH";
       "-CFLAGS"; "-O1"; "-Wno-fatal";
       "--trace-structs"; "--trace-params"; "--trace-fst";
       "-top"; "tb_pipelined_arithmetic";
       "-o"; exe_name w p m;
       "+define+SIMULATION";
       "+define+MODULE_ID=" +:+ pretty m;
       "+define+WIDTH=" +:+ pretty w;
       "+define+PIPE_STAGES=" +:+ pretty p;
       "arithmetic_modules.sv"; "pipelined_arithmetic.sv";
       "tb_pipelined_arithmetic.sv"]
  | Simulate w p m => ["./obj_dir/" +:+ exe_name w p m]
  end.

(** Lines written to standard output, by the values they are formatted
    from; rulers, blank lines and the fixed lines of a banner are left
    out, and a banner or summary printed over several lines is one value. *)
Inductive line :=
  | Literal (text : string)
  | TestingModule (module_id : Z)
  | SaidPassed (duration : Z)
  | SaidFailed (duration : Z)
  | ConfigBanner (width pipe_stages : Z)
  | ConfigSummaryHead (width pipe_stages : Z)
  | ConfigSummaryRow (module_id : Z) (st : Status) (duration : Z)
  | ConfigSummaryTotal (passed failed duration : Z)
  | SuiteBanner (total_modules : Z) (widths pipe_stages : list Z)
  | FinalSummary (n_widths n_pipe_stages : nat)
      (total_tests total_passed total_failed total_duration : Z)
  | SymlinkWarning
  | DashboardAt (log_dir : string).

Global Instance line_eq_dec : EqDecision line.
Proof. solve_decision. Defined.

Inductive event :=
  | Clock (t : Z)
  | Today (stamp : string)
  | Exec (c : command) (returncode : Z) (output : string)
  | Print (l : line).

Global Instance event_eq_dec : EqDecision event.
Proof. solve_decision. Defined.

(** One cell of the dashboard's heat map. *)
Inductive heat_cell :=
  | Rate (r g b pass_rate : Z)
  | NotApplicable.

Global Instance heat_cell_eq_dec : EqDecision heat_cell.
Proof. solve_decision. Defined.

(** The per-configuration [report.html]. *)
Record config_page := {
  cp_width : Z;
  cp_pipe_stages : Z;
  cp_rows : list (Z * Status * bool * string);
  cp_passed : Z;
  cp_failed : Z;
  cp_duration : Z;
  cp_box : option (Z * Z)
}.

(** [dashboard.html]. *)
Record dashboard_page := {
  dp_counts : nat * nat;
  dp_totals : Z * Z * Z * Z;
  dp_rows : list (Z * Z * Z * Z * Z * bool * string);
  dp_heat_head : list Z;
  dp_heat : list (Z * list heat_cell);
  dp_box : option (Z * Z)
}.

Inductive content :=
  | Text (s : string)
  | ConfigPage (p : config_page)
  | DashboardPage (p : dashboard_page).

Inductive node :=
  | File (c : content)
  | Dir
  | Symlink (target : string).

Record world := {
  fs : gmap string node;
  trace : list event
}.

Definition log_event (e : event) (w : world) : world :=
  {| fs := fs w; trace := trace w ++ [e] |}.

Definition with_fs (f : gmap string node) (w : world) : world :=
  {| fs := f; trace := trace w |}.

(** What the driver cannot control: the toolchain's exit status and
    output, the clock and the formatted date, each as a function of the
    world at the moment of the call. *)
Class Env := {
  tool : world → command → Z * string;
  clock : world → Z;
  today : world → string
}.

(** Computations over the world. *)
Definition M (A : Type) : Type := world → A * world.

Global Instance M_ret : MRet M := λ A a w, (a, w).
Global Instance M_bind : MBind M := λ A B f m w,
  let '(a, w') := m w in f a w'.

Definition print (l : line) : M unit := λ w, ((), log_event (Print l) w).

Section Effects.
Context `{Env}.

(** [time.time()] *)
Definition time_time : M Z := λ w,
  let t := clock w in (t, log_event (Clock t) w).

(** [datetime.datetime.now().strftime("%Y-%m-%d_%H-%M-%S")] *)
Definition now_stamp : M string := λ w,
  let s := today w in (s, log_event (Today s) w).

End Effects.

(** *** Files *)

(** The path itself preceded by its ancestors: "a/b/c" gives
    ["a"; "a/b"; "a/b/c"]. *)
Fixpoint ancestors_go (seen rest : string) : list string :=
  match rest with
  | EmptyString => [seen]
  | String c rest' =>
      if decide (c = "/"%char)
      then seen :: ancestors_go (seen +:+ "/") rest'
      else ancestors_go (seen +:+ String c "") rest'
  end.

Definition ancestors (p : string) : list string := ancestors_go "" p.

Definition mkdir_if_absent (fs : gmap string node) (d : string) : gmap string node :=
  match fs !! d with
  | None => <[d := Dir]> fs
  | Some _ => fs
  end.

(** [os.makedirs(p, exist_ok=True)] *)
Definition makedirs (p : string) : M unit := λ w,
  ((), with_fs (foldl mkdir_if_absent (fs w) (ancestors p)) w).

(** [open(p, "w")]: the file is created or truncated. *)
Definition open_w (p : string) : M unit := λ w,
  ((), with_fs (<[p := File (Text "")]> (fs w)) w).

(** A child writing [out] at the end of the open file [p]. *)
Definition append_out (p out : string) (fs : gmap string node) : gmap string node :=
  match fs !! p with
  | Some (File (Text s)) => <[p := File (Text (s +:+ out))]> fs
  | _ => <[p := File (Text out)]> fs
  end.

(** [open(p, "r").read()] *)
Definition read_text (p : string) : M string := λ w,
  (match fs w !! p with
   | Some (File (Text s)) => s
   | _ => ""
   end, w).

(** [f.write(...)] of a whole rendered page on a file opened with "w". *)
Definition write_page (p : string) (c : content) : M unit := λ w,
  ((), with_fs (<[p := File c]> (fs w)) w).


(** ** class ModuleTest *)

Module ModuleTest.

Record t := {
  module_id : Z;
  width : Z;
  pipe_stages : Z;
  log_dir : string;
  config_dir : string;
  log_file : string;
  duration : Z;
  status : Status;
  config_key : string
}.

Definition set_outcome (st : Status) (d : Z) (self : t) : t :=
  {| module_id := module_id self; width := width self;
     pipe_stages := pipe_stages self; log_dir := log_dir self;
     config_dir := config_dir self; log_file := log_file self;
     duration := d; status := st; config_key := config_key self |}.

Definition dir_of (log_dir : string) (width pipe_stages : Z) : string :=
  log_dir +:+ "/w" +:+ pretty width +:+ "_p" +:+ pretty pipe_stages.

Definition key_of (width pipe_stages : Z) : string :=
  pretty width +:+ "_" +:+ pretty pipe_stages.

Definition log_name (module_id : Z) : string :=
  "module_" +:+ pretty module_id +:+ ".log".

(** [__init__] *)
Definition init (module_id width pipe_stages : Z) (log_dir : string) : M t :=
  let config_dir := dir_of log_dir width pipe_stages in
  let self :=
    {| module_id := module_id; width := width; pipe_stages := pipe_stages;
       log_dir := log_dir; config_dir := config_dir;
       log_file := config_dir +:+ "/" +:+ log_name module_id;
       duration := 0; status := UNKNOWN;
       config_key := key_of width pipe_stages |} in
  makedirs config_dir;; mret self.

Section Run.
Context `{Env}.

(** [subprocess.run(argv c, stdout=log, stderr=log).returncode] *)
Definition subprocess_run (c : command) (log : string) : M Z := λ w,
  let '(rc, out) := tool w c in
  (rc, log_event (Exec c rc out) (with_fs (append_out log out (fs w)) w)).

Definition marker : string := "TEST PASSED".

(** [run_test]: the returned flag, and the object as the call leaves it. *)
Definition run_test (self : t) : M (bool * t) :=
  start_time ← time_time;
  print (TestingModule (module_id self));;
  open_w (log_file self);;
  compile_rc ← subprocess_run
    (Compile (width self) (pipe_stages self) (module_id self)) (log_file self);
  if decide (compile_rc ≠ 0) then
    print (Literal "COMPILE FAILED");;
    now ← time_time;
    mret (false, set_outcome COMPILE_FAILED (now - start_time) self)
  else
    _ ← subprocess_run
      (Simulate (width self) (pipe_stages self) (module_id self)) (log_file self);
    now ← time_time;
    let d := now - start_time in
    log_content ← read_text (log_file self);
    if Py.contains marker log_content then
      print (SaidPassed d);;
      mret (true, set_outcome PASSED d self)
    else
      print (SaidFailed d);;
      mret (false, set_outcome FAILED d self).

End Run.
End ModuleTest.

(** ** class ConfigurationTest *)

Module ConfigurationTest.

Record t := {
  width : Z;
  pipe_stages : Z;
  total_modules : Z;
  log_dir : string;
  config_dir : string;
  config_key : string;
  passed : Z;
  failed : Z;
  duration : Z;
  module_tests : list ModuleTest.t
}.

Definition set_counts (p f : Z) (tests : list ModuleTest.t) (self : t) : t :=
  {| width := width self; pipe_stages := pipe_stages self;
     total_modules := total_modules self; log_dir := log_dir self;
     config_dir := config_dir self; config_key := config_key self;
     passed := p; failed := f; duration := duration self;
     module_tests := tests |}.

Definition set_duration (d : Z) (self : t) : t :=
  {| width := width self; pipe_stages := pipe_stages self;
     total_modules := total_modules self; log_dir := log_dir self;
     config_dir := config_dir self; config_key := config_key self;
     passed := passed self; failed := failed self; duration := d;
     module_tests := module_tests self |}.

(** [__init__] *)
Definition init (width pipe_stages total_modules : Z) (log_dir : string) : M t :=
  let config_dir := ModuleTest.dir_of log_dir width pipe_stages in
  let self :=
    {| width := width; pipe_stages := pipe_stages;
       total_modules := total_modules; log_dir := log_dir;
       config_dir := config_dir;
       config_key := ModuleTest.key_of width pipe_stages;
       passed := 0; failed := 0; duration := 0; module_tests := [] |} in
  makedirs config_dir;; mret self.

(** A [for] loop whose body updates the object. *)
Fixpoint for_each {A S : Type} (l : list A) (body : S → A → M S) (s : S) : M S :=
  match l with
  | [] => mret s
  | x :: l' => s' ← body s x; for_each l' body s'
  end.

(** [_print_summary] *)
Definition _print_summary (self : t) : M unit :=
  print (ConfigSummaryHead (width self) (pipe_stages self));;
  for_each (module_tests self)
    (λ _ test, print (ConfigSummaryRow (ModuleTest.module_id test)
                        (ModuleTest.status test) (ModuleTest.duration test)))
    ();;
  print (ConfigSummaryTotal (passed self) (failed self) (duration self)).

(** [_generate_html_report] *)
Definition report_row (test : ModuleTest.t) : Z * Status * bool * string :=
  (ModuleTest.module_id test, ModuleTest.status test,
   bool_decide (ModuleTest.status test = PASSED),
   ModuleTest.log_name (ModuleTest.module_id test)).

Definition report (self : t) : config_page :=
  {| cp_width := width self; cp_pipe_stages := pipe_stages self;
     cp_rows := report_row <$> module_tests self;
     cp_passed := passed self; cp_failed := failed self;
     cp_duration := duration self;
     cp_box := if decide (failed self = 0) then None
               else Some (failed self, total_modules self) |}.

Definition _generate_html_report (self : t) : M unit :=
  write_page (config_dir self +:+ "/report.html") (ConfigPage (report self)).

Section Run.
Context `{Env}.

(** The body of the loop over module ids.  [module_tests] holds the test
    object itself, so the entry appended before [run_test] shows the
    status and duration that call leaves. *)
Definition run_module (self : t) (module_id : Z) : M t :=
  test ← ModuleTest.init module_id (width self) (pipe_stages self) (log_dir self);
  '(success, test) ← ModuleTest.run_test test;
  let tests := module_tests self ++ [test] in
  if success : bool then mret (set_counts (passed self + 1) (failed self) tests self)
  else mret (set_counts (passed self) (failed self + 1) tests self).

(** [run] *)
Definition run (self : t) : M (Z * Z * Z * t) :=
  print (ConfigBanner (width self) (pipe_stages self));;
  start_time ← time_time;
  self ← for_each (Py.range 1 (total_modules self + 1)) run_module self;
  now ← time_time;
  let self := set_duration (now - start_time) self in
  _print_summary self;;
  _generate_html_report self;;
  mret (passed self, failed self, duration self, self).

End Run.
End ConfigurationTest.

(** ** class TestSuite *)

(** One value of the [config_results] dictionary. *)
Record config_result := {
  res_width : Z;
  res_pipe_stages : Z;
  res_passed : Z;
  res_failed : Z;
  res_duration : Z
}.

(** *** The [latest_results] link *)

Definition latest : string := "latest_results".

(** [os.path.exists]: symbolic links are followed (at most [fuel] of
    them), so a link whose target is missing does not exist. *)
Fixpoint exists_follow (fuel : nat) (fs : gmap string node) (p : string) : bool :=
  match fs !! p with
  | None => false
  | Some (Symlink target) =>
      match fuel with
      | O => false
      | S fuel' => exists_follow fuel' fs target
      end
  | Some _ => true
  end.

Definition path_exists (fs : gmap string node) (p : string) : bool :=
  exists_follow 40 fs p.

(** [os.remove]: unlinks a file or a link; [None] stands for [OSError]. *)
Definition os_remove (p : string) (fs : gmap string node) : option (gmap string node) :=
  match fs !! p with
  | Some (File _) | Some (Symlink _) => Some (delete p fs)
  | Some Dir | None => None
  end.

(** [os.symlink(src, dst)]: fails when [dst] is present in any form. *)
Definition os_symlink (src dst : string) (fs : gmap string node) : option (gmap string node) :=
  match fs !! dst with
  | None => Some (<[dst := Symlink src]> fs)
  | Some _ => None
  end.

Module TestSuite.

Record t := {
  widths : list Z;
  pipe_stages : list Z;
  total_modules : Z;
  timestamp : string;
  log_dir : string;
  config_results : gmap string config_result;
  total_tests : Z;
  total_passed : Z;
  total_failed : Z;
  total_duration : Z
}.

Definition record_config (key : string) (r : config_result) (self : t) : t :=
  {| widths := widths self; pipe_stages := pipe_stages self;
     total_modules := total_modules self; timestamp := timestamp self;
     log_dir := log_dir self;
     config_results := <[key := r]> (config_results self);
     total_tests := total_tests self + total_modules self;
     total_passed := total_passed self + res_passed r;
     total_failed := total_failed self + res_failed r;
     total_duration := total_duration self |}.

Definition set_total_duration (d : Z) (self : t) : t :=
  {| widths := widths self; pipe_stages := pipe_stages self;
     total_modules := total_modules self; timestamp := timestamp self;
     log_dir := log_dir self; config_results := config_results self;
     total_tests := total_tests self; total_passed := total_passed self;
     total_failed := total_failed self; total_duration := d |}.

(** [_print_summary] *)
Definition _print_summary (self : t) : M unit :=
  print (FinalSummary (length (widths self)) (length (pipe_stages self))
           (total_tests self) (total_passed self) (total_failed self)
           (total_duration self)).

(** The heat-map cell of one (width, pipe_stages) pair. *)
Definition heat_cell_of (results : gmap string config_result)
    (width pipe_stages : Z) : heat_cell :=
  match results !! ModuleTest.key_of width pipe_stages with
  | Some result =>
      let passed := res_passed result in
      let total := passed + res_failed result in
      let pass_rate :=
        if 0 <? total then Py.int_truediv (passed * 100) total else 0 in
      let r := Z.max 0 (Z.min 255 (255 - pass_rate * 2)) in
      let g := Z.max 0 (Z.min 255 (55 + pass_rate * 2)) in
      let b := 50 in
      Rate r g b pass_rate
  | None => NotApplicable
  end.

Definition dashboard_rows (self : t) : list (Z * Z * Z * Z * Z * bool * string) :=
  width ← widths self;
  pipe_stages ← pipe_stages self;
  match config_results self !! ModuleTest.key_of width pipe_stages with
  | Some result =>
      [(width, pipe_stages, res_passed result, res_failed result,
        res_duration result, bool_decide (0 < res_failed result),
        "w" +:+ pretty width +:+ "_p" +:+ pretty pipe_stages +:+ "/report.html")]
  | None => []
  end.

Definition dashboard (self : t) : dashboard_page :=
  {| dp_counts := (length (widths self), length (pipe_stages self));
     dp_totals := (total_tests self, total_passed self, total_failed self,
                   total_duration self);
     dp_rows := dashboard_rows self;
     dp_heat_head := pipe_stages self;
     dp_heat :=
       (λ width, (width, heat_cell_of (config_results self) width
                           <$> pipe_stages self)) <$> widths self;
     dp_box := if decide (total_failed self = 0) then None
               else Some (total_failed self, total_tests self) |}.

(** [_generate_dashboard] *)
Definition _generate_dashboard (self : t) : M unit :=
  write_page (log_dir self +:+ "/dashboard.html") (DashboardPage (dashboard self)).

(** The [try] block at the end of [run]; any exception leaves a warning. *)
Definition symlink_or_warn (log_dir : string) : M unit := λ w,
  match os_symlink log_dir latest (fs w) with
  | Some fs' => ((), with_fs fs' w)
  | None => print SymlinkWarning w
  end.

Definition link_latest (log_dir : string) : M unit := λ w,
  if path_exists (fs w) latest then
    match os_remove latest (fs w) with
    | Some fs' => symlink_or_warn log_dir (with_fs fs' w)
    | None => print SymlinkWarning w
    end
  else symlink_or_warn log_dir w.

Section Run.
Context `{Env}.

(** [__init__] *)
Definition init (widths pipe_stages : list Z) (total_modules : Z) : M t :=
  timestamp ← now_stamp;
  let log_dir := "simulation_logs_" +:+ timestamp in
  let self :=
    {| widths := widths; pipe_stages := pipe_stages;
       total_modules := total_modules; timestamp := timestamp;
       log_dir := log_dir; config_results := ∅;
       total_tests := 0; total_passed := 0; total_failed := 0;
       total_duration := 0 |} in
  makedirs log_dir;; mret self.

(** The body of the inner loop of [run]. *)
Definition run_config (width : Z) (self : t) (pipe_stages : Z) : M t :=
  config ← ConfigurationTest.init width pipe_stages (total_modules self) (log_dir self);
  '(passed, failed, duration, _) ← ConfigurationTest.run config;
  let config_key := ModuleTest.key_of width pipe_stages in
  mret (record_config config_key
          {| res_width := width; res_pipe_stages := pipe_stages;
             res_passed := passed; res_failed := failed;
             res_duration := duration |} self).

Definition run_width (self : t) (width : Z) : M t :=
  ConfigurationTest.for_each (pipe_stages self) (run_config width) self.

(** [run] *)
Definition run (self : t) : M t :=
  start_time ← time_time;
  print (SuiteBanner (total_modules self) (widths self) (pipe_stages self));;
  self ← ConfigurationTest.for_each (widths self) run_width self;
  now ← time_time;
  let self := set_total_duration (now - start_time) self in
  _print_summary self;;
  _generate_dashboard self;;
  link_latest (log_dir self);;
  print (Literal "Test suite completed!");;
  print (DashboardAt (log_dir self));;
  print (Literal "View the report at: latest_results/dashboard.html");;
  mret self.

End Run.
End TestSuite.

(** ** The command line *)

(** The namespace returned by [parse_arguments]. *)
Record args := {
  arg_widths : string;
  arg_pipe_stages : string;
  arg_modules : Z
}.

Definition default_args : args :=
  {| arg_widths := "8,16"; arg_pipe_stages := "2,3,4"; arg_modules := 25 |}.

(** [sys.exit(1)] after a diagnostic. *)
Definition die (message : string) : M Z :=
  print (Literal message);; mret 1.

(** The two comprehensions inside [try]. *)
Definition parse_lists (a : args) : option (list Z * list Z) :=
  widths ← Py.ints (Py.split "," (arg_widths a));
  pipe_stages ← Py.ints (Py.split "," (arg_pipe_stages a));
  Some (widths, pipe_stages).

Section Main.
Context `{Env}.

(** [main]: the result is the exit status of the process. *)
Definition main (a : args) : M Z :=
  match parse_lists a with
  | None => die "Error: WIDTH and PIPE_STAGES must be comma-separated integers"
  | Some (widths, pipe_stages) =>
      if decide (widths = []) then
        die "Error: At least one WIDTH value must be specified"
      else if decide (pipe_stages = []) then
        die "Error: At least one PIPE_STAGES value must be specified"
      else if decide (arg_modules a < 1) then
        die "Error: MODULES must be at least 1"
      else
        test_suite ← TestSuite.init widths pipe_stages (arg_modules a);
        _ ← TestSuite.run test_suite;
        mret 0
  end.

End Main.

(** ** Vocabulary of the statements *)

(** The events a computation added when it took [w] to [w']. *)
Definition since (w w' : world) : list event :=
  drop (length (trace w)) (trace w').

(** The compiler launches among some events, as (width, pipe_stages,
    module_id), in order. *)
Definition compiles (l : list event) : list (Z * Z * Z) :=
  omap (λ e, match e with
             | Exec (Compile w p m) _ _ => Some (w, p, m)
             | _ => None
             end) l.

(** The simulator launches among some events. *)
Definition simulations (l : list event) : list (Z * Z * Z) :=
  omap (λ e, match e with
             | Exec (Simulate w p m) _ _ => Some (w, p, m)
             | _ => None
             end) l.

(** The (passed, failed) pairs of the configuration summaries printed. *)
Definition config_totals (l : list event) : list (Z * Z) :=
  omap (λ e, match e with
             | Print (ConfigSummaryTotal passed failed _) => Some (passed, failed)
             | _ => None
             end) l.

(** The warnings printed by the [latest_results] update. *)
Definition warnings (l : list event) : nat :=
  length (filter (λ e, e = Print SymlinkWarning) l).

Definition sum_list (l : list Z) : Z := foldr Z.add 0 l.

(** The sum of [f] over the values of the dictionary. *)
Definition sum_over (f : config_result → Z) (m : gmap string config_result) : Z :=
  map_fold (λ _ r acc, f r + acc) 0 m.

(** The (width, pipe_stages) pairs in the order of the nested loops. *)
Definition pairs (widths pipe_stages : list Z) : list (Z * Z) :=
  width ← widths; pipe_stages ← pipe_stages; [(width, pipe_stages)].

(** How a computation may change the file system: a path in [D] that
    was absent may become a directory, a path in [F] may become a regular
    file, and nothing else changes. *)
Definition writes (D F : string → Prop) (f f' : gmap string node) : Prop :=
  ∀ q, f' !! q = f !! q
     ∨ (D q ∧ f !! q = None ∧ f' !! q = Some Dir)
     ∨ (F q ∧ ∃ c, f' !! q = Some (File c)).

(** Paths whose name begins like an output root. *)
Definition in_logs (q : string) : Prop := ∃ r, q = "simulation_logs_" +:+ r.

(** The number of tests with a status in [sts]. *)
Definition count_status (sts : list Status) (tests : list ModuleTest.t) : Z :=
  Z.of_nat (length (filter (λ t, ModuleTest.status t ∈ sts) tests)).

(** Texts whose characters all satisfy [P]. *)
Fixpoint all_chars (P : ascii → bool) (s : string) : bool :=
  match s with
  | EmptyString => true
  | String c s' => P c && all_chars P s'
  end.

Definition sign_or_digit (c : ascii) : bool :=
  Py.is_digit c || bool_decide (c = "-"%char).

(** The statuses a finished run can have. *)
Definition ran : list Status := [PASSED; FAILED; COMPILE_FAILED].

(** The paths a configuration may create as directories and write as
    files. *)
Definition config_dirs (log_dir : string) (width pipe_stages : Z) (q : string) : Prop :=
  q ∈ ancestors (ModuleTest.dir_of log_dir width pipe_stages).

Definition config_files (log_dir : string) (width pipe_stages : Z) (q : string) : Prop :=
  ∃ x, q = ModuleTest.dir_of log_dir width pipe_stages +:+ "/" +:+ x.

(** The dictionary after one more configuration is recorded. *)
Definition store (m : gmap string config_result) (r : config_result) :
    gmap string config_result :=
  <[ModuleTest.key_of (res_width r) (res_pipe_stages r) := r]> m.

(** The module runs of a list of configurations, in order. *)
Definition triples (n : Z) (l : list (Z * Z)) : list (Z * Z * Z) :=
  wp ← l; (λ m, (wp.1, wp.2, m)) <$> Py.range 1 (n + 1).

(** The body of the nested loops of [TestSuite.run], on a pair. *)
Definition run_pair `{Env} (self : TestSuite.t) (wp : Z * Z) : M TestSuite.t :=
  TestSuite.run_config wp.1 self wp.2.

(** What a run leaves unchanged in the suite object. *)
Definition same_suite (self self' : TestSuite.t) : Prop :=
  TestSuite.widths self' = TestSuite.widths self ∧
  TestSuite.pipe_stages self' = TestSuite.pipe_stages self ∧
  TestSuite.total_modules self' = TestSuite.total_modules self ∧
  TestSuite.timestamp self' = TestSuite.timestamp self ∧
  TestSuite.log_dir self' = TestSuite.log_dir self.

(** The states of [latest_results] in which the update succeeds: the
    name is free, or [os.path.exists] sees it and it is not a directory. *)
Definition replaceable (f : gmap string node) : Prop :=
  f !! latest = None ∨ (path_exists f latest = true ∧ f !! latest ≠ Some Dir).

(** The world in which the nested loops of [TestSuite.run] start. *)
Definition loop_start `{Env} (self : TestSuite.t) (w : world) : world :=
  log_event (Print (SuiteBanner (TestSuite.total_modules self)
                      (TestSuite.widths self) (TestSuite.pipe_stages self)))
    (log_event (Clock (clock w)) w).

(** What [TestSuite.run] does after the loops. *)
Definition finish `{Env} (start_time : Z) (self : TestSuite.t) : M TestSuite.t :=
  now ← time_time;
  let self := TestSuite.set_total_duration (now - start_time) self in
  TestSuite._print_summary self;;
  TestSuite._generate_dashboard self;;
  TestSuite.link_latest (TestSuite.log_dir self);;
  print (Literal "Test suite completed!");;
  print (DashboardAt (TestSuite.log_dir self));;
  print (Literal "View the report at: latest_results/dashboard.html");;
  mret self.

(** The lines that close a run. *)
Definition closing (log_dir : string) : list event :=
  [Print (Literal "Test suite completed!"); Print (DashboardAt log_dir);
   Print (Literal "View the report at: latest_results/dashboard.html")].

(** ** Sample environments *)

(** A stub toolchain: the compiler is silent and exits with [compile_rc],
    the simulator exits with [sim_rc] after writing [sim_out]; the clock
    counts the events so far and the date never changes. *)
Definition stub_env (compile_rc sim_rc : Z) (sim_out : string) : Env :=
  {| tool := λ _ c, match c with
                    | Compile _ _ _ => (compile_rc, "")
                    | Simulate _ _ _ => (sim_rc, sim_out)
                    end;
     clock := λ w, Z.of_nat (length (trace w));
     today := λ _, "2024-01-01_00-00-00" |}.

(** An empty working directory and no history. *)
Definition fresh : world := {| fs := ∅; trace := [] |}.

(** A suite object with one recorded configuration. *)
Definition heat_sample_suite : TestSuite.t :=
  {| TestSuite.widths := [8]; TestSuite.pipe_stages := [2];
     TestSuite.total_modules := 10; TestSuite.timestamp := "t";
     TestSuite.log_dir := "simulation_logs_t";
     TestSuite.config_results :=
       {[ModuleTest.key_of 8 2 :=
           {| res_width := 8; res_pipe_stages := 2; res_passed := 7;
              res_failed := 3; res_duration := 5 |}]};
     TestSuite.total_tests := 10; TestSuite.total_passed := 7;
     TestSuite.total_failed := 3; TestSuite.total_duration := 5 |}.

Definition heat_sample_result : config_result :=
  {| res_width := 8; res_pipe_stages := 2; res_passed := 7;
     res_failed := 3; res_duration := 5 |}.


(** A module test as [ModuleTest.__init__] builds it. *)
Definition sample_test : ModuleTest.t :=
  (ModuleTest.init 1 8 2 "simulation_logs_t" fresh).1.

(** A toolchain under which module 2 does not compile and the simulation
    of module 3 never prints the marker. *)
Definition mixed_env : Env :=
  {| tool := λ _ c, match c with
                    | Compile _ _ m => (if m =? 2 then 1 else 0, "compiling;")
                    | Simulate _ _ m => (0, if m =? 3 then "mismatch" else "TEST PASSED")
                    end;
     clock := λ w, Z.of_nat (length (trace w));
     today := λ _, "2024-01-01_00-00-00" |}.




(** An accepted command line: the suite is built and run, exit status 0. *)
Definition run_suite `{Env} (widths pipe_stages : list Z) (n : Z) : M Z :=
  test_suite ← TestSuite.init widths pipe_stages n;
  _ ← TestSuite.run test_suite;
  mret 0.


(** A small valid command line, with a repeated width. *)
Definition small_args : args :=
  {| arg_widths := "8,16,8"; arg_pipe_stages := "3,2"; arg_modules := 2 |}.

(** The key under which a result is stored. *)
Definition key_of_result (r : config_result) : string :=
  ModuleTest.key_of (res_width r) (res_pipe_stages r).

(** A toolchain whose simulation prints the marker only once the report
    of configuration (8, 2) exists: the first run of that configuration
    fails and a second one passes. *)
Definition second_time_env : Env :=
  {| tool := λ w c,
       match c with
       | Compile _ _ _ => (0, "")
       | Simulate _ _ _ =>
           (0, match fs w !! "simulation_logs_2024-01-01_00-00-00/w8_p2/report.html" with
               | Some _ => "TEST PASSED"
               | None => "mismatch"
               end)
       end;
     clock := λ w, Z.of_nat (length (trace w));
     today := λ _, "2024-01-01_00-00-00" |}.

(** A path that holds no symbolic link. *)
Definition not_link (o : option node) : Prop := ∀ target, o ≠ Some (Symlink target).

(** The output roots announced at the end of the runs. *)
Definition roots_announced (l : list event) : list string :=
  omap (λ e, match e with Print (DashboardAt root) => Some root | _ => None end) l.

(** The stub toolchain with a date that differs between the first run and
    the later ones. *)
Definition two_dates_env : Env :=
  {| tool := λ _ c, match c with
                    | Compile _ _ _ => (0, "")
                    | Simulate _ _ _ => (0, "TEST PASSED")
                    end;
     clock := λ w, Z.of_nat (length (trace w));
     today := λ w, match trace w with
                   | [] => "2024-01-01_00-00-00"
                   | _ => "2024-01-01_00-00-07"
                   end |}.

(** One width, one pipeline depth, one module. *)
Definition one_module_args : args :=
  {| arg_widths := "8"; arg_pipe_stages := "2"; arg_modules := 1 |}.

(** A working directory where [latest_results] points at a root that is
    gone. *)
Definition dangling : world :=
  {| fs := {[latest := Symlink "simulation_logs_gone"]}; trace := [] |}.

(** What the child processes of module [m] of configuration
    ([width], [p]) wrote, among some events, in order. *)
Definition module_output (width p m : Z) (l : list event) : string :=
  foldr (λ e acc,
           match e with
           | Exec (Compile w' p' m') _ out | Exec (Simulate w' p' m') _ out =>
               if decide ((w', p', m') = (width, p, m)) then out +:+ acc else acc
           | _ => acc
           end) "" l.

(** Nothing but directories stands where [os.makedirs] is to create
    [p] and its ancestors. *)
Definition no_obstacle (f : gmap string node) (p : string) : Prop :=
  ∀ d, d ∈ ancestors p → f !! d = None ∨ f !! d = Some Dir.

(** What links a row of the dashboard to the report of its
    configuration. *)
Definition report_link (width pipe_stages : Z) : string :=
  "w" +:+ pretty width +:+ "_p" +:+ pretty pipe_stages +:+ "/report.html".

(** The row of the dashboard's table for an entry of [config_results]. *)
Definition row_of_result (r : config_result) : Z * Z * Z * Z * Z * bool * string :=
  (res_width r, res_pipe_stages r, res_passed r, res_failed r, res_duration r,
   bool_decide (0 < res_failed r), report_link (res_width r) (res_pipe_stages r)).

(** The report of every configuration in the dictionary [results] is in
    the file system [f], under the root [log_dir], and shows the counts
    and the duration of the entry. *)
Definition reports_agree (log_dir : string) (results : gmap string config_result)
    (f : gmap string node) : Prop :=
  ∀ width p r, results !! ModuleTest.key_of width p = Some r →
    ∃ page,
      f !! (ModuleTest.dir_of log_dir width p +:+ "/report.html")
        = Some (File (ConfigPage page)) ∧
      cp_width page = width ∧ cp_pipe_stages page = p ∧
      cp_passed page = res_passed r ∧ cp_failed page = res_failed r ∧
      cp_duration page = res_duration r.


(** ** What the environment answered during a run *)

(** One module run: the clock before the compile step, the compiler's
    exit status and output, the simulator's when it was launched, and the
    clock read that closes the run. *)
Record module_outcome := {
  mo_start : Z;
  mo_rc : Z;
  mo_out : string;
  mo_sim : option (Z * string);
  mo_end : Z
}.

(** The simulator is launched exactly when the compiler exits 0. *)
Definition mo_launch_ok (o : module_outcome) : Prop :=
  mo_rc o = 0 ↔ is_Some (mo_sim o).

Definition mo_log (o : module_outcome) : string :=
  mo_out o +:+ match mo_sim o with Some (_, out2) => out2 | None => "" end.

Definition mo_status (o : module_outcome) : Status :=
  match mo_sim o with
  | None => COMPILE_FAILED
  | Some _ => if Py.contains ModuleTest.marker (mo_log o) then PASSED else FAILED
  end.

Definition mo_duration (o : module_outcome) : Z := mo_end o - mo_start o.

(** The events of the module run with these answers. *)
Definition mo_events (width p m : Z) (o : module_outcome) : list event :=
  [Clock (mo_start o); Print (TestingModule m);
   Exec (Compile width p m) (mo_rc o) (mo_out o)] ++
  match mo_sim o with
  | None => [Print (Literal "COMPILE FAILED"); Clock (mo_end o)]
  | Some (rc2, out2) =>
      [Exec (Simulate width p m) rc2 out2; Clock (mo_end o);
       Print (if Py.contains ModuleTest.marker (mo_log o)
              then SaidPassed (mo_duration o) else SaidFailed (mo_duration o))]
  end.

(** The test object such a run leaves. *)
Definition mo_test (log_dir : string) (width p : Z) (mo : Z * module_outcome) :
    ModuleTest.t :=
  {| ModuleTest.module_id := mo.1; ModuleTest.width := width;
     ModuleTest.pipe_stages := p; ModuleTest.log_dir := log_dir;
     ModuleTest.config_dir := ModuleTest.dir_of log_dir width p;
     ModuleTest.log_file :=
       ModuleTest.dir_of log_dir width p +:+ "/" +:+ ModuleTest.log_name mo.1;
     ModuleTest.duration := mo_duration mo.2;
     ModuleTest.status := mo_status mo.2;
     ModuleTest.config_key := ModuleTest.key_of width p |}.

(** Every clock value among the events [delta], which follow the history
    [pre], is the answer of the clock in a world with the history up to
    that event. *)
Definition clocked `{Env} (pre delta : list event) : Prop :=
  ∀ i t, delta !! i = Some (Clock t) →
    ∃ wi, trace wi = pre ++ take i delta ∧ t = clock wi.

(** One configuration: the clock before the loop, the module runs with
    their ids, the clock after the loop. *)
Record config_outcome := {
  co_width : Z;
  co_pipe_stages : Z;
  co_start : Z;
  co_modules : list (Z * module_outcome);
  co_end : Z
}.

Definition co_passed (c : config_outcome) : Z :=
  Z.of_nat (length (filter (λ mo, mo_status mo.2 = PASSED) (co_modules c))).

Definition co_failed (c : config_outcome) : Z :=
  Z.of_nat (length (filter (λ mo, mo_status mo.2 ≠ PASSED) (co_modules c))).

Definition co_duration (c : config_outcome) : Z := co_end c - co_start c.

Definition summary_row (mo : Z * module_outcome) : event :=
  Print (ConfigSummaryRow mo.1 (mo_status mo.2) (mo_duration mo.2)).

Definition co_events (c : config_outcome) : list event :=
  [Print (ConfigBanner (co_width c) (co_pipe_stages c)); Clock (co_start c)] ++
  (co_modules c ≫= λ mo, mo_events (co_width c) (co_pipe_stages c) mo.1 mo.2) ++
  [Clock (co_end c); Print (ConfigSummaryHead (co_width c) (co_pipe_stages c))] ++
  (summary_row <$> co_modules c) ++
  [Print (ConfigSummaryTotal (co_passed c) (co_failed c) (co_duration c))].

Definition co_result (c : config_outcome) : config_result :=
  {| res_width := co_width c; res_pipe_stages := co_pipe_stages c;
     res_passed := co_passed c; res_failed := co_failed c;
     res_duration := co_duration c |}.

(** A whole suite run: the date, the clock before the loops, the
    configurations, the clock after the loops, what the update of the
    link printed. *)
Record suite_outcome := {
  so_stamp : string;
  so_start : Z;
  so_configs : list config_outcome;
  so_end : Z;
  so_link : list event
}.

Definition so_passed (o : suite_outcome) : Z := sum_list (co_passed <$> so_configs o).
Definition so_failed (o : suite_outcome) : Z := sum_list (co_failed <$> so_configs o).

Definition so_events (widths pipe_stages : list Z) (n : Z) (o : suite_outcome) :
    list event :=
  [Today (so_stamp o); Clock (so_start o); Print (SuiteBanner n widths pipe_stages)] ++
  (so_configs o ≫= co_events) ++
  [Clock (so_end o);
   Print (FinalSummary (length widths) (length pipe_stages)
            (n * Z.of_nat (length (so_configs o))) (so_passed o) (so_failed o)
            (so_end o - so_start o))] ++
  so_link o ++ closing ("simulation_logs_" +:+ so_stamp o).

(** A configuration as a run with [n] modules leaves it. *)
Definition co_ok (n : Z) (c : config_outcome) : Prop :=
  (co_modules c).*1 = Py.range 1 (n + 1) ∧
  Forall (λ mo, mo_launch_ok mo.2) (co_modules c).

(** The processes launched among some events, with their exit status. *)
Definition launches (l : list event) : list (command * Z) :=
  omap (λ e, match e with
             | Exec c rc _ => Some (c, rc)
             | _ => None
             end) l.

(** The compiler launches that exited with status 0. *)
Definition compiled_ok (l : list event) : list (Z * Z * Z) :=
  omap (λ e, match e with
             | Exec (Compile w p m) rc _ =>
                 if decide (rc = 0) then Some (w, p, m) else None
             | _ => None
             end) l.

(** Sequences of launches in which a compile step that exits 0 is followed
    at once by the simulate step of the same module, and a simulate step
    stands nowhere else. *)
Fixpoint well_launched (l : list (command * Z)) : bool :=
  match l with
  | [] => true
  | (Compile w p m, rc) :: rest =>
      if decide (rc = 0) then
        match rest with
        | (Simulate w' p' m', _) :: rest' =>
            bool_decide ((w', p', m') = (w, p, m)) && well_launched rest'
        | _ => false
        end
      else well_launched rest
  | (Simulate _ _ _, _) :: _ => false
  end.

(** The verdicts printed while the modules ran. *)
Definition verdicts (l : list event) : list Status :=
  omap (λ e, match e with
             | Print (SaidPassed _) => Some PASSED
             | Print (SaidFailed _) => Some FAILED
             | Print (Literal text) =>
                 if decide (text = "COMPILE FAILED") then Some COMPILE_FAILED
                 else None
             | _ => None
             end) l.

(** The rows of the summary tables printed. *)
Definition summary_rows (l : list event) : list (Z * Status * Z) :=
  omap (λ e, match e with
             | Print (ConfigSummaryRow m st d) => Some (m, st, d)
             | _ => None
             end) l.

(** A clock that never runs backwards: while the history grows, its
    answers do not decrease. *)
Definition monotone_clock `{Env} : Prop :=
  ∀ w1 w2, trace w1 `prefix_of` trace w2 → clock w1 ≤ clock w2.

(** The answers of the clock among some events. *)
Definition clocks (l : list event) : list Z :=
  omap (λ e, match e with Clock t => Some t | _ => None end) l.

(** Lists of numbers in ascending order. *)
Fixpoint ascending (l : list Z) : Prop :=
  match l with
  | [] => True
  | x :: l' => Forall (Z.le x) l' ∧ ascending l'
  end.





(** * Properties *)

(** ** Sample evaluations of the primitives *)

Example split_ex1 : Py.split "," "8,16" = ["8"; "16"].
Proof. reflexivity. Qed.
Example split_ex2 : Py.split "," "" = [""].
Proof. reflexivity. Qed.
Example split_ex3 : Py.split "," "8,,x," = ["8"; ""; "x"; ""].
Proof. reflexivity. Qed.
Example int_ex1 : Py.int " -12 " = Some (-12).
Proof. reflexivity. Qed.
Example int_ex2 : Py.int "1_000" = Some 1000.
Proof. reflexivity. Qed.
Example int_ex3 : Py.int "" = None /\ Py.int "x" = None /\ Py.int "1__0" = None /\ Py.int "+ 5" = None /\ Py.int "5_" = None.
Proof. repeat split; reflexivity. Qed.
Example range_ex : Py.range 1 (3 + 1) = [1; 2; 3].
Proof. reflexivity. Qed.
Example contains_ex : Py.contains "TEST PASSED" "xx TEST PASSED yy" = true /\ Py.contains "TEST PASSED" "TEST  PASSED" = false.
Proof. split; reflexivity. Qed.
Example truediv_ex1 : Py.int_truediv 1000 10 = 100 /\ Py.int_truediv 700 25 = 28 /\ Py.int_truediv 100 3 = 33 /\ Py.int_truediv 0 7 = 0.
Proof. vm_compute. tauto. Qed.
Example truediv_ex2 : Py.int_truediv (100 * 2 ^ 48) (100 * 2 ^ 48 + 1) = 1.
Proof. vm_compute. reflexivity. Qed.
Example ancestors_ex : ancestors "a/b/c" = ["a"; "a/b"; "a/b/c"].
Proof. reflexivity. Qed.

(** ** Strings *)

Lemma str_app_nil_l (s : string) : "" +:+ s = s.
Proof. reflexivity. Qed.

Lemma str_app_cons (c : ascii) (s t : string) : String c s +:+ t = String c (s +:+ t).
Proof. reflexivity. Qed.

Lemma str_app_nil_r (s : string) : s +:+ "" = s.
Proof. induction s as [|c s IH]; [done|]. by rewrite str_app_cons, IH. Qed.

Lemma str_app_assoc (s t u : string) : (s +:+ t) +:+ u = s +:+ t +:+ u.
Proof. induction s as [|c s IH]; [done|]. by rewrite !str_app_cons, IH. Qed.



Lemma split_nonempty (sep : ascii) (s : string) : Py.split sep s ≠ [].
Proof.
  induction s as [|c s IH]; simpl; [done|].
  case_decide; [done|]. by destruct (Py.split sep s).
Qed.

(** *** Decimal numerals *)

Lemma all_chars_app P s t :
  all_chars P (s +:+ t) = all_chars P s && all_chars P t.
Proof.
  induction s as [|c s IH]; [done|].
  rewrite str_app_cons. simpl. by rewrite IH, andb_assoc.
Qed.

Lemma pretty_N_char_digit (x : N) : Py.is_digit (pretty_N_char x) = true.
Proof. unfold pretty_N_char. by repeat case_match. Qed.

Lemma pretty_N_go_chars (x : N) (s : string) :
  all_chars sign_or_digit s = true →
  all_chars sign_or_digit (pretty_N_go x s) = true.
Proof.
  revert s. induction (N.lt_wf_0 x) as [x _ IH]; intros s Hs.
  destruct (decide (x = 0)%N) as [->|Hx]; [by rewrite pretty_N_go_0|].
  rewrite pretty_N_go_step by lia.
  apply IH; [apply N.div_lt; lia|].
  simpl. rewrite Hs, andb_true_r. unfold sign_or_digit.
  by rewrite pretty_N_char_digit.
Qed.

Lemma pretty_Z_chars (z : Z) : all_chars sign_or_digit (pretty z) = true.
Proof.
  assert (Hpos : ∀ p : positive, all_chars sign_or_digit (pretty p) = true).
  { intros p. unfold pretty, pretty_positive, pretty, pretty_N.
    case_decide; [done|]. by apply pretty_N_go_chars. }
  destruct z as [|p|p]; [done|apply Hpos|].
  unfold pretty, pretty_Z. rewrite all_chars_app. by rewrite Hpos.
Qed.

(** Two texts made of characters in [P] and closed by the same character
    outside [P] are cut at the same place. *)
Lemma app_sep_inj P (c : ascii) (a a' r r' : string) :
  P c = false → all_chars P a = true → all_chars P a' = true →
  a +:+ String c r = a' +:+ String c r' → a = a' ∧ r = r'.
Proof.
  intros Hc. revert a'. induction a as [|x a IH]; intros [|x' a'] Ha Ha' Heq;
    rewrite ?str_app_cons, ?str_app_nil_l in Heq; simpl in *.
  - by injection Heq as ->.
  - injection Heq as -> _. by rewrite Hc in Ha'.
  - injection Heq as -> _. by rewrite Hc in Ha.
  - injection Heq as -> Htl.
    apply andb_true_iff in Ha as [_ Ha]. apply andb_true_iff in Ha' as [_ Ha'].
    by destruct (IH a' Ha Ha' Htl) as [-> ->].
Qed.

Lemma key_of_inj (w p w' p' : Z) :
  ModuleTest.key_of w p = ModuleTest.key_of w' p' → w = w' ∧ p = p'.
Proof.
  unfold ModuleTest.key_of. intros Heq.
  change ("_" +:+ ?s) with (String "_" s) in Heq.
  apply (app_sep_inj sign_or_digit) in Heq as [Hw Hp];
    [|done|apply pretty_Z_chars..].
  split; by apply (inj pretty).
Qed.

Lemma dir_of_file_inj (L : string) (w p w' p' : Z) (x x' : string) :
  ModuleTest.dir_of L w p +:+ "/" +:+ x = ModuleTest.dir_of L w' p' +:+ "/" +:+ x' →
  w = w' ∧ p = p' ∧ x = x'.
Proof.
  unfold ModuleTest.dir_of. rewrite !str_app_assoc. intros Heq.
  apply (inj (String.app L)) in Heq.
  rewrite !str_app_cons, !str_app_nil_l in Heq.
  injection Heq as Heq.
  apply (app_sep_inj sign_or_digit) in Heq as [Hw Heq];
    [|done|apply pretty_Z_chars..].
  injection Heq as Heq.
  apply (app_sep_inj sign_or_digit) in Heq as [Hp Hx];
    [|done|apply pretty_Z_chars..].
  repeat split; [by apply (inj pretty)..|done].
Qed.

(** ** Division in binary64 *)

Section FloatDivision.

Lemma round_half_even_bounds a b :
  0 <= a -> 0 < b ->
  a / b <= Py.round_half_even a b <= a / b + 1 /\
  (Py.round_half_even a b = a / b + 1 -> b <= 2 * (a mod b)).
Proof.
  intros Ha Hb. unfold Py.round_half_even.
  destruct (Z.ltb_spec (2 * (a mod b)) b) as [Hlt|Hge]; [lia|].
  split; [repeat case_match; lia|]. lia.
Qed.

Lemma ratio_log2_bounds n d :
  Z.log2 n - Z.log2 d - 1 <= Py.ratio_log2 n d <= Z.log2 n - Z.log2 d.
Proof. unfold Py.ratio_log2. case_match; lia. Qed.

Lemma scaled_quotient n d s m :
  0 <= n -> 0 < d -> 0 < s -> d < 2 * s ->
  m = Py.round_half_even (n * s) d ->
  m / s = n / d.
Proof.
  intros Hn Hd Hs Hds ->.
  destruct (round_half_even_bounds (n * s) d ltac:(nia) Hd) as [[Hlo Hhi] Hup].
  set (m := Py.round_half_even (n * s) d) in *.
  pose proof (Z.div_mod n d ltac:(lia)) as Hnd.
  pose proof (Z.mod_pos_bound n d Hd) as Hr.
  pose proof (Z.div_mod (n * s) d ltac:(lia)) as Had.
  pose proof (Z.mod_pos_bound (n * s) d Hd) as Har.
  set (q := n / d) in *. set (r := n mod d) in *.
  set (A := (n * s) / d) in *. set (t := (n * s) mod d) in *.
  assert (HqA : q * s <= A).
  { apply Z.div_le_lower_bound; [lia|]. nia. }
  assert (HA : A < (q + 1) * s).
  { apply Z.div_lt_upper_bound; [lia|]. nia. }
  assert (Hm : q * s <= m < (q + 1) * s).
  { split; [lia|].
    destruct (decide (m = A + 1)) as [Heq|Hne]; [|lia].
    specialize (Hup Heq).
    destruct (decide (A + 1 = (q + 1) * s)) as [Heq2|]; [|lia].
    exfalso.
    assert (t = d - s * (d * (q + 1) - n)) by nia.
    assert (1 <= d * (q + 1) - n) by nia.
    nia. }
  symmetry. apply (Z.div_unique m s q (m - q * s)); [lia|lia].
Qed.

Lemma int_truediv_floor n d :
  0 <= n < 2 ^ 53 -> 0 < d -> Py.int_truediv n d = n / d.
Proof.
  intros [Hn0 Hn] Hd. unfold Py.int_truediv, Py.truediv.
  destruct (Z.eqb_spec n 0) as [->|Hnz]; [by rewrite Z.div_0_l by lia|].
  assert (Hlogn : Z.log2 n < 53) by (apply Z.log2_lt_pow2; lia).
  pose proof (Z.log2_nonneg d) as Hlogd.
  pose proof (Z.log2_nonneg n) as Hlogn0.
  pose proof (ratio_log2_bounds n d) as [HL1 HL2].
  set (L := Py.ratio_log2 n d) in *.
  unfold Py.prec, Py.emin, Py.trunc_float.
  set (e := Z.max (L - (53 - 1)) (-1074)).
  destruct (Z.leb_spec 0 e) as [He|He].
  - (* the quotient is at least 2^52: d = 1 *)
    assert (Z.log2 d = 0) by lia. assert (e = 0) by lia.
    assert (d = 1).
    { destruct (Z.log2_spec d Hd) as [_ Hlt]. rewrite H in Hlt. simpl in Hlt. lia. }
    subst d. rewrite H0. rewrite Z.pow_0_r, Z.mul_1_r, Z.div_1_r.
    unfold Py.round_half_even. rewrite Z.mod_1_r, Z.div_1_r. simpl. lia.
  - assert (Hs : 0 < 2 ^ (- e)) by (apply Z.pow_pos_nonneg; lia).
    destruct (decide (-1074 <= L - 52)) as [Hnorm|Hsub].
    + (* normal range *)
      apply scaled_quotient; [lia..| |done].
      assert (- e = 52 - L) by lia. rewrite H.
      destruct (Z.log2_spec d Hd) as [_ Hlt].
      assert (2 ^ Z.succ (Z.log2 d) <= 2 ^ (53 - L)).
      { apply Z.pow_le_mono_r; lia. }
      assert (2 ^ (53 - L) = 2 * 2 ^ (52 - L)).
      { replace (53 - L) with (Z.succ (52 - L)) by lia. rewrite Z.pow_succ_r; lia. }
      lia.
    + (* subnormal range: the quotient is below 1 *)
      replace (- e) with 1074 by lia.
      destruct (Z.log2_spec n ltac:(lia)) as [_ Hnlt].
      destruct (Z.log2_spec d Hd) as [Hdle _].
      assert (Hpow : 2 ^ (Z.log2 n + 1022) <= 2 ^ Z.log2 d).
      { apply Z.pow_le_mono_r; lia. }
      assert (Hsplit : 2 ^ (Z.log2 n + 1022) = 2 ^ Z.succ (Z.log2 n) * 2 ^ 1021).
      { rewrite <- Z.pow_add_r by lia. f_equal. lia. }
      assert (Hbig : n * 2 ^ 1021 < d).
      { assert (0 < 2 ^ 1021) by (apply Z.pow_pos_nonneg; lia). nia. }
      assert (H1021 : 0 < 2 ^ 1021) by (apply Z.pow_pos_nonneg; lia).
      assert (Hq : n / d = 0) by (apply Z.div_small; nia).
      rewrite Hq.
      destruct (round_half_even_bounds (n * 2 ^ 1074) d) as [[Hlo Hhi] _]; [|lia|].
      { assert (0 < 2 ^ 1074) by (apply Z.pow_pos_nonneg; lia). nia. }
      apply Z.div_small. split; [etrans; [|exact Hlo]; apply Z.div_pos; [|lia]|].
      { assert (0 < 2 ^ 1074) by (apply Z.pow_pos_nonneg; lia). nia. }
      assert (n * 2 ^ 1074 / d <= 2 ^ 53).
      { apply Z.div_le_upper_bound; [lia|].
        assert (2 ^ 1074 = 2 ^ 1021 * 2 ^ 53) by (rewrite <- Z.pow_add_r by lia; done).
        assert (0 < 2 ^ 53) by (apply Z.pow_pos_nonneg; lia). nia. }
      assert (2 ^ 53 + 1 < 2 ^ 1074).
      { assert (2 ^ 54 <= 2 ^ 1074) by (apply Z.pow_le_mono_r; lia).
        assert (2 ^ 54 = 2 * 2 ^ 53) by (change 54 with (Z.succ 53); rewrite Z.pow_succ_r; lia).
        assert (0 < 2 ^ 53) by (apply Z.pow_pos_nonneg; lia). lia. }
      lia.
Qed.
End FloatDivision.

(** ** Events and file-system changes *)

Lemma since_app (w w' : world) (l : list event) :
  trace w' = trace w ++ l → since w w' = l.
Proof. intros Heq. unfold since. by rewrite Heq, drop_app_length. Qed.

Lemma compiles_app l1 l2 : compiles (l1 ++ l2) = compiles l1 ++ compiles l2.
Proof. apply omap_app. Qed.

Lemma simulations_app l1 l2 :
  simulations (l1 ++ l2) = simulations l1 ++ simulations l2.
Proof. apply omap_app. Qed.

Lemma config_totals_app l1 l2 :
  config_totals (l1 ++ l2) = config_totals l1 ++ config_totals l2.
Proof. apply omap_app. Qed.

Lemma warnings_app l1 l2 : warnings (l1 ++ l2) = (warnings l1 + warnings l2)%nat.
Proof. unfold warnings. by rewrite filter_app, length_app. Qed.

Lemma writes_refl D F f : writes D F f f.
Proof. intros q. by left. Qed.

Lemma writes_trans D F f1 f2 f3 :
  writes D F f1 f2 → writes D F f2 f3 → writes D F f1 f3.
Proof.
  intros H12 H23 q.
  destruct (H23 q) as [Heq|[(HD & Hnone & Hdir)|(HF & c & Hc)]].
  - rewrite Heq. apply H12.
  - right; left. split; [done|]. split; [|done].
    destruct (H12 q) as [Heq|[(_ & _ & Hd)|(_ & c & Hc)]]; congruence.
  - right; right. eauto.
Qed.

Lemma writes_mono (D D' F F' : string → Prop) f f' :
  (∀ q, D q → D' q) → (∀ q, F q → F' q) → writes D F f f' → writes D' F' f f'.
Proof.
  intros HD HF Hw q.
  destruct (Hw q) as [?|[(? & ? & ?)|(? & ?)]]; [by left|right; left|right; right]; eauto.
Qed.

Lemma writes_insert_file (D F : string → Prop) f p c :
  F p → writes D F f (<[p := File c]> f).
Proof.
  intros HF q. destruct (decide (p = q)) as [->|Hne].
  - right; right. split; [done|]. exists c. by rewrite lookup_insert_eq.
  - left. by rewrite lookup_insert_ne.
Qed.

Lemma writes_mkdir (D F : string → Prop) f d :
  D d → writes D F f (mkdir_if_absent f d).
Proof.
  intros HD q. unfold mkdir_if_absent.
  destruct (f !! d) eqn:Hd; [by left|].
  destruct (decide (d = q)) as [->|Hne].
  - right; left. by rewrite lookup_insert_eq.
  - left. by rewrite lookup_insert_ne.
Qed.

Lemma writes_mkdirs (D F : string → Prop) l f :
  (∀ d, d ∈ l → D d) → writes D F f (foldl mkdir_if_absent f l).
Proof.
  revert f. induction l as [|d l IH]; intros f HD; simpl; [apply writes_refl|].
  eapply writes_trans; [apply writes_mkdir, HD; left|].
  apply IH. intros d' Hd'. apply HD. by right.
Qed.

(** A path that is present stays present, as a file or a directory. *)
Lemma writes_present D F f f' q :
  writes D F f f' → is_Some (f !! q) → is_Some (f' !! q).
Proof.
  intros Hw [x Hx].
  destruct (Hw q) as [Heq|[(_ & Hnone & _)|(_ & c & Hc)]]; [|congruence|eauto].
  rewrite Heq. eauto.
Qed.

Lemma writes_outside (D F : string → Prop) f f' q :
  writes D F f f' → ¬ D q → ¬ F q → f' !! q = f !! q.
Proof. intros Hw HD HF. destruct (Hw q) as [?|[(? & _)|(? & _)]]; done. Qed.

(** A file that is present changes only if its path is in [F]. *)
Lemma writes_keeps (D F : string → Prop) f f' q :
  writes D F f f' → is_Some (f !! q) → ¬ F q → f' !! q = f !! q.
Proof.
  intros Hw [x Hx] HF.
  destruct (Hw q) as [?|[(_ & Hnone & _)|(? & _)]]; [done|congruence|done].
Qed.

(** [os.path.exists] is monotone along such changes. *)
Lemma exists_follow_writes D F f f' fuel p :
  writes D F f f' → exists_follow fuel f p = true → exists_follow fuel f' p = true.
Proof.
  intros Hw. revert p. induction fuel as [|fuel IH]; intros p; simpl.
  - destruct (Hw p) as [->|[(_ & -> & _)|(_ & c & ->)]]; done.
  - destruct (Hw p) as [->|[(_ & -> & _)|(_ & c & ->)]]; [|done..].
    destruct (f !! p) as [[| |t]|]; auto.
Qed.

(** *** Ancestors of a path *)

Lemma ancestors_go_prefix seen rest a :
  a ∈ ancestors_go seen rest → ∃ r, a = seen +:+ r.
Proof.
  revert seen. induction rest as [|c rest IH]; intros seen; simpl.
  - intros ->%list_elem_of_singleton. exists "". by rewrite str_app_nil_r.
  - case_decide.
    + intros [->|Hin]%elem_of_cons; [exists ""; by rewrite str_app_nil_r|].
      apply IH in Hin as [r ->]. exists ("/" +:+ r). by rewrite str_app_assoc.
    + intros Hin. apply IH in Hin as [r ->].
      exists (String c "" +:+ r). by rewrite str_app_assoc.
Qed.

Lemma ancestors_in_logs r a :
  a ∈ ancestors ("simulation_logs_" +:+ r) → in_logs a.
Proof.
  unfold ancestors. intros Hin.
  change (a ∈ ancestors_go "simulation_logs_" r) in Hin.
  by apply ancestors_go_prefix in Hin.
Qed.

Lemma latest_not_in_logs : ¬ in_logs latest.
Proof. intros [r Hr]. discriminate Hr. Qed.

Lemma ancestors_go_self (seen rest : string) :
  seen +:+ rest ∈ ancestors_go seen rest.
Proof.
  revert seen. induction rest as [|c rest IH]; intros seen; simpl.
  - rewrite str_app_nil_r. by left.
  - case_decide as Hc.
    + right. subst c. specialize (IH (seen +:+ "/")).
      by rewrite str_app_assoc in IH.
    + specialize (IH (seen +:+ String c "")). by rewrite str_app_assoc in IH.
Qed.

Lemma ancestors_self (p : string) : p ∈ ancestors p.
Proof. apply (ancestors_go_self "" p). Qed.

(** [os.makedirs] leaves every ancestor present. *)
Lemma mkdirs_present (l : list string) (f : gmap string node) (d : string) :
  d ∈ l → is_Some (foldl mkdir_if_absent f l !! d).
Proof.
  revert f. induction l as [|d0 l IH]; intros f Hd; [by apply elem_of_nil in Hd|].
  simpl. apply elem_of_cons in Hd as [->|Hd]; [|by apply IH].
  eapply (writes_present (λ _, True) (λ _, True)); [by apply writes_mkdirs|].
  unfold mkdir_if_absent. destruct (f !! d0) eqn:Hd0; [by rewrite Hd0|].
  rewrite lookup_insert_eq. eauto.
Qed.

(** ** One module run *)

Ltac unfold_M :=
  unfold mbind, M_bind, mret, M_ret, print, time_time, now_stamp, open_w,
    read_text, write_page, makedirs, log_event, with_fs in *; simpl in *.

Section ModuleRun.
Context `{Env}.

Lemma append_out_insert (p s out : string) (f : gmap string node) :
  append_out p out (<[p := File (Text s)]> f) = <[p := File (Text (s +:+ out))]> f.
Proof. unfold append_out. by rewrite lookup_insert_eq, insert_insert_eq. Qed.

(** The two shapes of a module run. *)
Lemma run_test_spec (self : ModuleTest.t) (w : world) ok self' w' :
  ModuleTest.run_test self w = (ok, self', w') →
  let c := Compile (ModuleTest.width self) (ModuleTest.pipe_stages self)
             (ModuleTest.module_id self) in
  let s := Simulate (ModuleTest.width self) (ModuleTest.pipe_stages self)
             (ModuleTest.module_id self) in
  ∃ t0 rc out t1,
    self' = ModuleTest.set_outcome (ModuleTest.status self') (t1 - t0) self ∧
    ok = bool_decide (ModuleTest.status self' = PASSED) ∧
    ((rc ≠ 0 ∧ ModuleTest.status self' = COMPILE_FAILED ∧
      trace w' = trace w ++
        [Clock t0; Print (TestingModule (ModuleTest.module_id self));
         Exec c rc out; Print (Literal "COMPILE FAILED"); Clock t1] ∧
      fs w' = <[ModuleTest.log_file self := File (Text out)]> (fs w))
     ∨
     (rc = 0 ∧ ∃ rc2 out2,
      ModuleTest.status self' =
        (if Py.contains ModuleTest.marker (out +:+ out2) then PASSED else FAILED) ∧
      trace w' = trace w ++
        [Clock t0; Print (TestingModule (ModuleTest.module_id self));
         Exec c 0 out; Exec s rc2 out2; Clock t1;
         Print (if Py.contains ModuleTest.marker (out +:+ out2)
                then SaidPassed (t1 - t0) else SaidFailed (t1 - t0))] ∧
      fs w' = <[ModuleTest.log_file self := File (Text (out +:+ out2))]> (fs w))).
Proof.
  intros Hrun c s. revert Hrun.
  unfold ModuleTest.run_test, ModuleTest.subprocess_run. unfold_M.
  fold c s. destruct (tool _ c) as [rc out] eqn:Hc.
  rewrite append_out_insert.
  case_decide as Hrc.
  - intros [= <- <- <-]. exists (clock w), rc, out. eexists.
    split; [reflexivity|]. split; [done|]. left.
    split; [done|]. split; [done|]. simpl.
    rewrite <- !(assoc_L (++)). done.
  - subst rc.
    destruct (tool _ s) as [rc2 out2] eqn:Hs.
    simpl. rewrite append_out_insert, lookup_insert_eq. simpl.
    change ("" +:+ out) with out.
    destruct (Py.contains ModuleTest.marker (out +:+ out2)) eqn:Hm;
      intros [= <- <- <-]; exists (clock w), 0, out; eexists;
      (split; [reflexivity|]); (split; [done|]); right;
      (split; [done|]); exists rc2, out2; rewrite Hm; simpl;
      rewrite <- !(assoc_L (++)); done.
Qed.


Lemma module_init_spec module_id width pipe_stages log_dir (w : world) :
  ModuleTest.init module_id width pipe_stages log_dir w =
  ({| ModuleTest.module_id := module_id; ModuleTest.width := width;
      ModuleTest.pipe_stages := pipe_stages; ModuleTest.log_dir := log_dir;
      ModuleTest.config_dir := ModuleTest.dir_of log_dir width pipe_stages;
      ModuleTest.log_file :=
        ModuleTest.dir_of log_dir width pipe_stages +:+ "/" +:+
        ModuleTest.log_name module_id;
      ModuleTest.duration := 0; ModuleTest.status := UNKNOWN;
      ModuleTest.config_key := ModuleTest.key_of width pipe_stages |},
   with_fs (foldl mkdir_if_absent (fs w)
              (ancestors (ModuleTest.dir_of log_dir width pipe_stages))) w).
Proof. reflexivity. Qed.

End ModuleRun.

(** ** One configuration *)

Lemma count_status_app sts l1 l2 :
  count_status sts (l1 ++ l2) = count_status sts l1 + count_status sts l2.
Proof. unfold count_status. rewrite filter_app, length_app. lia. Qed.

Lemma count_status_total (tests : list ModuleTest.t) :
  Forall (λ t, ModuleTest.status t ∈ ran) tests →
  count_status [PASSED] tests + count_status [FAILED; COMPILE_FAILED] tests
  = Z.of_nat (length tests).
Proof.
  induction 1 as [|t tests Ht _ IH]; [done|].
  change (t :: tests) with ([t] ++ tests).
  rewrite !count_status_app, length_app, Nat2Z.inj_add, <- IH.
  assert (count_status [PASSED] [t] + count_status [FAILED; COMPILE_FAILED] [t] = 1);
    [|simpl; lia].
  unfold count_status, ran in *. rewrite !filter_cons, !filter_nil.
  destruct (ModuleTest.status t); [|reflexivity..].
  exfalso. by apply (bool_decide_eq_false_1 (UNKNOWN ∈ [PASSED; FAILED; COMPILE_FAILED])) in Ht.
Qed.

Lemma count_status_nonneg sts tests : 0 ≤ count_status sts tests.
Proof. unfold count_status. lia. Qed.

Section ConfigurationRun.
Context `{Env}.

Lemma for_each_app {A S : Type} (l1 l2 : list A) (body : S → A → M S) s w :
  ConfigurationTest.for_each (l1 ++ l2) body s w =
  (let '(s1, w1) := ConfigurationTest.for_each l1 body s w in
   ConfigurationTest.for_each l2 body s1 w1).
Proof.
  revert s w. induction l1 as [|x l1 IH]; intros s w; simpl; [done|].
  unfold mbind, M_bind. destruct (body s x w) as [s1 w1]. apply IH.
Qed.

(** The rows of the summary table. *)
Lemma print_rows_spec (tests : list ModuleTest.t) (w : world) :
  ConfigurationTest.for_each tests
    (λ _ test, print (ConfigSummaryRow (ModuleTest.module_id test)
                        (ModuleTest.status test) (ModuleTest.duration test)))
    () w
  = ((), {| fs := fs w;
            trace := trace w ++
              ((λ test, Print (ConfigSummaryRow (ModuleTest.module_id test)
                  (ModuleTest.status test) (ModuleTest.duration test)))
               <$> tests) |}).
Proof.
  revert w. induction tests as [|t tests IH]; intros w; simpl.
  - unfold mret, M_ret. rewrite app_nil_r. by destruct w.
  - unfold mbind, M_bind, print. simpl. rewrite IH. simpl.
    by rewrite <- (assoc_L (++)).
Qed.

Lemma rows_silent (tests : list ModuleTest.t) :
  let rows := (λ test, Print (ConfigSummaryRow (ModuleTest.module_id test)
                 (ModuleTest.status test) (ModuleTest.duration test)))
              <$> tests in
  compiles rows = [] ∧ simulations rows = [] ∧ config_totals rows = [] ∧
  warnings rows = 0%nat.
Proof. induction tests as [|t tests IH]; [done|]. simpl. apply IH. Qed.

Lemma count_status_one (t : ModuleTest.t) :
  ModuleTest.status t ∈ ran →
  count_status [PASSED] [t]
    = (if bool_decide (ModuleTest.status t = PASSED) then 1 else 0) ∧
  count_status [FAILED; COMPILE_FAILED] [t]
    = (if bool_decide (ModuleTest.status t = PASSED) then 0 else 1).
Proof.
  intros Ht. unfold count_status. rewrite !filter_cons, !filter_nil.
  destruct (ModuleTest.status t); [|by vm_compute..].
  exfalso. by apply (bool_decide_eq_false_1 (UNKNOWN ∈ ran)) in Ht.
Qed.

(** The body of the loop over module ids. *)
Lemma run_module_spec (self : ConfigurationTest.t) (module_id : Z) (w : world) self' w' :
  ConfigurationTest.run_module self module_id w = (self', w') →
  ∃ test delta,
    self' = ConfigurationTest.set_counts
              (ConfigurationTest.passed self + count_status [PASSED] [test])
              (ConfigurationTest.failed self
               + count_status [FAILED; COMPILE_FAILED] [test])
              (ConfigurationTest.module_tests self ++ [test]) self ∧
    ModuleTest.module_id test = module_id ∧
    ModuleTest.status test ∈ ran ∧
    trace w' = trace w ++ delta ∧
    compiles delta =
      [(ConfigurationTest.width self, ConfigurationTest.pipe_stages self, module_id)] ∧
    config_totals delta = [] ∧ warnings delta = 0%nat ∧
    writes (config_dirs (ConfigurationTest.log_dir self)
              (ConfigurationTest.width self) (ConfigurationTest.pipe_stages self))
           (config_files (ConfigurationTest.log_dir self)
              (ConfigurationTest.width self) (ConfigurationTest.pipe_stages self))
           (fs w) (fs w').
Proof.
  unfold ConfigurationTest.run_module. unfold mbind at 1. unfold M_bind at 1.
  rewrite module_init_spec.
  set (test0 := {| ModuleTest.module_id := module_id |}).
  set (w0 := with_fs _ w).
  unfold mbind, M_bind.
  destruct (ModuleTest.run_test test0 w0) as [[ok test] w1] eqn:Hrun.
  apply run_test_spec in Hrun as (t0 & rc & out & t1 & Htest & Hok & Hcases).
  assert (Hid : ModuleTest.module_id test = module_id) by (by rewrite Htest).
  assert (Hw : writes
    (config_dirs (ConfigurationTest.log_dir self)
       (ConfigurationTest.width self) (ConfigurationTest.pipe_stages self))
    (config_files (ConfigurationTest.log_dir self)
       (ConfigurationTest.width self) (ConfigurationTest.pipe_stages self))
    (fs w) (fs w1)).
  { assert (Hfs : ∃ c, fs w1 = <[ModuleTest.log_file test0 := File c]> (fs w0)).
    { destruct Hcases as [(_ & _ & _ & ->)|(_ & ? & ? & _ & _ & ->)]; eauto. }
    destruct Hfs as [c ->]. eapply writes_trans.
    - apply writes_mkdirs. intros d Hd. exact Hd.
    - apply writes_insert_file. by eexists. }
  assert (Hst : ModuleTest.status test ∈ ran ∧ ∃ delta, trace w1 = trace w ++ delta ∧
            compiles delta = [(ConfigurationTest.width self,
                               ConfigurationTest.pipe_stages self, module_id)] ∧
            config_totals delta = [] ∧ warnings delta = 0%nat).
  { destruct Hcases as [(_ & -> & -> & _)|(_ & rc2 & out2 & -> & -> & _)].
    - split; [unfold ran; repeat constructor|]. eexists. split; [done|]. done.
    - split; [destruct (Py.contains _ _); unfold ran; repeat constructor|].
      eexists. split; [done|]. by destruct (Py.contains _ _). }
  destruct Hst as (Hst & delta & Htr & Hcomp & Htot & Hwarn).
  destruct (count_status_one test Hst) as [Hp Hf].
  destruct ok; unfold mret, M_ret; intros [= <- <-]; exists test, delta;
    rewrite Hp, Hf, <- Hok, ?Z.add_0_r; done.
Qed.


(** The loop over module ids, from any state of the object. *)
Lemma module_loop_spec (ids : list Z) (self : ConfigurationTest.t) (w : world) self' w' :
  ConfigurationTest.for_each ids ConfigurationTest.run_module self w = (self', w') →
  ∃ new delta,
    self' = ConfigurationTest.set_counts
              (ConfigurationTest.passed self + count_status [PASSED] new)
              (ConfigurationTest.failed self
               + count_status [FAILED; COMPILE_FAILED] new)
              (ConfigurationTest.module_tests self ++ new) self ∧
    ModuleTest.module_id <$> new = ids ∧
    Forall (λ t, ModuleTest.status t ∈ ran) new ∧
    trace w' = trace w ++ delta ∧
    compiles delta =
      (λ m, (ConfigurationTest.width self, ConfigurationTest.pipe_stages self, m))
      <$> ids ∧
    config_totals delta = [] ∧ warnings delta = 0%nat ∧
    writes (config_dirs (ConfigurationTest.log_dir self)
              (ConfigurationTest.width self) (ConfigurationTest.pipe_stages self))
           (config_files (ConfigurationTest.log_dir self)
              (ConfigurationTest.width self) (ConfigurationTest.pipe_stages self))
           (fs w) (fs w').
Proof.
  revert self w. induction ids as [|m ids IH]; intros self w; simpl.
  - unfold mret, M_ret. intros [= <- <-]. exists [], [].
    rewrite !app_nil_r. unfold count_status. simpl. rewrite !Z.add_0_r.
    split; [by destruct self|]. repeat split; try done. apply writes_refl.
  - unfold mbind, M_bind.
    destruct (ConfigurationTest.run_module self m w) as [self1 w1] eqn:Hm.
    apply run_module_spec in Hm
      as (test & d1 & -> & Hid & Hst & Htr1 & Hc1 & Ht1 & Hw1 & Hfs1).
    intros Hrest. apply IH in Hrest
      as (new & d2 & -> & Hids & Hsts & Htr2 & Hc2 & Ht2 & Hw2 & Hfs2).
    simpl in *. exists (test :: new), (d1 ++ d2).
    change (test :: new) with ([test] ++ new).
    rewrite !count_status_app, compiles_app, config_totals_app, warnings_app.
    rewrite Hc1, Hc2, Ht1, Ht2, Hw1, Hw2, Htr2, Htr1.
    rewrite <- !(assoc_L (++)), !Z.add_assoc. simpl.
    split; [done|]. split; [f_equal; [exact Hid|exact Hids]|]. split; [by constructor|].
    repeat split; try done. by eapply writes_trans.
Qed.

Lemma range_length (lo hi : Z) : Z.of_nat (length (Py.range lo hi)) = Z.max 0 (hi - lo).
Proof. unfold Py.range. rewrite length_fmap, length_seq. lia. Qed.

(** One configuration: [__init__] followed by [run]. *)
Lemma config_run_spec (width pipe_stages n : Z) (log_dir : string) (w : world)
    c0 w0 passed failed duration c w' :
  ConfigurationTest.init width pipe_stages n log_dir w = (c0, w0) →
  ConfigurationTest.run c0 w0 = (passed, failed, duration, c, w') →
  ∃ delta,
    ConfigurationTest.passed c = passed ∧ ConfigurationTest.failed c = failed ∧
    ConfigurationTest.duration c = duration ∧
    passed = count_status [PASSED] (ConfigurationTest.module_tests c) ∧
    failed = count_status [FAILED; COMPILE_FAILED] (ConfigurationTest.module_tests c) ∧
    ModuleTest.module_id <$> ConfigurationTest.module_tests c = Py.range 1 (n + 1) ∧
    Forall (λ t, ModuleTest.status t ∈ ran) (ConfigurationTest.module_tests c) ∧
    trace w' = trace w ++ delta ∧
    compiles delta = (λ m, (width, pipe_stages, m)) <$> Py.range 1 (n + 1) ∧
    config_totals delta = [(passed, failed)] ∧ warnings delta = 0%nat ∧
    writes (config_dirs log_dir width pipe_stages)
           (config_files log_dir width pipe_stages) (fs w) (fs w') ∧
    fs w' !! (ModuleTest.dir_of log_dir width pipe_stages +:+ "/report.html")
      = Some (File (ConfigPage (ConfigurationTest.report c))).
Proof.
  unfold ConfigurationTest.init. unfold_M. intros [= <- <-].
  unfold ConfigurationTest.run, ConfigurationTest._print_summary,
    ConfigurationTest._generate_html_report. unfold_M.
  destruct (ConfigurationTest.for_each _ _ _ _) as [c1 w1] eqn:Hloop.
  apply module_loop_spec in Hloop
    as (new & d & -> & Hids & Hsts & Htr & Hc & Ht & Hw & Hfs).
  simpl in *. rewrite print_rows_spec. simpl.
  intros [= <- <- <- <- <-]. simpl.
  destruct (rows_silent new) as (Hr1 & _ & Hr2 & Hr3).
  eexists. rewrite Htr. rewrite <- !(assoc_L (++)).
  do 7 (split; [done|]). split; [reflexivity|].
  rewrite !compiles_app, !config_totals_app, !warnings_app, Hc, Ht, Hw, Hr1, Hr2, Hr3.
  simpl. rewrite !app_nil_r. do 3 (split; [done|]).
  split.
  - eapply writes_trans; [|apply writes_insert_file; by eexists].
    eapply writes_trans; [|exact Hfs].
    apply writes_mkdirs. by intros d' Hd'.
  - by rewrite lookup_insert_eq.
Qed.

End ConfigurationRun.

(** ** The loops of the suite *)

Section SuiteLoops.
Context `{Env}.

Lemma for_each_fmap {A B S : Type} (f : A → B) (l : list A) (body : S → B → M S) s w :
  ConfigurationTest.for_each (f <$> l) body s w =
  ConfigurationTest.for_each l (λ s x, body s (f x)) s w.
Proof.
  revert s w. induction l as [|x l IH]; intros s w; simpl; [done|].
  unfold mbind, M_bind. destruct (body s (f x) w). apply IH.
Qed.

(** The body of the inner loop. *)
Lemma run_config_spec (width : Z) (self : TestSuite.t) (pipe_stages : Z) (w : world)
    self' w' :
  TestSuite.run_config width self pipe_stages w = (self', w') →
  ∃ r delta,
    self' = TestSuite.record_config (ModuleTest.key_of width pipe_stages) r self ∧
    res_width r = width ∧ res_pipe_stages r = pipe_stages ∧
    0 ≤ res_passed r ∧ 0 ≤ res_failed r ∧
    res_passed r + res_failed r = Z.max 0 (TestSuite.total_modules self) ∧
    trace w' = trace w ++ delta ∧
    compiles delta = triples (TestSuite.total_modules self) [(width, pipe_stages)] ∧
    config_totals delta = [(res_passed r, res_failed r)] ∧
    warnings delta = 0%nat ∧
    writes (config_dirs (TestSuite.log_dir self) width pipe_stages)
           (config_files (TestSuite.log_dir self) width pipe_stages)
           (fs w) (fs w').
Proof.
  unfold TestSuite.run_config. unfold mbind, M_bind.
  destruct (ConfigurationTest.init _ _ _ _ w) as [c0 w0] eqn:Hinit.
  destruct (ConfigurationTest.run c0 w0) as [[[[passed failed] duration] c] w1] eqn:Hrun.
  destruct (config_run_spec _ _ _ _ _ _ _ _ _ _ _ _ Hinit Hrun)
    as (delta & _ & _ & _ & Hp & Hf & Hids & Hsts & Htr & Hc & Ht & Hw & Hfs & _).
  unfold mret, M_ret. intros [= <- <-]. eexists _, delta.
  split; [reflexivity|]. simpl.
  pose proof (count_status_total _ Hsts) as Htotal.
  rewrite <- Hp, <- Hf in Htotal.
  assert (Hlen : Z.of_nat (length (ConfigurationTest.module_tests c))
                 = Z.max 0 (TestSuite.total_modules self)).
  { rewrite <- (length_fmap ModuleTest.module_id), Hids, range_length. lia. }
  pose proof (count_status_nonneg [PASSED] (ConfigurationTest.module_tests c)).
  pose proof (count_status_nonneg [FAILED; COMPILE_FAILED]
                (ConfigurationTest.module_tests c)).
  repeat split; try done; try lia.
  unfold triples. simpl. by rewrite app_nil_r.
Qed.


Lemma triples_app (n : Z) (l1 l2 : list (Z * Z)) :
  triples n (l1 ++ l2) = triples n l1 ++ triples n l2.
Proof. unfold triples. apply bind_app. Qed.

Lemma sum_list_cons (x : Z) (l : list Z) : sum_list (x :: l) = x + sum_list l.
Proof. reflexivity. Qed.

Lemma sum_list_app (l1 l2 : list Z) : sum_list (l1 ++ l2) = sum_list l1 + sum_list l2.
Proof.
  induction l1 as [|x l1 IH]; [done|].
  change ((x :: l1) ++ l2) with (x :: (l1 ++ l2)). rewrite !sum_list_cons, IH. lia.
Qed.

(** The configurations of a list of pairs, run one after the other from
    any state of the suite object. *)
Lemma pair_loop_spec (l : list (Z * Z)) (self : TestSuite.t) (w : world) self' w' :
  ConfigurationTest.for_each l run_pair self w = (self', w') →
  ∃ results delta,
    same_suite self self' ∧
    TestSuite.total_duration self' = TestSuite.total_duration self ∧
    (λ r, (res_width r, res_pipe_stages r)) <$> results = l ∧
    Forall (λ r, 0 ≤ res_passed r ∧ 0 ≤ res_failed r ∧
                 res_passed r + res_failed r
                 = Z.max 0 (TestSuite.total_modules self)) results ∧
    TestSuite.config_results self'
      = foldl store (TestSuite.config_results self) results ∧
    TestSuite.total_tests self'
      = TestSuite.total_tests self
        + TestSuite.total_modules self * Z.of_nat (length l) ∧
    TestSuite.total_passed self'
      = TestSuite.total_passed self + sum_list (res_passed <$> results) ∧
    TestSuite.total_failed self'
      = TestSuite.total_failed self + sum_list (res_failed <$> results) ∧
    trace w' = trace w ++ delta ∧
    compiles delta = triples (TestSuite.total_modules self) l ∧
    config_totals delta = (λ r, (res_passed r, res_failed r)) <$> results ∧
    warnings delta = 0%nat ∧
    writes (λ q, ∃ wp, wp ∈ l ∧ config_dirs (TestSuite.log_dir self) wp.1 wp.2 q)
           (λ q, ∃ wp, wp ∈ l ∧ config_files (TestSuite.log_dir self) wp.1 wp.2 q)
           (fs w) (fs w').
Proof.
  revert self w. induction l as [|[wd p] l IH]; intros self w; simpl.
  - unfold mret, M_ret. intros [= <- <-]. exists [], []. simpl.
    rewrite app_nil_r, !Z.add_0_r, Z.mul_0_r, Z.add_0_r.
    repeat split; try done. apply writes_refl.
  - unfold mbind, M_bind.
    destruct (run_pair self (wd, p) w) as [self1 w1] eqn:Hhd.
    apply run_config_spec in Hhd
      as (r & d1 & -> & Hrw & Hrp & Hp0 & Hf0 & Hsum & Htr1 & Hc1 & Ht1 & Hw1 & Hfs1).
    simpl in *.
    intros Hrest. apply IH in Hrest
      as (results & d2 & Hsame & Hdur & Hl & Hall & Hres & Htests & Hpass & Hfail
          & Htr2 & Hc2 & Ht2 & Hw2 & Hfs2).
    simpl in *. exists (r :: results), (d1 ++ d2).
    rewrite compiles_app, config_totals_app, warnings_app.
    rewrite Hc1, Hc2, Ht1, Ht2, Hw1, Hw2, Htr2, Htr1, Hres, Htests, Hpass, Hfail.
    rewrite <- !(assoc_L (++)).
    split; [exact Hsame|]. split; [exact Hdur|].
    split; [rewrite fmap_cons; simpl; by rewrite Hrw, Hrp, Hl|].
    split; [by constructor|].
    split; [simpl; f_equal; unfold store; by rewrite Hrw, Hrp|].
    split; [rewrite Nat2Z.inj_succ; lia|].
    split; [rewrite fmap_cons, sum_list_cons; lia|].
    split; [rewrite fmap_cons, sum_list_cons; lia|].
    split; [done|]. split; [done|].
    split; [done|]. split; [done|].
    eapply writes_trans.
    + eapply writes_mono; [| |exact Hfs1]; intros q Hq; exists (wd, p);
        (split; [by left|done]).
    + eapply writes_mono; [| |exact Hfs2]; intros q (wp & Hin & Hq);
        exists wp; (split; [by right|done]).
Qed.

Lemma pairs_cons (width : Z) (widths pipe_stages : list Z) :
  pairs (width :: widths) pipe_stages
  = (pair width <$> pipe_stages) ++ pairs widths pipe_stages.
Proof.
  unfold pairs. simpl. f_equal.
Qed.

Lemma pairs_length (widths pipe_stages : list Z) :
  length (pairs widths pipe_stages) = (length widths * length pipe_stages)%nat.
Proof.
  induction widths as [|wd ws IH]; [done|].
  rewrite pairs_cons, length_app, length_fmap, IH. simpl. lia.
Qed.

(** The nested loops of [run] are one loop over [pairs]. *)
Lemma loops_fused (widths : list Z) (self : TestSuite.t) (w : world) :
  ConfigurationTest.for_each widths TestSuite.run_width self w
  = ConfigurationTest.for_each (pairs widths (TestSuite.pipe_stages self))
      run_pair self w.
Proof.
  revert self w. induction widths as [|wd ws IH]; intros self w; [done|].
  rewrite pairs_cons, for_each_app, for_each_fmap. simpl.
  unfold mbind, M_bind. unfold TestSuite.run_width at 1.
  change (λ s x, run_pair s (wd, x)) with (TestSuite.run_config wd).
  destruct (ConfigurationTest.for_each (TestSuite.pipe_stages self) _ self w)
    as [s1 w1] eqn:Hinner.
  rewrite IH. f_equal. f_equal.
  assert (Hpairs : ConfigurationTest.for_each
            (pair wd <$> TestSuite.pipe_stages self) run_pair self w = (s1, w1))
    by (rewrite for_each_fmap; exact Hinner).
  apply pair_loop_spec in Hpairs as (_ & _ & (_ & Hps & _) & _). exact Hps.
Qed.

End SuiteLoops.

(** ** The suite run *)

Section SuiteRun.
Context `{Env}.

Lemma link_latest_spec (log_dir : string) (w : world) :
  let w' := (TestSuite.link_latest log_dir w).2 in
  (replaceable (fs w) ∧ fs w' = <[latest := Symlink log_dir]> (fs w) ∧
   trace w' = trace w)
  ∨ (¬ replaceable (fs w) ∧ fs w' = fs w ∧
     trace w' = trace w ++ [Print SymlinkWarning]).
Proof.
  unfold TestSuite.link_latest, TestSuite.symlink_or_warn, os_remove, os_symlink,
    replaceable, print, with_fs, log_event. simpl.
  destruct (path_exists (fs w) latest) eqn:Hex.
  - destruct (fs w !! latest) as [[c| |t]|] eqn:Hl; simpl.
    + rewrite lookup_delete_eq. simpl. left.
      split; [right; done|]. by rewrite insert_delete_eq.
    + right. split; [|done]. intros [?|[_ ?]]; done.
    + rewrite lookup_delete_eq. simpl. left.
      split; [right; done|]. by rewrite insert_delete_eq.
    + unfold path_exists in Hex. simpl in Hex. by rewrite Hl in Hex.
  - destruct (fs w !! latest) as [x|] eqn:Hl; simpl.
    + right. split; [|done]. intros [?|[? _]]; done.
    + left. split; [by left|done].
Qed.

Lemma run_unfold (self : TestSuite.t) (w : world) :
  TestSuite.run self w =
  (let '(s, w1) := ConfigurationTest.for_each (pairs (TestSuite.widths self)
                      (TestSuite.pipe_stages self)) run_pair self
                      (loop_start self w) in
   finish (clock w) s w1).
Proof.
  unfold TestSuite.run, finish, loop_start, time_time, print.
  unfold mbind at 1 2 3, M_bind at 1 2 3. simpl.
  by rewrite loops_fused.
Qed.


Lemma finish_spec (start_time : Z) (self : TestSuite.t) (w : world) self' w' :
  finish start_time self w = (self', w') →
  ∃ t1 dlink,
    let fl := <[TestSuite.log_dir self +:+ "/dashboard.html" :=
                  File (DashboardPage (TestSuite.dashboard self'))]> (fs w) in
    self' = TestSuite.set_total_duration (t1 - start_time) self ∧
    ((replaceable fl ∧
      fs w' = <[latest := Symlink (TestSuite.log_dir self)]> fl ∧ dlink = [])
     ∨ (¬ replaceable fl ∧ fs w' = fl ∧ dlink = [Print SymlinkWarning])) ∧
    trace w' = trace w ++
      [Clock t1;
       Print (FinalSummary (length (TestSuite.widths self))
                (length (TestSuite.pipe_stages self))
                (TestSuite.total_tests self) (TestSuite.total_passed self)
                (TestSuite.total_failed self) (t1 - start_time))]
      ++ dlink ++ closing (TestSuite.log_dir self).
Proof.
  unfold finish, TestSuite._print_summary, TestSuite._generate_dashboard.
  unfold mbind, M_bind, mret, M_ret, time_time, print, write_page.
  set (s1 := TestSuite.set_total_duration (clock w - start_time) self).
  set (wl := with_fs _ (log_event _ (log_event _ w))).
  pose proof (link_latest_spec (TestSuite.log_dir s1) wl) as Hlink.
  destruct (TestSuite.link_latest (TestSuite.log_dir s1) wl) as [[] w2].
  simpl in Hlink. intros [= <- <-]. exists (clock w). simpl.
  destruct Hlink as [(Hrep & Hfs & Htr)|(Hrep & Hfs & Htr)].
  - exists []. split; [done|]. split; [by left|].
    rewrite Htr. simpl. by rewrite <- !(assoc_L (++)).
  - exists [Print SymlinkWarning]. split; [done|]. split; [by right|].
    rewrite Htr. simpl. by rewrite <- !(assoc_L (++)).
Qed.

Lemma suite_init_spec (widths pipe_stages : list Z) (n : Z) (w : world) :
  TestSuite.init widths pipe_stages n w =
  ({| TestSuite.widths := widths; TestSuite.pipe_stages := pipe_stages;
      TestSuite.total_modules := n; TestSuite.timestamp := today w;
      TestSuite.log_dir := "simulation_logs_" +:+ today w;
      TestSuite.config_results := ∅; TestSuite.total_tests := 0;
      TestSuite.total_passed := 0; TestSuite.total_failed := 0;
      TestSuite.total_duration := 0 |},
   {| fs := foldl mkdir_if_absent (fs w)
              (ancestors ("simulation_logs_" +:+ today w));
      trace := trace w ++ [Today (today w)] |}).
Proof. reflexivity. Qed.

End SuiteRun.

Section SuiteSpec.
Context `{Env}.

Lemma config_paths_in_logs (r : string) (width pipe_stages : Z) (q : string) :
  config_dirs ("simulation_logs_" +:+ r) width pipe_stages q ∨
  config_files ("simulation_logs_" +:+ r) width pipe_stages q →
  in_logs q.
Proof.
  unfold config_dirs, config_files, ModuleTest.dir_of.
  intros [Hq|[x ->]].
  - rewrite str_app_assoc in Hq. by apply ancestors_in_logs in Hq.
  - rewrite !str_app_assoc. by eexists.
Qed.

(** A whole suite: [__init__] followed by [run]. *)
Lemma suite_spec (widths pipe_stages : list Z) (n : Z) (w : world) s0 w0 s w' :
  TestSuite.init widths pipe_stages n w = (s0, w0) →
  TestSuite.run s0 w0 = (s, w') →
  let root := "simulation_logs_" +:+ today w in
  ∃ results dl dlink t0 t1 fl,
    TestSuite.widths s = widths ∧ TestSuite.pipe_stages s = pipe_stages ∧
    TestSuite.total_modules s = n ∧ TestSuite.log_dir s = root ∧
    (λ r, (res_width r, res_pipe_stages r)) <$> results = pairs widths pipe_stages ∧
    Forall (λ r, 0 ≤ res_passed r ∧ 0 ≤ res_failed r ∧
                 res_passed r + res_failed r = Z.max 0 n) results ∧
    TestSuite.config_results s = foldl store ∅ results ∧
    TestSuite.total_tests s = n * Z.of_nat (length (pairs widths pipe_stages)) ∧
    TestSuite.total_passed s = sum_list (res_passed <$> results) ∧
    TestSuite.total_failed s = sum_list (res_failed <$> results) ∧
    TestSuite.total_duration s = t1 - t0 ∧
    trace w' = trace w
      ++ [Today (today w); Clock t0; Print (SuiteBanner n widths pipe_stages)]
      ++ dl
      ++ [Clock t1;
          Print (FinalSummary (length widths) (length pipe_stages)
                   (TestSuite.total_tests s) (TestSuite.total_passed s)
                   (TestSuite.total_failed s) (t1 - t0))]
      ++ dlink ++ closing root ∧
    compiles dl = triples n (pairs widths pipe_stages) ∧
    config_totals dl = (λ r, (res_passed r, res_failed r)) <$> results ∧
    warnings dl = 0%nat ∧
    writes in_logs in_logs (fs w) fl ∧
    fl !! (root +:+ "/dashboard.html")
      = Some (File (DashboardPage (TestSuite.dashboard s))) ∧
    is_Some (fl !! root) ∧
    ((replaceable fl ∧ fs w' = <[latest := Symlink root]> fl ∧ dlink = [])
     ∨ (¬ replaceable fl ∧ fs w' = fl ∧ dlink = [Print SymlinkWarning])).
Proof.
  rewrite suite_init_spec. intros [= <- <-]. rewrite run_unfold.
  set (s0 := {| TestSuite.widths := widths |}).
  destruct (ConfigurationTest.for_each _ run_pair s0 _) as [s1 w1] eqn:Hloop.
  apply pair_loop_spec in Hloop
    as (results & dl & (Hws & Hps & Hn & _ & Hdir) & _ & Hl & Hall & Hres & Htests
        & Hpass & Hfail & Htr & Hc & Ht & Hw & Hfs).
  simpl in *. intros Hfin.
  apply finish_spec in Hfin as (t1 & dlink & -> & Hlink & Htr').
  simpl in *. rewrite Hws, Hps, Hn, Hdir in *.
  exists results, dl, dlink, (clock {| fs := foldl mkdir_if_absent (fs w)
     (ancestors ("simulation_logs_" +:+ today w));
     trace := trace w ++ [Today (today w)] |}), t1.
  eexists. split; [done|]. split; [done|]. split; [done|]. split; [done|].
  split; [done|]. split; [done|]. split; [done|].
  split; [rewrite Htests; lia|]. split; [rewrite Hpass; lia|].
  split; [rewrite Hfail; lia|]. split; [done|].
  split.
  { rewrite Htr', Htr. rewrite <- !(assoc_L (++)). simpl.
    rewrite Htests, Hpass, Hfail. simpl. done. }
  split; [done|]. split; [done|]. split; [done|].
  split; [|split; [|split; [|exact Hlink]]].
  - eapply writes_trans; [|apply writes_insert_file; by eexists].
    eapply writes_trans.
    + apply writes_mkdirs. intros d. apply ancestors_in_logs.
    + eapply writes_mono; [| |exact Hfs]; intros q (wp & _ & Hq);
        eapply config_paths_in_logs; eauto.
  - by rewrite lookup_insert_eq.
  - eapply (writes_present (λ _, True) (λ _, True));
      [apply writes_insert_file; done|].
    eapply writes_present; [exact Hfs|]. apply mkdirs_present, ancestors_self.
Qed.

End SuiteSpec.

(** ** The command line *)

Section CommandLine.
Context `{Env}.

Lemma ints_nonempty (l : list string) (zs : list Z) :
  l ≠ [] → Py.ints l = Some zs → zs ≠ [].
Proof.
  intros Hl Hz ->. apply mapM_Some_1, Forall2_nil_inv_r in Hz. done.
Qed.

Lemma parse_lists_Some (a : args) (widths pipe_stages : list Z) :
  parse_lists a = Some (widths, pipe_stages) ↔
  Py.ints (Py.split "," (arg_widths a)) = Some widths ∧
  Py.ints (Py.split "," (arg_pipe_stages a)) = Some pipe_stages.
Proof.
  unfold parse_lists.
  destruct (Py.ints (Py.split "," (arg_widths a))) as [ws|]; simpl;
    [|split; [done|intros [[=] _]]].
  destruct (Py.ints (Py.split "," (arg_pipe_stages a))) as [ps|]; simpl;
    [|split; [done|intros [_ [=]]]].
  split; [intros [= <- <-]; done|intros [[= <-] [= <-]]; done].
Qed.


(** [main] on a command line whose lists parse and whose module count is
    at least 1. *)
Lemma main_accepts (a : args) (widths pipe_stages : list Z) (w : world) :
  parse_lists a = Some (widths, pipe_stages) → 1 ≤ arg_modules a →
  main a w = run_suite widths pipe_stages (arg_modules a) w ∧
  widths ≠ [] ∧ pipe_stages ≠ [].
Proof.
  intros Hparse Hn.
  pose proof Hparse as [Hws Hps]%parse_lists_Some.
  apply ints_nonempty in Hws; [|apply split_nonempty].
  apply ints_nonempty in Hps; [|apply split_nonempty].
  split; [|done]. unfold main. rewrite Hparse.
  repeat case_decide; try done; lia.
Qed.




End CommandLine.

(** ** Order and totals *)

Lemma triples_row (n wd : Z) (pipe_stages : list Z) :
  triples n (pair wd <$> pipe_stages)
  = (pipe_stages ← pipe_stages; module_id ← Py.range 1 (n + 1);
     [(wd, pipe_stages, module_id)]).
Proof.
  induction pipe_stages as [|p ps IHp]; [done|].
  rewrite fmap_cons.
  change (pair wd p :: (pair wd <$> ps)) with ([(wd, p)] ++ (pair wd <$> ps)).
  rewrite triples_app, IHp.
  change (p :: ps) with ([p] ++ ps). rewrite bind_app. f_equal.
Qed.

(** The launches of a suite, as the three nested loops enumerate them. *)
Lemma triples_pairs (n : Z) (widths pipe_stages : list Z) :
  triples n (pairs widths pipe_stages)
  = (width ← widths; pipe_stages ← pipe_stages;
     module_id ← Py.range 1 (n + 1); [(width, pipe_stages, module_id)]).
Proof.
  induction widths as [|wd ws IH]; [done|].
  rewrite pairs_cons, triples_app, IH, triples_row. done.
Qed.

Lemma closing_silent (root : string) :
  compiles (closing root) = [] ∧ simulations (closing root) = [] ∧
  config_totals (closing root) = [] ∧ warnings (closing root) = 0%nat.
Proof. done. Qed.

Section SuiteTotals.
Context `{Env}.

(** The launches and the summaries of a whole suite. *)
Lemma suite_events (widths pipe_stages : list Z) (n : Z) (w : world) s0 w0 s w' :
  TestSuite.init widths pipe_stages n w = (s0, w0) →
  TestSuite.run s0 w0 = (s, w') →
  compiles (since w w') = triples n (pairs widths pipe_stages) ∧
  sum_list ((λ pf, pf.1 + pf.2) <$> config_totals (since w w'))
    = Z.max 0 n * Z.of_nat (length (pairs widths pipe_stages)) ∧
  TestSuite.total_passed s = sum_list (fst <$> config_totals (since w w')) ∧
  TestSuite.total_failed s = sum_list (snd <$> config_totals (since w w')) ∧
  length (config_totals (since w w')) = length (pairs widths pipe_stages).
Proof.
  intros Hinit Hrun.
  destruct (suite_spec _ _ _ _ _ _ _ _ Hinit Hrun)
    as (results & dl & dlink & t0 & t1 & fl & _ & _ & _ & _ & Hl & Hall & _ & _
        & Hpass & Hfail & _ & Htr & Hc & Ht & _ & _ & _ & _ & Hlink).
  rewrite (since_app _ _ _ Htr).
  assert (Hdlink : compiles dlink = [] ∧ config_totals dlink = []).
  { destruct Hlink as [(_ & _ & ->)|(_ & _ & ->)]; done. }
  destruct Hdlink as [Hc2 Ht2].
  rewrite !compiles_app, !config_totals_app, Hc, Ht, Hc2, Ht2. simpl.
  rewrite !app_nil_r, <- !list_fmap_compose, length_fmap.
  split; [done|]. rewrite <- Hl, length_fmap. split; [|done].
  clear -Hall. induction Hall as [|r rs (_ & _ & Hr) _ IH]; [simpl; lia|].
  rewrite fmap_cons, sum_list_cons, IH. simpl. rewrite Hr. lia.
Qed.

End SuiteTotals.

(** ** The dictionary of results *)

Lemma elem_of_pairs (width p : Z) (widths pipe_stages : list Z) :
  (width, p) ∈ pairs widths pipe_stages ↔ width ∈ widths ∧ p ∈ pipe_stages.
Proof.
  unfold pairs. rewrite list_elem_of_bind. split.
  - intros (x & (y & Hy & Hin)%list_elem_of_bind & Hx).
    apply list_elem_of_singleton in Hy. by simplify_eq.
  - intros [Hw Hp]. exists width. split; [|done].
    apply list_elem_of_bind. exists p. split; [|done]. by apply list_elem_of_singleton.
Qed.

Lemma pairs_NoDup (widths pipe_stages : list Z) :
  NoDup widths → NoDup pipe_stages → NoDup (pairs widths pipe_stages).
Proof.
  intros Hw Hp. unfold pairs. apply NoDup_bind; [| |done].
  - intros x1 x2 [a b] _ _ (y1 & Hy1 & _)%list_elem_of_bind (y2 & Hy2 & _)%list_elem_of_bind.
    apply list_elem_of_singleton in Hy1, Hy2. by simplify_eq.
  - intros x _. apply NoDup_bind; [| |done].
    + intros y1 y2 [a b] _ _ Hy1%list_elem_of_singleton Hy2%list_elem_of_singleton.
      by simplify_eq.
    + intros y _. apply NoDup_singleton.
Qed.

Lemma sum_over_empty (f : config_result → Z) : sum_over f ∅ = 0.
Proof. unfold sum_over. by rewrite map_fold_empty. Qed.

Lemma sum_over_store (f : config_result → Z) (m : gmap string config_result) r :
  m !! key_of_result r = None → sum_over f (store m r) = f r + sum_over f m.
Proof.
  intros Hfresh. unfold sum_over, store.
  rewrite map_fold_insert_L; [done| |done]. intros. lia.
Qed.

Lemma store_lookup_ne (m : gmap string config_result) r (k : string) :
  k ≠ key_of_result r → store m r !! k = m !! k.
Proof. intros Hne. unfold store. by rewrite lookup_insert_ne. Qed.

Lemma store_lookup_eq (m : gmap string config_result) r :
  store m r !! key_of_result r = Some r.
Proof. unfold store. by rewrite lookup_insert_eq. Qed.


Lemma foldl_store_present (rs : list config_result)
    (m : gmap string config_result) (k : string) :
  is_Some (m !! k) ∨ (∃ r, r ∈ rs ∧ key_of_result r = k) →
  is_Some (foldl store m rs !! k).
Proof.
  revert m. induction rs as [|r rs IH]; intros m Hk; simpl.
  - destruct Hk as [?|(r & Hr & _)]; [done|]. by apply elem_of_nil in Hr.
  - apply IH. destruct (decide (key_of_result r = k)) as [<-|Hne].
    + left. rewrite store_lookup_eq. eauto.
    + destruct Hk as [Hm|(r' & Hr' & Hk')].
      * left. by rewrite store_lookup_ne.
      * apply elem_of_cons in Hr' as [->|Hr']; [done|]. right. eauto.
Qed.

(** With pairwise distinct keys, the dictionary holds every result. *)
Lemma foldl_store_fresh (f : config_result → Z) (rs : list config_result)
    (m : gmap string config_result) :
  NoDup (key_of_result <$> rs) →
  (∀ r, r ∈ rs → m !! key_of_result r = None) →
  sum_over f (foldl store m rs) = sum_over f m + sum_list (f <$> rs) ∧
  size (foldl store m rs) = (size m + length rs)%nat.
Proof.
  revert m. induction rs as [|r rs IH]; intros m Hnd Hfresh.
  { simpl. unfold sum_list. simpl. split; lia. }
  rewrite fmap_cons in Hnd. apply NoDup_cons in Hnd as [Hr Hnd].
  change (foldl store m (r :: rs)) with (foldl store (store m r) rs).
  destruct (IH (store m r) Hnd) as [Hsum Hsize].
  - intros r' Hr'. rewrite store_lookup_ne.
    + apply Hfresh. by right.
    + intros Heq. apply Hr. rewrite <- Heq. by apply list_elem_of_fmap_2.
  - rewrite Hsum, Hsize, sum_over_store by (apply Hfresh; by left).
    rewrite fmap_cons, sum_list_cons. unfold store.
    rewrite map_size_insert_None by (apply Hfresh; by left).
    rewrite length_cons. lia.
Qed.

Section Totals.
Context `{Env}.

Lemma results_keys_NoDup (results : list config_result) (l : list (Z * Z)) :
  (λ r, (res_width r, res_pipe_stages r)) <$> results = l →
  NoDup l → NoDup (key_of_result <$> results).
Proof.
  intros <- Hnd.
  replace (key_of_result <$> results)
    with ((λ wp : Z * Z, ModuleTest.key_of wp.1 wp.2)
          <$> ((λ r, (res_width r, res_pipe_stages r)) <$> results))
    by (by rewrite <- list_fmap_compose).
  apply NoDup_fmap_2_strong; [|done].
  intros [w1 p1] [w2 p2] _ _ Heq. simpl in Heq.
  by apply key_of_inj in Heq as [-> ->].
Qed.


End Totals.

(** ** The files of one configuration *)


Section ConfigurationFiles.
Context `{Env}.




End ConfigurationFiles.

(** ** The [latest_results] link *)

Lemma writes_not_link (D F : string → Prop) f f' q :
  writes D F f f' → not_link (f !! q) → not_link (f' !! q).
Proof.
  intros Hw Hq t.
  destruct (Hw q) as [->|[(_ & _ & ->)|(_ & c & ->)]]; [apply Hq|done..].
Qed.

Lemma replaceable_writes f f' :
  writes in_logs in_logs f f' → replaceable f → replaceable f'.
Proof.
  intros Hw Hrep.
  assert (Heq : f' !! latest = f !! latest)
    by (eapply writes_outside; [exact Hw|apply latest_not_in_logs..]).
  unfold replaceable. rewrite Heq.
  destruct Hrep as [?|[Hex ?]]; [by left|right]. split; [|done].
  unfold path_exists in *. by eapply exists_follow_writes.
Qed.

(** A link to something present that is not itself a link can be
    replaced. *)
Lemma replaceable_link f (target : string) :
  f !! latest = Some (Symlink target) → is_Some (f !! target) →
  not_link (f !! target) → replaceable f.
Proof.
  intros Hl [x Hx] Hnl. right. split; [|by rewrite Hl].
  unfold path_exists. simpl. rewrite Hl. simpl. rewrite Hx.
  destruct x as [c| |t]; [done..|]. by destruct (Hnl t).
Qed.

Section Latest.
Context `{Env}.

(** An accepted command line, as far as the link is concerned. *)
Lemma suite_link_spec (widths pipe_stages : list Z) (n : Z) (w : world) :
  let r := run_suite widths pipe_stages n w in
  let root := "simulation_logs_" +:+ today w in
  r.1 = 0 ∧
  ∃ fl, writes in_logs in_logs (fs w) fl ∧ is_Some (fl !! root) ∧
    ((replaceable fl ∧ fs r.2 = <[latest := Symlink root]> fl ∧
      warnings (since w r.2) = 0%nat)
     ∨ (¬ replaceable fl ∧ fs r.2 = fl ∧ warnings (since w r.2) = 1%nat)).
Proof.
  unfold run_suite, mbind, M_bind, mret, M_ret.
  destruct (TestSuite.init _ _ _ w) as [s0 w0] eqn:Hinit.
  destruct (TestSuite.run s0 w0) as [s w'] eqn:Hrun. simpl.
  split; [done|].
  destruct (suite_spec _ _ _ _ _ _ _ _ Hinit Hrun)
    as (results & dl & dlink & t0 & t1 & fl & _ & _ & _ & _ & _ & _ & _ & _ & _ & _
        & _ & Htr & _ & _ & Hw & Hfs & _ & Hroot & Hlink).
  exists fl. split; [done|]. split; [done|].
  rewrite (since_app _ _ _ Htr), !warnings_app, Hw.
  destruct Hlink as [(Hrep & Hfs' & ->)|(Hrep & Hfs' & ->)]; [left|right]; done.
Qed.

End Latest.

(** ** The logs of one configuration *)

Lemma module_output_app (width p m : Z) (l1 l2 : list event) :
  module_output width p m (l1 ++ l2)
  = module_output width p m l1 +:+ module_output width p m l2.
Proof.
  induction l1 as [|e l1 IH]; [done|].
  change ((e :: l1) ++ l2) with (e :: (l1 ++ l2)).
  unfold module_output in *. simpl. rewrite IH.
  destruct e as [| |[w' p' m'|w' p' m'] rc out|]; try done;
    case_decide; by rewrite ?str_app_assoc.
Qed.

Lemma since_trans (w w1 w' : world) (d1 d2 : list event) :
  trace w1 = trace w ++ d1 → trace w' = trace w1 ++ d2 →
  since w w' = since w w1 ++ since w1 w'.
Proof.
  intros H1 H2. rewrite (since_app _ _ _ H1), (since_app _ _ _ H2).
  apply since_app. by rewrite H2, H1, <- (assoc_L (++)).
Qed.

Lemma log_name_inj (m m' : Z) : ModuleTest.log_name m = ModuleTest.log_name m' → m = m'.
Proof.
  unfold ModuleTest.log_name. intros Heq.
  apply (inj (String.app "module_")) in Heq.
  change (".log") with (String "."%char "log") in Heq.
  apply (app_sep_inj sign_or_digit) in Heq as [Heq _];
    [|done|apply pretty_Z_chars..].
  by apply (inj pretty).
Qed.

Lemma range_NoDup (lo hi : Z) : NoDup (Py.range lo hi).
Proof.
  unfold Py.range. apply NoDup_fmap_2_strong; [|apply NoDup_seq].
  intros i j _ _ ?. lia.
Qed.

Section ConfigurationLogs.
Context `{Env}.

(** One module of a configuration: its log holds what its processes
    wrote, and no other file that exists is touched. *)
Lemma run_module_output (self : ConfigurationTest.t) (module_id : Z) (w : world)
    self' w' :
  ConfigurationTest.run_module self module_id w = (self', w') →
  let width := ConfigurationTest.width self in
  let p := ConfigurationTest.pipe_stages self in
  let log m := ModuleTest.dir_of (ConfigurationTest.log_dir self) width p
               +:+ "/" +:+ ModuleTest.log_name m in
  fs w' !! log module_id
    = Some (File (Text (module_output width p module_id (since w w')))) ∧
  (∀ m, m ≠ module_id → module_output width p m (since w w') = "") ∧
  (∀ q, q ≠ log module_id → is_Some (fs w !! q) → fs w' !! q = fs w !! q).
Proof.
  unfold ConfigurationTest.run_module. unfold mbind at 1. unfold M_bind at 1.
  rewrite module_init_spec.
  set (test0 := {| ModuleTest.module_id := module_id |}).
  set (w0 := with_fs _ w).
  unfold mbind, M_bind.
  destruct (ModuleTest.run_test test0 w0) as [[ok test] w1] eqn:Hrun.
  apply run_test_spec in Hrun as (t0 & rc & out & t1 & _ & _ & Hcases).
  assert (Hfacts :
    fs w1 !! ModuleTest.log_file test0
      = Some (File (Text (module_output (ConfigurationTest.width self)
                            (ConfigurationTest.pipe_stages self) module_id
                            (since w w1)))) ∧
    (∀ m, m ≠ module_id →
       module_output (ConfigurationTest.width self)
         (ConfigurationTest.pipe_stages self) m (since w w1) = "") ∧
    ∃ c, fs w1 = <[ModuleTest.log_file test0 := File c]> (fs w0)).
  { destruct Hcases as [(_ & _ & Htr & Hfs)|(_ & rc2 & out2 & _ & Htr & Hfs)];
      rewrite (since_app w w1 _ Htr), Hfs, lookup_insert_eq;
      unfold module_output; simpl.
    - rewrite decide_True by done. rewrite str_app_nil_r.
      split; [done|]. split; [|eauto].
      intros m Hm. rewrite decide_False; [done|]. intros [= ?]. done.
    - rewrite !decide_True by done. rewrite str_app_nil_r.
      split; [by destruct (Py.contains _ _)|]. split; [|eauto].
      intros m Hm. rewrite !decide_False by (intros [= ?]; done).
      by destruct (Py.contains _ _). }
  destruct Hfacts as (Hlog & Hothers & c & Hfs).
  assert (Hframe : ∀ q, q ≠ ModuleTest.log_file test0 → is_Some (fs w !! q) →
            fs w1 !! q = fs w !! q).
  { intros q Hq Hsome. rewrite Hfs, lookup_insert_ne by done.
    eapply (writes_keeps (λ _, True) (λ _, False)); [|done|tauto].
    apply writes_mkdirs. done. }
  destruct ok; unfold mret, M_ret; intros [= <- <-]; done.
Qed.


Lemma module_loop_output (ids : list Z) (self : ConfigurationTest.t) (w : world)
    self' w' :
  NoDup ids →
  ConfigurationTest.for_each ids ConfigurationTest.run_module self w = (self', w') →
  let width := ConfigurationTest.width self in
  let p := ConfigurationTest.pipe_stages self in
  let log m := ModuleTest.dir_of (ConfigurationTest.log_dir self) width p
               +:+ "/" +:+ ModuleTest.log_name m in
  (∀ m, m ∈ ids →
     fs w' !! log m = Some (File (Text (module_output width p m (since w w'))))) ∧
  (∀ m, m ∉ ids → module_output width p m (since w w') = "") ∧
  (∀ q, (∀ m, m ∈ ids → q ≠ log m) → is_Some (fs w !! q) → fs w' !! q = fs w !! q).
Proof.
  intros Hnd. revert self w. induction Hnd as [|m0 ids Hm0 Hnd IH]; intros self w; simpl.
  - unfold mret, M_ret. intros [= <- <-].
    assert (Hs : since w w = []) by (apply since_app; by rewrite app_nil_r).
    rewrite Hs. split; [intros m Hm; by apply elem_of_nil in Hm|]. done.
  - unfold mbind, M_bind.
    destruct (ConfigurationTest.run_module self m0 w) as [self1 w1] eqn:Hhd.
    intros Hrest.
    destruct (run_module_output _ _ _ _ _ Hhd) as (Hlog0 & Hsilent0 & Hframe0).
    apply run_module_spec in Hhd as (test & d1 & -> & _ & _ & Htr1 & _).
    pose proof (module_loop_spec _ _ _ _ _ Hrest)
      as (new & d2 & _ & _ & _ & Htr2 & _).
    destruct (IH _ _ Hrest) as (Hlogs & Hsilent & Hframe). simpl in *.
    rewrite (since_trans w w1 w' d1 d2 Htr1 Htr2).
    assert (Hlogne : ∀ a b, a ≠ b →
      ModuleTest.dir_of (ConfigurationTest.log_dir self) (ConfigurationTest.width self)
        (ConfigurationTest.pipe_stages self) +:+ "/" +:+ ModuleTest.log_name a
      ≠ ModuleTest.dir_of (ConfigurationTest.log_dir self) (ConfigurationTest.width self)
          (ConfigurationTest.pipe_stages self) +:+ "/" +:+ ModuleTest.log_name b).
    { intros a b Hab Heq. apply dir_of_file_inj in Heq as (_ & _ & Heq).
      by apply log_name_inj in Heq. }
    split; [|split].
    + intros m [->|Hm]%elem_of_cons; rewrite module_output_app.
      * rewrite (Hsilent m0 Hm0), str_app_nil_r, <- Hlog0.
        apply Hframe; [|by rewrite Hlog0].
        intros m Hm. apply Hlogne. intros ->. done.
      * rewrite Hsilent0 by (intros ->; done). by apply Hlogs.
    + intros m Hm. apply not_elem_of_cons in Hm as [Hne Hm].
      by rewrite module_output_app, Hsilent0, Hsilent.
    + intros q Hq Hsome.
      assert (Hq0 : fs w1 !! q = fs w !! q)
        by (apply Hframe0; [apply Hq; by left|done]).
      rewrite <- Hq0. apply Hframe; [|by rewrite Hq0].
      intros m Hm. apply Hq. by right.
Qed.

Lemma module_output_rows (width p m : Z) (tests : list ModuleTest.t) :
  module_output width p m
    ((λ test, Print (ConfigSummaryRow (ModuleTest.module_id test)
        (ModuleTest.status test) (ModuleTest.duration test))) <$> tests) = "".
Proof. induction tests as [|t tests IH]; [done|]. exact IH. Qed.

(** One configuration of the suite: afterwards the log of every module
    holds exactly what the processes of that module wrote in this run. *)
Lemma run_config_output (width : Z) (self : TestSuite.t) (pipe_stages : Z) (w : world)
    self' w' :
  TestSuite.run_config width self pipe_stages w = (self', w') →
  ∀ m, m ∈ Py.range 1 (TestSuite.total_modules self + 1) →
    fs w' !! (ModuleTest.dir_of (TestSuite.log_dir self) width pipe_stages
              +:+ "/" +:+ ModuleTest.log_name m)
    = Some (File (Text (module_output width pipe_stages m (since w w')))).
Proof.
  unfold TestSuite.run_config. unfold mbind, M_bind.
  unfold ConfigurationTest.init. unfold_M.
  set (c0 := {| ConfigurationTest.width := width |}).
  set (w0 := {| fs := foldl mkdir_if_absent _ _ |}).
  destruct (ConfigurationTest.run c0 w0) as [[[[passed failed] duration] c] w1] eqn:Hrun.
  intros [= <- <-] m Hm. revert Hrun.
  unfold ConfigurationTest.run, ConfigurationTest._print_summary,
    ConfigurationTest._generate_html_report. unfold_M.
  match goal with
  | |- context [ConfigurationTest.for_each ?l ?b ?s ?ws] => set (ws0 := ws)
  end.
  destruct (ConfigurationTest.for_each _ _ _ ws0) as [c1 w2] eqn:Hloop.
  rewrite print_rows_spec. simpl. intros [= <- <- <- <- <-]. simpl.
  destruct (module_loop_output _ _ _ _ _ (range_NoDup _ _) Hloop) as (Hlogs & _).
  pose proof (module_loop_spec _ _ _ _ _ Hloop) as (new & d & -> & _ & _ & Htr & _).
  specialize (Hlogs m Hm). rewrite (since_app _ _ _ Htr) in Hlogs.
  rewrite lookup_insert_ne.
  - etrans; [exact Hlogs|]. do 3 f_equal. symmetry.
    erewrite since_app.
    2:{ simpl. rewrite Htr. subst ws0. simpl. rewrite <- !(assoc_L (++)). reflexivity. }
    simpl. rewrite module_output_app.
    match goal with
    | |- _ +:+ module_output ?a ?b ?c (_ :: _ :: ?l) = _ =>
        change (module_output a b c (_ :: _ :: l)) with (module_output a b c l)
    end.
    rewrite module_output_app, module_output_rows. simpl.
    by rewrite str_app_nil_r.
  - intros Heq. apply dir_of_file_inj in Heq as (_ & _ & Heq). discriminate Heq.
Qed.

End ConfigurationLogs.

(** * The claims *)

(** ** C1: the heat map *)

(** C1, as the code has it.  Take a cell of the dashboard's heat map, at
    row [i] (a width) and column [j] (a pipeline depth), whose
    configuration is in [config_results] with non-negative counts and
    [100 * passed] below 2^53 (any run that can finish is far below it).
    The cell shows a pass rate, which is [floor (100 * passed / (passed +
    failed))] when [passed + failed] is positive, so 0 for 0 passed and 10
    failed and 100 for 10 passed and 0 failed; when [passed + failed] is
    zero the division is skipped and the cell shows the rate 0, not the
    "N/A" sentinel. *)
Theorem C1_heat_cell_pass_rate (self : TestSuite.t) (i j : nat)
    (width pipe_stages : Z) (result : config_result) :
  TestSuite.widths self !! i = Some width →
  TestSuite.pipe_stages self !! j = Some pipe_stages →
  TestSuite.config_results self !! ModuleTest.key_of width pipe_stages = Some result →
  0 ≤ res_passed result → 0 ≤ res_failed result →
  res_passed result * 100 < 2 ^ 53 →
  ∃ cells r g b rate,
    dp_heat (TestSuite.dashboard self) !! i = Some (width, cells) ∧
    cells !! j = Some (Rate r g b rate) ∧
    (0 < res_passed result + res_failed result →
     rate = 100 * res_passed result / (res_passed result + res_failed result)) ∧
    (res_passed result + res_failed result = 0 → rate = 0) ∧
    (res_passed result = 0 → res_failed result = 10 → rate = 0) ∧
    (res_passed result = 10 → res_failed result = 0 → rate = 100).
Proof.
  intros Hi Hj Hres Hp Hf Hbound.
  exists (TestSuite.heat_cell_of (TestSuite.config_results self) width
            <$> TestSuite.pipe_stages self).
  unfold TestSuite.dashboard. simpl.
  rewrite list_lookup_fmap, Hi. simpl.
  rewrite list_lookup_fmap, Hj. simpl.
  unfold TestSuite.heat_cell_of. rewrite Hres.
  set (passed := res_passed result) in *. set (failed := res_failed result) in *.
  do 4 eexists. split; [reflexivity|]. split; [reflexivity|].
  destruct (Z.ltb_spec 0 (passed + failed)) as [Hpos|Hzero].
  - rewrite int_truediv_floor by lia.
    replace (passed * 100) with (100 * passed) by lia.
    split; [done|]. split; [lia|].
    split; [intros -> ->; reflexivity|intros -> ->; reflexivity].
  - split; [lia|]. split; [done|]. split; intros; lia.
Qed.

Lemma C1_heat_cell_pass_rate_witness :
  ∃ cells r g b rate,
    dp_heat (TestSuite.dashboard heat_sample_suite) !! 0%nat = Some (8, cells) ∧
    cells !! 0%nat = Some (Rate r g b rate) ∧
    (0 < 7 + 3 → rate = 100 * 7 / (7 + 3)) ∧
    (7 + 3 = 0 → rate = 0) ∧
    (7 = 0 → 3 = 10 → rate = 0) ∧
    (7 = 10 → 3 = 0 → rate = 100).
Proof.
  apply (C1_heat_cell_pass_rate heat_sample_suite 0 0 8 2 heat_sample_result).
  - reflexivity.
  - reflexivity.
  - vm_compute. reflexivity.
  - simpl. lia.
  - simpl. lia.
  - simpl. lia.
Defined.

(** C1 fails as stated: a suite built with a module count of zero runs its
    configuration over no module, records 0 passed and 0 failed for it,
    and the heat-map cell of the dashboard it writes reads the rate 0
    where the claim has the "not applicable" sentinel. *)
Lemma C1_counterexample :
  let E := stub_env 0 0 "TEST PASSED" in
  let '(suite, w) := TestSuite.init [8] [2] 0 fresh in
  let '(suite, w) := TestSuite.run suite w in
  (res_passed <$> TestSuite.config_results suite !! ModuleTest.key_of 8 2) = Some 0 ∧
  (res_failed <$> TestSuite.config_results suite !! ModuleTest.key_of 8 2) = Some 0 ∧
  fs w !! (TestSuite.log_dir suite +:+ "/dashboard.html")
    = Some (File (DashboardPage (TestSuite.dashboard suite))) ∧
  dp_heat (TestSuite.dashboard suite) = [(8, [Rate 255 55 50 0])] ∧
  dp_heat (TestSuite.dashboard suite) ≠ [(8, [NotApplicable])].
Proof. vm_compute. repeat split; discriminate. Qed.

(** ** C4: the steps of a module run *)


(** ** C3: the marker decides *)



(** A simulator that exits 0 and never writes the marker: FAILED. *)
Example silent_simulator_fails :
  let E := stub_env 0 0 "done" in
  let r := ModuleTest.run_test sample_test fresh in
  ModuleTest.status r.1.2 = FAILED ∧ r.1.1 = false ∧
  simulations (since fresh r.2) = [(8, 2, 1)].
Proof. vm_compute. done. Qed.

(** ** C5: every module of a configuration is run and counted *)

Lemma range_from_1 (n : Z) : Py.range 1 (n + 1) = Z.of_nat <$> seq 1 (Z.to_nat n).
Proof.
  unfold Py.range. replace (n + 1 - 1) with n by lia.
  rewrite <- fmap_S_seq, <- list_fmap_compose.
  apply list_fmap_ext. intros _ i _. simpl. lia.
Qed.

(** C5.  A configuration built for [n >= 1] modules runs the modules
    1, ..., n, each exactly once and whatever the earlier ones did: the
    compiler is launched for every id in turn and [module_tests] holds the
    n tests.  Each test ends PASSED, FAILED or COMPILE FAILED; [passed]
    counts the PASSED ones, [failed] counts the FAILED and the COMPILE
    FAILED ones, and [passed + failed = n]. *)
Theorem C5_all_modules_counted `{Env} (width pipe_stages n : Z) (log_dir : string)
    (w : world) c0 w0 passed failed duration c w' :
  1 ≤ n →
  ConfigurationTest.init width pipe_stages n log_dir w = (c0, w0) →
  ConfigurationTest.run c0 w0 = (passed, failed, duration, c, w') →
  ModuleTest.module_id <$> ConfigurationTest.module_tests c
    = Z.of_nat <$> seq 1 (Z.to_nat n) ∧
  Z.of_nat (length (ConfigurationTest.module_tests c)) = n ∧
  compiles (since w w')
    = (λ m, (width, pipe_stages, m)) <$> (Z.of_nat <$> seq 1 (Z.to_nat n)) ∧
  Forall (λ t, ModuleTest.status t = PASSED ∨ ModuleTest.status t = FAILED ∨
               ModuleTest.status t = COMPILE_FAILED)
    (ConfigurationTest.module_tests c) ∧
  passed = count_status [PASSED] (ConfigurationTest.module_tests c) ∧
  failed = count_status [FAILED; COMPILE_FAILED] (ConfigurationTest.module_tests c) ∧
  ConfigurationTest.passed c = passed ∧ ConfigurationTest.failed c = failed ∧
  passed + failed = n.
Proof.
  intros Hn Hinit Hrun.
  destruct (config_run_spec _ _ _ _ _ _ _ _ _ _ _ _ Hinit Hrun)
    as (delta & Hp' & Hf' & _ & Hp & Hf & Hids & Hsts & Htr & Hc & _).
  rewrite range_from_1 in Hids, Hc.
  assert (Hlen : Z.of_nat (length (ConfigurationTest.module_tests c)) = n).
  { rewrite <- (length_fmap ModuleTest.module_id), Hids, length_fmap, length_seq. lia. }
  rewrite (since_app _ _ _ Htr).
  split; [done|]. split; [done|]. split; [done|].
  split.
  { eapply Forall_impl; [exact Hsts|]. intros t Ht. unfold ran in Ht.
    rewrite !elem_of_cons, elem_of_nil in Ht. tauto. }
  split; [done|]. split; [done|]. split; [done|]. split; [done|].
  rewrite Hp, Hf, count_status_total by done. done.
Qed.

Lemma C5_all_modules_counted_witness :
  let E := mixed_env in
  let i := ConfigurationTest.init 8 2 3 "simulation_logs_t" fresh in
  let r := ConfigurationTest.run i.1 i.2 in
  let c := r.1.2 in
  ModuleTest.module_id <$> ConfigurationTest.module_tests c
    = Z.of_nat <$> seq 1 (Z.to_nat 3) ∧
  Z.of_nat (length (ConfigurationTest.module_tests c)) = 3 ∧
  compiles (since fresh r.2)
    = (λ m, (8, 2, m)) <$> (Z.of_nat <$> seq 1 (Z.to_nat 3)) ∧
  Forall (λ t, ModuleTest.status t = PASSED ∨ ModuleTest.status t = FAILED ∨
               ModuleTest.status t = COMPILE_FAILED)
    (ConfigurationTest.module_tests c) ∧
  r.1.1.1.1 = count_status [PASSED] (ConfigurationTest.module_tests c) ∧
  r.1.1.1.2 = count_status [FAILED; COMPILE_FAILED] (ConfigurationTest.module_tests c) ∧
  ConfigurationTest.passed c = r.1.1.1.1 ∧ ConfigurationTest.failed c = r.1.1.1.2 ∧
  r.1.1.1.1 + r.1.1.1.2 = 3.
Proof.
  intros E i r c.
  assert (Hn : 1 ≤ 3) by lia.
  assert (Hinit : ConfigurationTest.init 8 2 3 "simulation_logs_t" fresh = (i.1, i.2))
    by (vm_compute; reflexivity).
  assert (Hrun : ConfigurationTest.run i.1 i.2
                 = (r.1.1.1.1, r.1.1.1.2, r.1.1.2, c, r.2))
    by (vm_compute; reflexivity).
  exact (C5_all_modules_counted 8 2 3 "simulation_logs_t" fresh i.1 i.2
           r.1.1.1.1 r.1.1.1.2 r.1.1.2 c r.2 Hn Hinit Hrun).
Defined.

(** Under [mixed_env] the three modules end PASSED, COMPILE FAILED and
    FAILED: one passed, two failed. *)
Example mixed_configuration :
  let E := mixed_env in
  let i := ConfigurationTest.init 8 2 3 "simulation_logs_t" fresh in
  let r := ConfigurationTest.run i.1 i.2 in
  ModuleTest.status <$> ConfigurationTest.module_tests r.1.2
    = [PASSED; COMPILE_FAILED; FAILED] ∧
  r.1.1.1.1 = 1 ∧ r.1.1.1.2 = 2 ∧
  simulations (since fresh r.2) = [(8, 2, 1); (8, 2, 3)].
Proof. vm_compute. done. Qed.

(** ** C7: invalid command lines *)



(** ** C10: what validation accepts *)


(** Zero and negative values go through validation and are run. *)
Example zero_and_negative_values_run :
  let E := stub_env 0 0 "TEST PASSED" in
  let a := {| arg_widths := "0,-8"; arg_pipe_stages := "-1"; arg_modules := 1 |} in
  parse_lists a = Some ([0; -8], [-1]) ∧
  (main a fresh).1 = 0 ∧
  compiles (since fresh (main a fresh).2) = [(0, -1, 1); (-8, -1, 1)].
Proof. vm_compute. done. Qed.

(** ** C8: the order of execution *)

(** C8.  On a valid command line the parsed lists keep the order and the
    repetitions of the entries given, and the compiler launches of the
    whole run are, in this order: for each width of the list, for each
    pipeline depth of the list, the module ids 1, 2, ..., module count.
    The launches are totally ordered: the model runs one child process at
    a time, as the source does. *)
Theorem C8_execution_order `{Env} (a : args) (widths pipe_stages : list Z) (w : world) :
  parse_lists a = Some (widths, pipe_stages) → 1 ≤ arg_modules a →
  Forall2 (λ e z, Py.int e = Some z) (Py.split "," (arg_widths a)) widths ∧
  Forall2 (λ e z, Py.int e = Some z) (Py.split "," (arg_pipe_stages a)) pipe_stages ∧
  Py.range 1 (arg_modules a + 1) = Z.of_nat <$> seq 1 (Z.to_nat (arg_modules a)) ∧
  compiles (since w (main a w).2)
  = (width ← widths; pipe_stages ← pipe_stages;
     module_id ← Py.range 1 (arg_modules a + 1);
     [(width, pipe_stages, module_id)]).
Proof.
  intros Hparse Hn.
  pose proof Hparse as [Hws Hps]%parse_lists_Some.
  split; [by apply mapM_Some_1|]. split; [by apply mapM_Some_1|].
  split; [apply range_from_1|].
  destruct (main_accepts a widths pipe_stages w Hparse Hn) as [-> _].
  unfold run_suite, mbind, M_bind, mret, M_ret.
  destruct (TestSuite.init _ _ _ w) as [s0 w0] eqn:Hinit.
  destruct (TestSuite.run s0 w0) as [s w'] eqn:Hrun. simpl.
  destruct (suite_events _ _ _ _ _ _ _ _ Hinit Hrun) as [-> _].
  apply triples_pairs.
Qed.

Lemma C8_execution_order_witness :
  let E := stub_env 0 0 "TEST PASSED" in
  Forall2 (λ e z, Py.int e = Some z) (Py.split "," (arg_widths small_args)) [8; 16; 8] ∧
  Forall2 (λ e z, Py.int e = Some z) (Py.split "," (arg_pipe_stages small_args)) [3; 2] ∧
  Py.range 1 (arg_modules small_args + 1)
    = Z.of_nat <$> seq 1 (Z.to_nat (arg_modules small_args)) ∧
  compiles (since fresh (main small_args fresh).2)
  = (width ← [8; 16; 8]; pipe_stages ← [3; 2];
     module_id ← Py.range 1 (arg_modules small_args + 1);
     [(width, pipe_stages, module_id)]).
Proof.
  intros E.
  assert (Hparse : parse_lists small_args = Some ([8; 16; 8], [3; 2]))
    by (vm_compute; reflexivity).
  assert (Hn : 1 ≤ arg_modules small_args) by (simpl; lia).
  exact (C8_execution_order small_args [8; 16; 8] [3; 2] fresh Hparse Hn).
Defined.

(** The launches of that run, spelled out. *)
Example small_run_order :
  let E := stub_env 0 0 "TEST PASSED" in
  compiles (since fresh (main small_args fresh).2)
  = [(8, 3, 1); (8, 3, 2); (8, 2, 1); (8, 2, 2);
     (16, 3, 1); (16, 3, 2); (16, 2, 1); (16, 2, 2);
     (8, 3, 1); (8, 3, 2); (8, 2, 1); (8, 2, 2)].
Proof. vm_compute. reflexivity. Qed.

(** ** C2: the totals of a suite *)

(** C2, as the code has it.  After a suite run over [n >= 0] modules,
    [total_tests] is [n * |widths| * |pipe_stages|], and [total_tests],
    [total_passed] and [total_failed] are the sums of [passed + failed],
    [passed] and [failed] over the configurations that were run, one for
    every pair of the nested loops, as their summaries report them.  Every
    requested pair has an entry in [config_results].  When no width and no
    pipeline depth is repeated, the dictionary has exactly one entry for
    each configuration run, and the three totals are the sums over the
    entries of the dictionary. *)
Theorem C2_totals_are_sums `{Env} (widths pipe_stages : list Z) (n : Z) (w : world)
    s0 w0 s w' :
  0 ≤ n →
  TestSuite.init widths pipe_stages n w = (s0, w0) →
  TestSuite.run s0 w0 = (s, w') →
  TestSuite.total_tests s
    = n * Z.of_nat (length widths) * Z.of_nat (length pipe_stages) ∧
  TestSuite.total_tests s
    = sum_list ((λ pf, pf.1 + pf.2) <$> config_totals (since w w')) ∧
  TestSuite.total_passed s = sum_list (fst <$> config_totals (since w w')) ∧
  TestSuite.total_failed s = sum_list (snd <$> config_totals (since w w')) ∧
  length (config_totals (since w w')) = (length widths * length pipe_stages)%nat ∧
  (∀ width p, width ∈ widths → p ∈ pipe_stages →
     is_Some (TestSuite.config_results s !! ModuleTest.key_of width p)) ∧
  (NoDup widths → NoDup pipe_stages →
     size (TestSuite.config_results s) = (length widths * length pipe_stages)%nat ∧
     TestSuite.total_tests s
       = sum_over (λ r, res_passed r + res_failed r) (TestSuite.config_results s) ∧
     TestSuite.total_passed s = sum_over res_passed (TestSuite.config_results s) ∧
     TestSuite.total_failed s = sum_over res_failed (TestSuite.config_results s)).
Proof.
  intros Hn Hinit Hrun.
  destruct (suite_events _ _ _ _ _ _ _ _ Hinit Hrun)
    as (_ & Hsum & Hpass & Hfail & Hlen).
  destruct (suite_spec _ _ _ _ _ _ _ _ Hinit Hrun)
    as (results & dl & dlink & t0 & t1 & fl & _ & _ & _ & _ & Hl & Hall & Hres
        & Htests & Hpass' & Hfail' & _).
  rewrite pairs_length in *. rewrite Hsum, Z.max_r by done.
  split; [rewrite Htests; lia|]. split; [rewrite Htests; lia|].
  split; [done|]. split; [done|]. split; [done|].
  split.
  { intros width p Hw Hp. rewrite Hres. apply foldl_store_present. right.
    assert (Hin : (width, p) ∈ (λ r, (res_width r, res_pipe_stages r)) <$> results)
      by (rewrite Hl; by apply elem_of_pairs).
    apply list_elem_of_fmap in Hin as (r & [= -> ->] & Hr). by exists r. }
  intros Hndw Hndp.
  pose proof (results_keys_NoDup results _ Hl (pairs_NoDup _ _ Hndw Hndp)) as Hkeys.
  assert (Hfresh : ∀ r, r ∈ results →
            (∅ : gmap string config_result) !! key_of_result r = None)
    by (intros; apply lookup_empty).
  rewrite Hres.
  destruct (foldl_store_fresh (λ r, res_passed r + res_failed r) results ∅ Hkeys Hfresh)
    as [Hs1 Hsize].
  destruct (foldl_store_fresh res_passed results ∅ Hkeys Hfresh) as [Hs2 _].
  destruct (foldl_store_fresh res_failed results ∅ Hkeys Hfresh) as [Hs3 _].
  rewrite Hsize, Hs1, Hs2, Hs3, !sum_over_empty, map_size_empty.
  assert (Hlr : length results = (length widths * length pipe_stages)%nat).
  { rewrite <- (length_fmap (λ r, (res_width r, res_pipe_stages r))), Hl.
    apply pairs_length. }
  split; [lia|]. split; [|split; [lia|lia]].
  rewrite Htests, <- Hlr. clear -Hall Hn.
  induction Hall as [|r rs (_ & _ & Hr) _ IH]; [unfold sum_list; simpl; lia|].
  rewrite fmap_cons, sum_list_cons, length_cons, Nat2Z.inj_succ. lia.
Qed.

Lemma C2_totals_are_sums_witness :
  let E := mixed_env in
  let i := TestSuite.init [8; 16] [2; 3] 3 fresh in
  let r := TestSuite.run i.1 i.2 in
  let s := r.1 in
  TestSuite.total_tests s = 3 * Z.of_nat (length [8; 16]) * Z.of_nat (length [2; 3]) ∧
  TestSuite.total_tests s
    = sum_list ((λ pf, pf.1 + pf.2) <$> config_totals (since fresh r.2)) ∧
  TestSuite.total_passed s = sum_list (fst <$> config_totals (since fresh r.2)) ∧
  TestSuite.total_failed s = sum_list (snd <$> config_totals (since fresh r.2)) ∧
  length (config_totals (since fresh r.2)) = (length [8; 16] * length [2; 3])%nat ∧
  (∀ width p, width ∈ [8; 16] → p ∈ [2; 3] →
     is_Some (TestSuite.config_results s !! ModuleTest.key_of width p)) ∧
  (NoDup [8; 16] → NoDup [2; 3] →
     size (TestSuite.config_results s) = (length [8; 16] * length [2; 3])%nat ∧
     TestSuite.total_tests s
       = sum_over (λ r, res_passed r + res_failed r) (TestSuite.config_results s) ∧
     TestSuite.total_passed s = sum_over res_passed (TestSuite.config_results s) ∧
     TestSuite.total_failed s = sum_over res_failed (TestSuite.config_results s)).
Proof.
  intros E i r s.
  assert (Hn : 0 ≤ 3) by lia.
  assert (Hinit : TestSuite.init [8; 16] [2; 3] 3 fresh = (i.1, i.2))
    by (vm_compute; reflexivity).
  assert (Hrun : TestSuite.run i.1 i.2 = (s, r.2)) by (vm_compute; reflexivity).
  exact (C2_totals_are_sums [8; 16] [2; 3] 3 fresh i.1 i.2 s r.2 Hn Hinit Hrun).
Defined.

(** C2 fails as stated when a pair is requested twice: with widths 8,8,
    pipeline depth 2 and one module, two configurations are run and
    [total_tests] is 2, while the dictionary has the single key "8_2" and
    the sum of [passed + failed] over its entries is 1. *)
Lemma C2_counterexample :
  let E := stub_env 0 0 "TEST PASSED" in
  let i := TestSuite.init [8; 8] [2] 1 fresh in
  let s := (TestSuite.run i.1 i.2).1 in
  TestSuite.total_tests s = 2 ∧
  size (TestSuite.config_results s) = 1%nat ∧
  sum_over (λ r, res_passed r + res_failed r) (TestSuite.config_results s) = 1 ∧
  TestSuite.total_tests s
    ≠ sum_over (λ r, res_passed r + res_failed r) (TestSuite.config_results s).
Proof. vm_compute. repeat split; discriminate. Qed.

(** ** C9: a pair requested more than once *)





(** In that run both occurrences are counted (one failed, one passed), but
    the log, the dictionary and the heat map show the second one only. *)
Example repeated_pair_run :
  let E := second_time_env in
  let i := TestSuite.init [8; 8] [2] 1 fresh in
  let r := TestSuite.run i.1 i.2 in
  TestSuite.total_tests r.1 = 2 ∧ TestSuite.total_passed r.1 = 1 ∧
  TestSuite.total_failed r.1 = 1 ∧
  config_totals (since fresh r.2) = [(0, 1); (1, 0)] ∧
  size (TestSuite.config_results r.1) = 1%nat ∧
  (res_passed <$> TestSuite.config_results r.1 !! ModuleTest.key_of 8 2) = Some 1 ∧
  (res_failed <$> TestSuite.config_results r.1 !! ModuleTest.key_of 8 2) = Some 0 ∧
  fs r.2 !! "simulation_logs_2024-01-01_00-00-00/w8_p2/module_1.log"
    = Some (File (Text "TEST PASSED")) ∧
  dp_heat (TestSuite.dashboard r.1) = [(8, [Rate 55 255 50 100]); (8, [Rate 55 255 50 100])].
Proof. vm_compute. done. Qed.

(** ** C6: the link to the latest results *)

Lemma root_not_latest (stamp : string) : "simulation_logs_" +:+ stamp ≠ latest.
Proof. discriminate. Qed.

(** C6, as the code has it.  A suite run on a valid command line exits
    with status 0 whatever becomes of the link, and leaves its output root
    present.  Either the link points at the root of the run and no warning
    is printed, or one warning is printed.  The first case holds at least
    when [latest_results] was free, or was seen by [os.path.exists] and was
    not a directory.  The root is named after the date read at the start,
    so two consecutive runs have distinct roots when those dates differ;
    and if the first run starts in such a state, with no link standing
    where its root goes, then after the second run both roots are present
    and the link points at the second. *)
Theorem C6_latest_results_link `{Env} (a : args) (widths pipe_stages : list Z)
    (w : world) :
  parse_lists a = Some (widths, pipe_stages) → 1 ≤ arg_modules a →
  let root := "simulation_logs_" +:+ today w in
  let w1 := (main a w).2 in
  let root2 := "simulation_logs_" +:+ today w1 in
  let w2 := (main a w1).2 in
  (main a w).1 = 0 ∧ (main a w1).1 = 0 ∧
  is_Some (fs w1 !! root) ∧
  (fs w1 !! latest = Some (Symlink root) ∧ warnings (since w w1) = 0%nat
   ∨ warnings (since w w1) = 1%nat) ∧
  (replaceable (fs w) →
     fs w1 !! latest = Some (Symlink root) ∧ warnings (since w w1) = 0%nat) ∧
  (today w ≠ today w1 → root ≠ root2) ∧
  (replaceable (fs w) → not_link (fs w !! root) →
     fs w2 !! latest = Some (Symlink root2) ∧ warnings (since w1 w2) = 0%nat ∧
     is_Some (fs w2 !! root) ∧ is_Some (fs w2 !! root2)).
Proof.
  intros Hparse Hn root w1 root2 w2. subst w2 root2 w1.
  destruct (main_accepts a widths pipe_stages w Hparse Hn) as [-> _].
  set (w1 := (run_suite widths pipe_stages (arg_modules a) w).2).
  destruct (main_accepts a widths pipe_stages w1 Hparse Hn) as [-> _].
  destruct (suite_link_spec widths pipe_stages (arg_modules a) w)
    as (Hexit1 & fl1 & Hw1 & Hroot1 & Hlink1).
  destruct (suite_link_spec widths pipe_stages (arg_modules a) w1)
    as (Hexit2 & fl2 & Hw2 & Hroot2 & Hlink2).
  fold w1 in Hlink1. fold root in Hroot1, Hlink1.
  set (root2 := "simulation_logs_" +:+ today w1) in *.
  set (w2 := (run_suite widths pipe_stages (arg_modules a) w1).2) in *.
  assert (Hpresent1 : is_Some (fs w1 !! root)).
  { destruct Hlink1 as [(_ & -> & _)|(_ & -> & _)]; [|done].
    rewrite lookup_insert_ne; [done|]. intros Heq. symmetry in Heq.
    by apply root_not_latest in Heq. }
  assert (Hgood : replaceable (fs w) →
            fs w1 !! latest = Some (Symlink root) ∧ warnings (since w w1) = 0%nat).
  { intros Hrep. destruct Hlink1 as [(_ & -> & ?)|(Hno & _)].
    - by rewrite lookup_insert_eq.
    - destruct Hno. by eapply replaceable_writes. }
  split; [done|]. split; [done|]. split; [done|].
  split.
  { destruct Hlink1 as [(_ & -> & ?)|(_ & _ & ?)]; [left|by right].
    by rewrite lookup_insert_eq. }
  split; [done|].
  split.
  { intros Hne Heq. apply Hne. by apply (inj (String.app "simulation_logs_")) in Heq. }
  intros Hrep Hnl. destruct (Hgood Hrep) as [Hl1 _].
  assert (Hfs1 : ∀ q, q ≠ latest → fs w1 !! q = fl1 !! q).
  { intros q Hq. destruct Hlink1 as [(_ & -> & _)|(_ & -> & _)]; [|done].
    by rewrite lookup_insert_ne. }
  assert (Hrep1 : replaceable (fs w1)).
  { apply (replaceable_link _ root); [done|done|].
    rewrite Hfs1 by apply root_not_latest. by eapply writes_not_link. }
  destruct Hlink2 as [(_ & Hfs2 & ?)|(Hno & _)];
    [|destruct Hno; by eapply replaceable_writes].
  rewrite Hfs2, lookup_insert_eq.
  rewrite !lookup_insert_ne by (intros Heq; symmetry in Heq; by apply root_not_latest in Heq).
  split; [done|]. split; [done|]. split; [|done].
  by eapply writes_present.
Qed.

Lemma C6_latest_results_link_witness :
  let E := two_dates_env in
  let a := one_module_args in
  let root := "simulation_logs_" +:+ today fresh in
  let w1 := (main a fresh).2 in
  let root2 := "simulation_logs_" +:+ today w1 in
  let w2 := (main a w1).2 in
  (main a fresh).1 = 0 ∧ (main a w1).1 = 0 ∧
  is_Some (fs w1 !! root) ∧
  (fs w1 !! latest = Some (Symlink root) ∧ warnings (since fresh w1) = 0%nat
   ∨ warnings (since fresh w1) = 1%nat) ∧
  (replaceable (fs fresh) →
     fs w1 !! latest = Some (Symlink root) ∧ warnings (since fresh w1) = 0%nat) ∧
  (today fresh ≠ today w1 → root ≠ root2) ∧
  (replaceable (fs fresh) → not_link (fs fresh !! root) →
     fs w2 !! latest = Some (Symlink root2) ∧ warnings (since w1 w2) = 0%nat ∧
     is_Some (fs w2 !! root) ∧ is_Some (fs w2 !! root2)).
Proof.
  intros E a.
  assert (Hparse : parse_lists a = Some ([8], [2])) by (vm_compute; reflexivity).
  assert (Hn : 1 ≤ arg_modules a) by (simpl; lia).
  exact (C6_latest_results_link a [8] [2] fresh Hparse Hn).
Defined.

(** With two dates the two roots are distinct and the link ends on the
    second. *)
Example two_runs_two_roots :
  let E := two_dates_env in
  let w1 := (main one_module_args fresh).2 in
  let w2 := (main one_module_args w1).2 in
  roots_announced (trace w2)
    = ["simulation_logs_2024-01-01_00-00-00"; "simulation_logs_2024-01-01_00-00-07"] ∧
  fs w1 !! latest = Some (Symlink "simulation_logs_2024-01-01_00-00-00") ∧
  fs w2 !! latest = Some (Symlink "simulation_logs_2024-01-01_00-00-07") ∧
  fs w2 !! "simulation_logs_2024-01-01_00-00-00" = Some Dir ∧
  fs w2 !! "simulation_logs_2024-01-01_00-00-07" = Some Dir.
Proof. vm_compute. done. Qed.

(** C6 fails as stated: the root is named after the date to the second,
    so two consecutive runs that start within the same second (here the
    stub toolchain, whose date never changes) have one and the same root,
    not two distinct ones. *)
Lemma C6_counterexample :
  let E := stub_env 0 0 "TEST PASSED" in
  let w1 := (main one_module_args fresh).2 in
  let w2 := (main one_module_args w1).2 in
  (main one_module_args fresh).1 = 0 ∧ (main one_module_args w1).1 = 0 ∧
  roots_announced (trace w2)
    = ["simulation_logs_2024-01-01_00-00-00"; "simulation_logs_2024-01-01_00-00-00"] ∧
  ¬ ("simulation_logs_" +:+ today fresh ≠ "simulation_logs_" +:+ today w1).
Proof. vm_compute. split; [done|]. split; [done|]. split; [done|]. intros Hne. by apply Hne. Qed.

(** When [latest_results] is a link whose target is gone,
    [os.path.exists] does not see it, nothing is removed, [os.symlink]
    fails, and the link keeps pointing at the old root. *)
Example dangling_link_is_kept :
  let E := stub_env 0 0 "TEST PASSED" in
  let w1 := (main one_module_args dangling).2 in
  path_exists (fs dangling) latest = false ∧
  (main one_module_args dangling).1 = 0 ∧
  warnings (since dangling w1) = 1%nat ∧
  fs w1 !! latest = Some (Symlink "simulation_logs_gone").
Proof. vm_compute. done. Qed.

(** * Further properties *)

(** ** Names of files and executables *)

Lemma dir_of_inj (L : string) (w p w' p' : Z) :
  ModuleTest.dir_of L w p = ModuleTest.dir_of L w' p' → w = w' ∧ p = p'.
Proof.
  intros Heq.
  assert (Hx : ModuleTest.dir_of L w p +:+ "/" +:+ ""
               = ModuleTest.dir_of L w' p' +:+ "/" +:+ "") by (by rewrite Heq).
  by apply dir_of_file_inj in Hx as (-> & -> & _).
Qed.

Lemma exe_name_inj (w p m w' p' m' : Z) :
  exe_name w p m = exe_name w' p' m' → w = w' ∧ p = p' ∧ m = m'.
Proof.
  unfold exe_name. intros Heq.
  apply (inj (String.app "sim_w")) in Heq.
  rewrite !str_app_cons, !str_app_nil_l in Heq.
  apply (app_sep_inj sign_or_digit) in Heq as [Hw Heq];
    [|done|apply pretty_Z_chars..].
  injection Heq as Heq.
  apply (app_sep_inj sign_or_digit) in Heq as [Hp Heq];
    [|done|apply pretty_Z_chars..].
  injection Heq as Heq.
  apply (app_sep_inj sign_or_digit) in Heq as [Hm _];
    [|done|apply pretty_Z_chars..].
  repeat split; by apply (inj pretty).
Qed.

Lemma log_name_not_report (m : Z) : ModuleTest.log_name m ≠ "report.html".
Proof. unfold ModuleTest.log_name. discriminate. Qed.

(** X1.  The names [ModuleTest.__init__] computes identify what they name:
    two test objects under the same output root have the same
    [config_key], or the same [config_dir], exactly when they have the
    same width and pipeline depth, and the same [log_file] exactly when
    they also have the same module id.  No log file is the report of its
    configuration or the dashboard of the run. *)
Theorem module_paths_identify (log_dir : string) (m w p m' w' p' : Z) (w0 w0' : world) :
  let t := (ModuleTest.init m w p log_dir w0).1 in
  let t' := (ModuleTest.init m' w' p' log_dir w0').1 in
  (ModuleTest.config_key t = ModuleTest.config_key t' ↔ w = w' ∧ p = p') ∧
  (ModuleTest.config_dir t = ModuleTest.config_dir t' ↔ w = w' ∧ p = p') ∧
  (ModuleTest.log_file t = ModuleTest.log_file t' ↔ w = w' ∧ p = p' ∧ m = m') ∧
  ModuleTest.log_file t ≠ ModuleTest.config_dir t' +:+ "/report.html" ∧
  ModuleTest.log_file t ≠ log_dir +:+ "/dashboard.html".
Proof.
  intros t t'. subst t t'. rewrite !module_init_spec. simpl.
  split; [split; [apply key_of_inj|by intros [-> ->]]|].
  split; [split; [apply dir_of_inj|by intros [-> ->]]|].
  split; [split|].
  - intros (-> & -> & Hm%log_name_inj)%dir_of_file_inj. done.
  - by intros (-> & -> & ->).
  - split.
    + intros (_ & _ & Hx)%dir_of_file_inj. by apply log_name_not_report in Hx.
    + unfold ModuleTest.dir_of. rewrite !str_app_assoc.
      intros Heq%(inj (String.app log_dir)). discriminate Heq.
Qed.

(** X2.  The argument lists of two child processes are equal only for
    the same step of the same module of the same configuration: the
    executable a compile step is told to produce, and a simulate step
    runs, is named after the width, the pipeline depth and the module id,
    and the name determines them. *)
Theorem argv_identifies_command (c c' : command) :
  (argv c = argv c' ↔ c = c') ∧
  (∀ w p m w' p' m', exe_name w p m = exe_name w' p' m' ↔ w = w' ∧ p = p' ∧ m = m') ∧
  (∀ w p m, ∃ pre post,
     argv (Compile w p m) = pre ++ ["-o"; exe_name w p m] ++ post ∧
     argv (Simulate w p m) = ["./obj_dir/" +:+ exe_name w p m]).
Proof.
  split; [split; [|by intros ->]|split].
  - destruct c as [w p m|w p m], c' as [w' p' m'|w' p' m']; cbn [argv];
      intros Heq; try discriminate Heq.
    + assert (Hexe : exe_name w p m = exe_name w' p' m') by congruence.
      by apply exe_name_inj in Hexe as (-> & -> & ->).
    + assert (Hexe : "./obj_dir/" +:+ exe_name w p m
                     = "./obj_dir/" +:+ exe_name w' p' m') by congruence.
      apply (inj (String.app "./obj_dir/")) in Hexe.
      by apply exe_name_inj in Hexe as (-> & -> & ->).
  - intros. split; [apply exe_name_inj|by intros (-> & -> & ->)].
  - intros w p m.
    exists ["verilator"; "--binary"; "--timing"; "--assert"; "--autoflush";
            "-j"; "2"; "-sv";
            "-Wno-CASEINCOMPLETE"; "-Wno-REALCVT"; "-Wno-SELRANGE";
            "-Wno-TIMESCALEMOD"; "-Wno-UNSIGNED"; "-Wno-WIDTH";
            "-CFLAGS"; "-O1"; "-Wno-fatal";
            "--trace-structs"; "--trace-params"; "--trace-fst";
            "-top"; "tb_pipelined_arithmetic"].
    eexists. split; reflexivity.
Qed.

(** ** Directories *)

Lemma mkdir_if_absent_lookup (f : gmap string node) (d q : string) :
  mkdir_if_absent f d !! q
  = (if decide (q = d) then match f !! d with None => Some Dir | o => o end
     else f !! q).
Proof.
  unfold mkdir_if_absent. case_decide as Hq.
  - subst q. destruct (f !! d) eqn:Hd; [done|]. by rewrite lookup_insert_eq.
  - destruct (f !! d); [done|]. by rewrite lookup_insert_ne.
Qed.

Lemma mkdirs_keep (l : list string) (f : gmap string node) (q : string) :
  is_Some (f !! q) → foldl mkdir_if_absent f l !! q = f !! q.
Proof.
  revert f. induction l as [|d l IH]; intros f Hq; [done|]. simpl.
  rewrite IH; rewrite mkdir_if_absent_lookup; case_decide; subst;
    try done; by destruct Hq as [x ->].
Qed.

Lemma mkdirs_outside (l : list string) (f : gmap string node) (q : string) :
  q ∉ l → foldl mkdir_if_absent f l !! q = f !! q.
Proof.
  revert f. induction l as [|d l IH]; intros f Hq; [done|]. simpl.
  apply not_elem_of_cons in Hq as [Hd Hq].
  rewrite IH by done. rewrite mkdir_if_absent_lookup. by case_decide.
Qed.

Lemma mkdirs_made (l : list string) (f : gmap string node) (d : string) :
  d ∈ l → f !! d = None ∨ f !! d = Some Dir →
  foldl mkdir_if_absent f l !! d = Some Dir.
Proof.
  revert f. induction l as [|x l IH]; intros f Hd Hf; [by apply elem_of_nil in Hd|].
  simpl. destruct (decide (d = x)) as [->|Hne].
  - rewrite mkdirs_keep; rewrite mkdir_if_absent_lookup, decide_True by done;
      destruct Hf as [->| ->]; done.
  - apply elem_of_cons in Hd as [?|Hd]; [done|].
    apply IH; [done|]. rewrite mkdir_if_absent_lookup. by rewrite decide_False.
Qed.

Lemma mkdirs_nothing (l : list string) (f : gmap string node) :
  (∀ d, d ∈ l → is_Some (f !! d)) → foldl mkdir_if_absent f l = f.
Proof.
  revert f. induction l as [|d l IH]; intros f Hl; [done|]. simpl.
  assert (Hd : mkdir_if_absent f d = f).
  { unfold mkdir_if_absent. destruct (Hl d) as [x ->]; [left|done]. }
  rewrite Hd. apply IH. intros d' Hd'. apply Hl. by right.
Qed.

Lemma with_fs_same (w : world) : with_fs (fs w) w = w.
Proof. by destruct w. Qed.

(** X3.  Directory creation is create-if-absent.  When nothing but
    directories stands in the way, [ConfigurationTest.__init__] leaves
    the configuration directory and all its ancestors as directories,
    changes no path that existed and no path outside these, and prints
    nothing; after it, the [os.makedirs] of every [ModuleTest.__init__]
    of that configuration, and of a repeated
    [ConfigurationTest.__init__], changes nothing, in any world where
    the directories are still there. *)
Theorem directories_are_made_once (width p n : Z) (log_dir : string) (w : world) :
  let dir := ModuleTest.dir_of log_dir width p in
  no_obstacle (fs w) dir →
  let w0 := (ConfigurationTest.init width p n log_dir w).2 in
  (∀ d, d ∈ ancestors dir → fs w0 !! d = Some Dir) ∧
  fs w0 !! dir = Some Dir ∧
  (∀ q, is_Some (fs w !! q) → fs w0 !! q = fs w !! q) ∧
  (∀ q, q ∉ ancestors dir → fs w0 !! q = fs w !! q) ∧
  trace w0 = trace w ∧
  (∀ w1 m, (∀ d, d ∈ ancestors dir → is_Some (fs w1 !! d)) →
     (ModuleTest.init m width p log_dir w1).2 = w1 ∧
     (ConfigurationTest.init width p n log_dir w1).2 = w1) ∧
  (∀ d, d ∈ ancestors dir → is_Some (fs w0 !! d)).
Proof.
  intros dir Hclear w0.
  assert (Hmade : ∀ d, d ∈ ancestors dir → fs w0 !! d = Some Dir).
  { intros d Hd. apply mkdirs_made; [done|]. by apply Hclear. }
  split; [done|].
  split; [apply Hmade, ancestors_self|].
  split; [intros q Hq; by apply mkdirs_keep|].
  split; [intros q Hq; by apply mkdirs_outside|].
  split; [done|]. split.
  - intros w1 m Hw1. rewrite module_init_spec.
    unfold ConfigurationTest.init. unfold_M. fold dir.
    rewrite (mkdirs_nothing _ _ Hw1). split; by destruct w1.
  - intros d Hd. rewrite (Hmade d Hd). by eexists.
Qed.

Lemma directories_are_made_once_witness :
  let dir := ModuleTest.dir_of "simulation_logs_t" 8 2 in
  let w0 := (ConfigurationTest.init 8 2 3 "simulation_logs_t" fresh).2 in
  (∀ d, d ∈ ancestors dir → fs w0 !! d = Some Dir) ∧
  fs w0 !! dir = Some Dir ∧
  (∀ q, is_Some (fs fresh !! q) → fs w0 !! q = fs fresh !! q) ∧
  (∀ q, q ∉ ancestors dir → fs w0 !! q = fs fresh !! q) ∧
  trace w0 = trace fresh ∧
  (∀ w1 m, (∀ d, d ∈ ancestors dir → is_Some (fs w1 !! d)) →
     (ModuleTest.init m 8 2 "simulation_logs_t" w1).2 = w1 ∧
     (ConfigurationTest.init 8 2 3 "simulation_logs_t" w1).2 = w1) ∧
  (∀ d, d ∈ ancestors dir → is_Some (fs w0 !! d)).
Proof.
  assert (Hclear : no_obstacle (fs fresh) (ModuleTest.dir_of "simulation_logs_t" 8 2))
    by (intros d _; left; apply lookup_empty).
  exact (directories_are_made_once 8 2 3 "simulation_logs_t" fresh Hclear).
Defined.

(** ** One module run *)


(** ** The heat map *)

(** X5.  The colour of a heat-map cell.  For a configuration in
    [config_results] with non-negative counts ([100 * passed] below
    2^53), the pass rate lies between 0 and 100, so that neither [max]
    nor [min] changes the colour: red is [255 - 2 * rate], green is
    [55 + 2 * rate] and blue is 50.  The cell reads 100 exactly when
    something passed and nothing failed, and 0 exactly when fewer than
    one test in a hundred passed. *)
Theorem heat_colour_follows_rate (results : gmap string config_result)
    (width pipe_stages : Z) (result : config_result) :
  results !! ModuleTest.key_of width pipe_stages = Some result →
  0 ≤ res_passed result → 0 ≤ res_failed result →
  res_passed result * 100 < 2 ^ 53 →
  ∃ rate,
    TestSuite.heat_cell_of results width pipe_stages
      = Rate (255 - 2 * rate) (55 + 2 * rate) 50 rate ∧
    0 ≤ rate ≤ 100 ∧
    55 ≤ 255 - 2 * rate ≤ 255 ∧ 55 ≤ 55 + 2 * rate ≤ 255 ∧
    (rate = 100 ↔ 0 < res_passed result ∧ res_failed result = 0) ∧
    (rate = 0 ↔ 100 * res_passed result < res_passed result + res_failed result
                ∨ res_passed result + res_failed result = 0).
Proof.
  intros Hres Hp Hf Hbound. unfold TestSuite.heat_cell_of. rewrite Hres.
  set (passed := res_passed result) in *. set (failed := res_failed result) in *.
  destruct (0 <? passed + failed) eqn:Htot.
  - apply Z.ltb_lt in Htot.
    rewrite int_truediv_floor by lia.
    set (rate := passed * 100 / (passed + failed)).
    assert (Hlo : 0 ≤ rate) by (apply Z.div_pos; lia).
    assert (Hhi : rate ≤ 100).
    { apply Z.div_le_upper_bound; lia. }
    pose proof (Z.mul_div_le (passed * 100) (passed + failed) ltac:(lia)) as Hle.
    pose proof (Z.mul_succ_div_gt (passed * 100) (passed + failed) ltac:(lia)) as Hgt.
    fold rate in Hle, Hgt.
    exists rate. split; [f_equal; lia|]. split; [lia|]. split; [lia|]. split; [lia|].
    split; split.
    + intros Hr. rewrite Hr in Hle, Hgt. lia.
    + intros [Hpos Hz]. unfold rate. rewrite Hz, Z.add_0_r.
      rewrite Z.mul_comm. apply Z.div_mul. lia.
    + intros Hr. left. rewrite Hr in Hgt. lia.
    + intros [Hlt|Hz]; [|lia]. unfold rate. apply Z.div_small. lia.
  - apply Z.ltb_ge in Htot. exists 0. split; [done|]. split; [lia|]. split; [lia|].
    split; [lia|]. split; [split; [lia|]|split; [|done]].
    + intros [Hpos Hz]. lia.
    + intros _. right. lia.
Qed.

Lemma heat_colour_follows_rate_witness :
  ∃ rate,
    TestSuite.heat_cell_of (TestSuite.config_results heat_sample_suite) 8 2
      = Rate (255 - 2 * rate) (55 + 2 * rate) 50 rate ∧
    0 ≤ rate ≤ 100 ∧
    55 ≤ 255 - 2 * rate ≤ 255 ∧ 55 ≤ 55 + 2 * rate ≤ 255 ∧
    (rate = 100 ↔ 0 < 7 ∧ 3 = 0) ∧
    (rate = 0 ↔ 100 * 7 < 7 + 3 ∨ 7 + 3 = 0).
Proof.
  assert (H1 : TestSuite.config_results heat_sample_suite !! ModuleTest.key_of 8 2
               = Some heat_sample_result) by (vm_compute; reflexivity).
  assert (H2 : 0 ≤ res_passed heat_sample_result) by (vm_compute; discriminate).
  assert (H3 : 0 ≤ res_failed heat_sample_result) by (vm_compute; discriminate).
  assert (H4 : res_passed heat_sample_result * 100 < 2 ^ 53) by (vm_compute; reflexivity).
  exact (heat_colour_follows_rate _ 8 2 heat_sample_result H1 H2 H3 H4).
Defined.

(** ** The [latest_results] link, case by case *)

(** X6.  What the [try] block at the end of [TestSuite.run] does to
    [latest_results], by what stands there.  No other path is touched.
    A free name, a regular file, and a link that [os.path.exists]
    follows to something are replaced by a link to the output root,
    silently (the regular file is lost).  A directory, and a link that
    [os.path.exists] does not see through (its target is missing), stay
    as they are and one warning is printed. *)
Theorem link_latest_cases (log_dir : string) (w : world) :
  let w' := (TestSuite.link_latest log_dir w).2 in
  let replaced := fs w' = <[latest := Symlink log_dir]> (fs w) ∧ trace w' = trace w in
  let kept := fs w' = fs w ∧ trace w' = trace w ++ [Print SymlinkWarning] in
  (∀ q, q ≠ latest → fs w' !! q = fs w !! q) ∧
  (replaced ∨ kept) ∧
  (fs w !! latest = None → replaced) ∧
  (∀ c, fs w !! latest = Some (File c) → replaced) ∧
  (fs w !! latest = Some Dir → kept) ∧
  (∀ target, fs w !! latest = Some (Symlink target) →
     (path_exists (fs w) latest = true → replaced) ∧
     (path_exists (fs w) latest = false → kept) ∧
     (fs w !! target = None → kept)).
Proof.
  intros w' replaced kept.
  assert (Hspec : (replaceable (fs w) ∧ replaced) ∨ (¬ replaceable (fs w) ∧ kept)).
  { destruct (link_latest_spec log_dir w) as [(? & ? & ?)|(? & ? & ?)];
      [left|right]; done. }
  assert (Hyes : replaceable (fs w) → replaced) by (intros ?; tauto).
  assert (Hno : ¬ replaceable (fs w) → kept) by (intros ?; tauto).
  split.
  { intros q Hq. destruct Hspec as [(_ & -> & _)|(_ & -> & _)];
      [by rewrite lookup_insert_ne|done]. }
  split; [tauto|].
  split; [intros Hl; apply Hyes; by left|].
  split.
  { intros c Hl. apply Hyes. right. split; [|by rewrite Hl].
    unfold path_exists. simpl. by rewrite Hl. }
  split.
  { intros Hl. apply Hno. intros [Hn|[_ Hn]]; [by rewrite Hl in Hn|done]. }
  intros target Hl.
  assert (Hex : path_exists (fs w) latest = false → ¬ replaceable (fs w)).
  { intros Hex [Hn|[Hn _]]; [by rewrite Hl in Hn|by rewrite Hex in Hn]. }
  split; [|split].
  - intros Hex'. apply Hyes. right. split; [done|by rewrite Hl].
  - intros Hex'. by apply Hno, Hex.
  - intros Ht. apply Hno, Hex. unfold path_exists. simpl. by rewrite Hl, Ht.
Qed.

(** ** The dictionary of results, entry by entry *)

Lemma foldl_store_lookup_Some (rs : list config_result)
    (m : gmap string config_result) (k : string) (r : config_result) :
  foldl store m rs !! k = Some r →
  m !! k = Some r ∨ (r ∈ rs ∧ key_of_result r = k).
Proof.
  revert m. induction rs as [|r0 rs IH]; intros m Hk; [by left|].
  simpl in Hk. apply IH in Hk as [Hk|[Hin Hk]].
  - destruct (decide (k = key_of_result r0)) as [->|Hne].
    + rewrite store_lookup_eq in Hk. injection Hk as ->. right. split; [by left|done].
    + rewrite store_lookup_ne in Hk by done. by left.
  - right. split; [by right|done].
Qed.

Lemma results_of_pairs (results : list config_result) (widths pipe_stages : list Z)
    (width p : Z) :
  (λ r, (res_width r, res_pipe_stages r)) <$> results = pairs widths pipe_stages →
  width ∈ widths → p ∈ pipe_stages →
  ∃ r, r ∈ results ∧ res_width r = width ∧ res_pipe_stages r = p.
Proof.
  intros Hl Hw Hp.
  assert (Hin : (width, p) ∈ pairs widths pipe_stages) by (by apply elem_of_pairs).
  rewrite <- Hl in Hin. apply list_elem_of_fmap in Hin as (r & [= -> ->] & Hr).
  by exists r.
Qed.

Lemma result_in_pairs (results : list config_result) (widths pipe_stages : list Z)
    (r : config_result) :
  (λ r, (res_width r, res_pipe_stages r)) <$> results = pairs widths pipe_stages →
  r ∈ results → res_width r ∈ widths ∧ res_pipe_stages r ∈ pipe_stages.
Proof.
  intros Hl Hr. apply elem_of_pairs. rewrite <- Hl.
  by apply (list_elem_of_fmap_2 (λ r, (res_width r, res_pipe_stages r))).
Qed.

Lemma sum_list_nonneg (l : list Z) : Forall (λ x, 0 ≤ x) l → 0 ≤ sum_list l.
Proof. induction 1 as [|x l Hx _ IH]; [done|]. rewrite sum_list_cons. lia. Qed.

Lemma sum_list_zero (l : list Z) :
  Forall (λ x, 0 ≤ x) l → (sum_list l = 0 ↔ Forall (λ x, x = 0) l).
Proof.
  induction 1 as [|x l Hx Hl IH]; [done|]. rewrite sum_list_cons.
  pose proof (sum_list_nonneg l Hl). rewrite Forall_cons, <- IH. lia.
Qed.

Lemma triples_none (n : Z) (l : list (Z * Z)) : n ≤ 0 → triples n l = [].
Proof.
  intros Hn. unfold triples.
  assert (Py.range 1 (n + 1) = []) as ->.
  { apply length_zero_iff_nil. pose proof (range_length 1 (n + 1)). lia. }
  induction l as [|wp l IH]; [done|]. rewrite bind_cons. exact IH.
Qed.

Section SuiteResults.
Context `{Env}.

(** X7.  After a suite run the dictionary [config_results] holds
    exactly the requested pairs: a key is present exactly when it is
    the key of a width and a pipeline depth of the two lists, and the
    entry found there records that width and that depth, counts that
    are not negative and add up to the number of modules (to 0 when
    [total_modules] is not positive).  So the dictionary never has more
    entries than there are pairs in the product. *)
Theorem results_hold_requested_pairs (widths pipe_stages : list Z) (n : Z) (w : world) :
  let i := TestSuite.init widths pipe_stages n w in
  let s := (TestSuite.run i.1 i.2).1 in
  (∀ k, is_Some (TestSuite.config_results s !! k) ↔
        ∃ width p, width ∈ widths ∧ p ∈ pipe_stages ∧ k = ModuleTest.key_of width p) ∧
  (∀ width p r,
     TestSuite.config_results s !! ModuleTest.key_of width p = Some r →
     res_width r = width ∧ res_pipe_stages r = p ∧
     0 ≤ res_passed r ∧ 0 ≤ res_failed r ∧
     res_passed r + res_failed r = Z.max 0 n) ∧
  (size (TestSuite.config_results s) ≤ length widths * length pipe_stages)%nat.
Proof.
  intros i s.
  destruct (suite_spec widths pipe_stages n w _ _ _ _
              (surjective_pairing (TestSuite.init widths pipe_stages n w))
              (surjective_pairing (TestSuite.run i.1 i.2)))
    as (results & dl & dlink & t0 & t1 & fl & _ & _ & _ & _ & Hl & Hall & Hres & _).
  subst s. rewrite Hres. split; [|split].
  - intros k. split.
    + intros [r Hr]. apply foldl_store_lookup_Some in Hr as [Hr|[Hr <-]];
        [by rewrite lookup_empty in Hr|].
      destruct (result_in_pairs _ _ _ _ Hl Hr). eauto.
    + intros (width & p & Hw & Hp & ->). apply foldl_store_present. right.
      destruct (results_of_pairs _ _ _ _ _ Hl Hw Hp) as (r & Hr & <- & <-). eauto.
  - intros width p r Hr. apply foldl_store_lookup_Some in Hr as [Hr|[Hr Hk]];
      [by rewrite lookup_empty in Hr|].
    apply key_of_inj in Hk as [-> ->].
    rewrite Forall_forall in Hall. destruct (Hall r Hr) as (? & ? & ?). done.
  - rewrite <- pairs_length, <- Hl, length_fmap. clear.
    assert (Hgen : ∀ m : gmap string config_result,
              (size (foldl store m results) ≤ size m + length results)%nat).
    { induction results as [|r rs IH]; intros m; simpl; [lia|].
      etrans; [apply IH|]. unfold store.
      destruct (m !! ModuleTest.key_of (res_width r) (res_pipe_stages r)) eqn:Hm.
      - rewrite map_size_insert_Some by done. lia.
      - rewrite map_size_insert_None by done. lia. }
    specialize (Hgen ∅). by rewrite map_size_empty in Hgen.
Qed.

(** Every requested pair has its entry after a suite run. *)
Lemma suite_entries_present (widths pipe_stages : list Z) (n : Z) (w : world)
    (width p : Z) :
  let i := TestSuite.init widths pipe_stages n w in
  let s := (TestSuite.run i.1 i.2).1 in
  width ∈ widths → p ∈ pipe_stages →
  ∃ r, TestSuite.config_results s !! ModuleTest.key_of width p = Some r ∧
       res_width r = width ∧ res_pipe_stages r = p.
Proof.
  intros i s Hw Hp. subst s.
  destruct (suite_spec widths pipe_stages n w _ _ _ _
              (surjective_pairing (TestSuite.init widths pipe_stages n w))
              (surjective_pairing (TestSuite.run i.1 i.2)))
    as (results & dl & dlink & t0 & t1 & fl & _ & _ & _ & _ & Hl & _ & Hres & _).
  destruct (results_of_pairs _ _ _ _ _ Hl Hw Hp) as (r0 & Hr0 & Hw0 & Hp0).
  destruct (foldl_store_present results ∅ (ModuleTest.key_of width p)) as [r Hr].
  { right. exists r0. split; [done|]. unfold key_of_result. by rewrite Hw0, Hp0. }
  exists r. rewrite Hres. split; [done|].
  apply foldl_store_lookup_Some in Hr as [Hr|[_ Hk]];
    [by rewrite lookup_empty in Hr|].
  by apply key_of_inj in Hk as [-> ->].
Qed.

(** The rows of the table of configurations, for any dictionary that has
    an entry for every pair. *)
Lemma dashboard_rows_of (self : TestSuite.t) :
  (∀ width p, width ∈ TestSuite.widths self → p ∈ TestSuite.pipe_stages self →
     ∃ r, TestSuite.config_results self !! ModuleTest.key_of width p = Some r ∧
          res_width r = width ∧ res_pipe_stages r = p) →
  ∃ rs,
    TestSuite.dashboard_rows self = row_of_result <$> rs ∧
    (λ r, (res_width r, res_pipe_stages r)) <$> rs
      = pairs (TestSuite.widths self) (TestSuite.pipe_stages self) ∧
    Forall (λ r, TestSuite.config_results self
                   !! ModuleTest.key_of (res_width r) (res_pipe_stages r) = Some r) rs.
Proof.
  intros Hpresent. unfold TestSuite.dashboard_rows.
  set (results := TestSuite.config_results self) in *.
  set (pipes := TestSuite.pipe_stages self) in *.
  induction (TestSuite.widths self) as [|wd ws IH].
  { by exists []. }
  destruct IH as (rs2 & Hrs2 & Hp2 & Hall2).
  { intros width p Hw Hp. apply Hpresent; [by right|done]. }
  assert (Hrow : ∀ ps, (∀ x, x ∈ ps → x ∈ pipes) →
    ∃ rs,
      (pipe_stages0 ← ps;
       match results !! ModuleTest.key_of wd pipe_stages0 with
       | Some result =>
           [(wd, pipe_stages0, res_passed result, res_failed result,
             res_duration result, bool_decide (0 < res_failed result),
             "w" +:+ pretty wd +:+ "_p" +:+ pretty pipe_stages0 +:+ "/report.html")]
       | None => []
       end) = row_of_result <$> rs ∧
      (λ r, (res_width r, res_pipe_stages r)) <$> rs = pair wd <$> ps ∧
      Forall (λ r, results !! ModuleTest.key_of (res_width r) (res_pipe_stages r)
                   = Some r) rs).
  { induction ps as [|p ps IHp]; intros Hsubp; [by exists []|].
    destruct IHp as (rs1 & Hrs1 & Hp1 & Hall1); [intros x Hx; apply Hsubp; by right|].
    destruct (Hpresent wd p) as (r & Hr & Hrw & Hrp); [by left|apply Hsubp; by left|].
    exists (r :: rs1). split; [|split].
    - rewrite bind_cons, Hr, Hrs1, fmap_cons.
      unfold row_of_result at 2, report_link. by rewrite Hrw, Hrp.
    - by rewrite !fmap_cons, Hp1, Hrw, Hrp.
    - constructor; [by rewrite Hrw, Hrp|done]. }
  destruct (Hrow pipes) as (rs1 & Hrs1 & Hp1 & Hall1); [done|].
  exists (rs1 ++ rs2). split; [|split].
  - by rewrite bind_cons, Hrs1, Hrs2, fmap_app.
  - by rewrite fmap_app, Hp1, Hp2, pairs_cons.
  - by apply Forall_app.
Qed.

(** X8.  The heat map of the dashboard a suite run writes has no gap:
    its header lists the pipeline depths, it has one row per width of
    the list, in order and with repetitions, each row has one cell per
    pipeline depth, and no cell is the "N/A" cell.  Likewise the table
    of configurations has one row per pair of the nested loops: the two
    [if config_key in self.config_results] tests never fail. *)
Theorem heat_map_has_no_gap (widths pipe_stages : list Z) (n : Z) (w : world) :
  let i := TestSuite.init widths pipe_stages n w in
  let d := TestSuite.dashboard (TestSuite.run i.1 i.2).1 in
  dp_heat_head d = pipe_stages ∧
  fst <$> dp_heat d = widths ∧
  Forall (λ row, length row.2 = length pipe_stages ∧ NotApplicable ∉ row.2) (dp_heat d) ∧
  length (dp_rows d) = (length widths * length pipe_stages)%nat.
Proof.
  intros i d.
  destruct (suite_spec widths pipe_stages n w _ _ _ _
              (surjective_pairing (TestSuite.init widths pipe_stages n w))
              (surjective_pairing (TestSuite.run i.1 i.2)))
    as (results & dl & dlink & t0 & t1 & fl & Hws & Hps & _).
  pose proof (suite_entries_present widths pipe_stages n w) as Hpresent.
  cbv zeta in Hpresent. fold i in Hpresent.
  set (s := (TestSuite.run i.1 i.2).1) in *.
  split; [exact Hps|]. split; [|split].
  - subst d. unfold TestSuite.dashboard. simpl. rewrite Hws.
    rewrite <- list_fmap_compose. apply list_fmap_id.
  - subst d. unfold TestSuite.dashboard. simpl. rewrite Hws, Hps.
    apply Forall_fmap, Forall_forall. intros width Hw. simpl.
    split; [by rewrite length_fmap|].
    intros Hna. apply list_elem_of_fmap in Hna as (p & Hna & Hp).
    destruct (Hpresent width p Hw Hp) as (r & Hr & _).
    unfold TestSuite.heat_cell_of in Hna. by rewrite Hr in Hna.
  - destruct (dashboard_rows_of s) as (rs & Hrows & Hrs & _).
    { rewrite Hws, Hps. exact Hpresent. }
    subst d. unfold TestSuite.dashboard. simpl.
    rewrite Hrows, length_fmap, <- pairs_length, <- Hws, <- Hps, <- Hrs.
    by rewrite length_fmap.
Qed.

(** X9.  The closing box of the dashboard.  After a suite run the
    totals are not negative; the box reads "ALL TESTS PASSED" exactly
    when [total_failed] is 0, which is exactly when every configuration
    summary printed during the run shows 0 failed; otherwise it shows
    [total_failed] out of [total_tests].  When [total_modules] is not
    negative, the passed and the failed tests add up to [total_tests],
    so the box reads "ALL TESTS PASSED" exactly when every test
    passed. *)
Theorem success_box_iff_nothing_failed (widths pipe_stages : list Z) (n : Z) (w : world) :
  let i := TestSuite.init widths pipe_stages n w in
  let r := TestSuite.run i.1 i.2 in
  let s := r.1 in
  0 ≤ TestSuite.total_passed s ∧ 0 ≤ TestSuite.total_failed s ∧
  (dp_box (TestSuite.dashboard s) = None ↔ TestSuite.total_failed s = 0) ∧
  (dp_box (TestSuite.dashboard s) ≠ None →
     dp_box (TestSuite.dashboard s)
     = Some (TestSuite.total_failed s, TestSuite.total_tests s)) ∧
  (TestSuite.total_failed s = 0 ↔
     Forall (λ pf, pf.2 = 0) (config_totals (since w r.2))) ∧
  (0 ≤ n →
     TestSuite.total_passed s + TestSuite.total_failed s = TestSuite.total_tests s ∧
     (dp_box (TestSuite.dashboard s) = None ↔
        TestSuite.total_passed s = TestSuite.total_tests s)).
Proof.
  intros i r s. subst s.
  destruct (suite_spec widths pipe_stages n w _ _ _ _
              (surjective_pairing (TestSuite.init widths pipe_stages n w))
              (surjective_pairing r))
    as (results & dl & dlink & t0 & t1 & fl & _ & _ & _ & _ & Hl & Hall & _ & Htests
        & Hpass & Hfail & _ & Htr & _ & Htot & _ & _ & _ & _ & Hlink).
  set (s := r.1) in *.
  assert (Hp0 : Forall (λ x, 0 ≤ x) (res_passed <$> results)).
  { apply Forall_fmap. eapply Forall_impl; [exact Hall|]. simpl. tauto. }
  assert (Hf0 : Forall (λ x, 0 ≤ x) (res_failed <$> results)).
  { apply Forall_fmap. eapply Forall_impl; [exact Hall|]. simpl. tauto. }
  assert (Hcfg : config_totals (since w r.2)
                 = (λ r, (res_passed r, res_failed r)) <$> results).
  { rewrite (since_app _ _ _ Htr). rewrite !config_totals_app, Htot.
    destruct (closing_silent ("simulation_logs_" +:+ today w)) as (_ & _ & -> & _).
    assert (config_totals dlink = []) as ->
      by (destruct Hlink as [(_ & _ & ->)|(_ & _ & ->)]; done).
    simpl. by rewrite app_nil_r. }
  assert (Hbox : dp_box (TestSuite.dashboard s) = None ↔ TestSuite.total_failed s = 0).
  { unfold TestSuite.dashboard. simpl. by case_decide. }
  split; [rewrite Hpass; by apply sum_list_nonneg|].
  split; [rewrite Hfail; by apply sum_list_nonneg|].
  split; [exact Hbox|]. split.
  { unfold TestSuite.dashboard. simpl. by case_decide. }
  split.
  { rewrite Hfail, (sum_list_zero _ Hf0), Hcfg, !Forall_fmap. done. }
  intros Hn.
  assert (Hsum : TestSuite.total_passed s + TestSuite.total_failed s
                 = TestSuite.total_tests s).
  { rewrite Hpass, Hfail, Htests, <- Hl, length_fmap. clear - Hall Hn.
    induction Hall as [|x l (_ & _ & Hx) _ IH]; [simpl; unfold sum_list; simpl; lia|].
    rewrite !fmap_cons, !sum_list_cons, length_cons, Nat2Z.inj_succ. lia. }
  split; [exact Hsum|]. rewrite Hbox. lia.
Qed.

(** X10.  What the final summary prints is what the dashboard shows.
    The run ends with the summary, at most one warning about the link,
    and the three closing lines; the numbers of the summary (the sizes of
    the two lists, the three totals and the total duration) are those of
    the dashboard's "Overall Summary", and the dashboard is in the file
    the closing lines announce. *)
Theorem final_summary_matches_dashboard (widths pipe_stages : list Z) (n : Z) (w : world) :
  let i := TestSuite.init widths pipe_stages n w in
  let r := TestSuite.run i.1 i.2 in
  let d := TestSuite.dashboard r.1 in
  let root := TestSuite.log_dir i.1 in
  ∃ before dlink,
    since w r.2
    = before
      ++ [Print (FinalSummary (dp_counts d).1 (dp_counts d).2
                   (dp_totals d).1.1.1 (dp_totals d).1.1.2 (dp_totals d).1.2
                   (dp_totals d).2)]
      ++ dlink
      ++ [Print (Literal "Test suite completed!"); Print (DashboardAt root);
          Print (Literal "View the report at: latest_results/dashboard.html")] ∧
    (dlink = [] ∨ dlink = [Print SymlinkWarning]) ∧
    dp_counts d = (length widths, length pipe_stages) ∧
    dp_totals d = (TestSuite.total_tests r.1, TestSuite.total_passed r.1,
                   TestSuite.total_failed r.1, TestSuite.total_duration r.1) ∧
    fs r.2 !! (root +:+ "/dashboard.html") = Some (File (DashboardPage d)).
Proof.
  intros i r d root.
  assert (Hroot : root = "simulation_logs_" +:+ today w) by done.
  destruct (suite_spec widths pipe_stages n w _ _ _ _
              (surjective_pairing (TestSuite.init widths pipe_stages n w))
              (surjective_pairing r))
    as (results & dl & dlink & t0 & t1 & fl & Hws & Hps & _ & _ & _ & _ & _ & _
        & _ & _ & Hdur & Htr & _ & _ & _ & _ & Hdash & _ & Hlink).
  exists ([Today (today w); Clock t0; Print (SuiteBanner n widths pipe_stages)]
          ++ dl ++ [Clock t1]), dlink.
  rewrite Hroot. split; [|split; [|split; [|split]]].
  - rewrite (since_app _ _ _ Htr). subst d. unfold TestSuite.dashboard. simpl.
    rewrite Hws, Hps, Hdur. rewrite <- !(assoc_L (++)). done.
  - destruct Hlink as [(_ & _ & ->)|(_ & _ & ->)]; [by left|by right].
  - subst d. unfold TestSuite.dashboard. simpl. by rewrite Hws, Hps.
  - done.
  - destruct Hlink as [(_ & -> & _)|(_ & -> & _)]; [|done].
    rewrite lookup_insert_ne; [done|].
    intros Heq. apply latest_not_in_logs. rewrite Heq.
    eexists. by rewrite str_app_assoc.
Qed.

(** X11.  Nothing to run.  A suite run launches no compiler exactly when
    the list of widths is empty, the list of pipeline depths is empty, or
    [total_modules] is not positive (none of which [main] lets through).
    It then counts no passed and no failed test, shows the "ALL TESTS
    PASSED" box, and still writes the dashboard; with [total_modules]
    below 0 and both lists non-empty, [total_tests] is negative. *)
Theorem nothing_to_run (widths pipe_stages : list Z) (n : Z) (w : world) :
  let i := TestSuite.init widths pipe_stages n w in
  let r := TestSuite.run i.1 i.2 in
  let s := r.1 in
  (compiles (since w r.2) = [] ↔ widths = [] ∨ pipe_stages = [] ∨ n ≤ 0) ∧
  (compiles (since w r.2) = [] →
     TestSuite.total_passed s = 0 ∧ TestSuite.total_failed s = 0 ∧
     dp_box (TestSuite.dashboard s) = None ∧
     Forall (λ pf, pf = (0, 0)) (config_totals (since w r.2)) ∧
     fs r.2 !! (TestSuite.log_dir s +:+ "/dashboard.html")
       = Some (File (DashboardPage (TestSuite.dashboard s)))) ∧
  TestSuite.total_tests s = n * Z.of_nat (length widths) * Z.of_nat (length pipe_stages) ∧
  (n < 0 → widths ≠ [] → pipe_stages ≠ [] → TestSuite.total_tests s < 0).
Proof.
  intros i r s. subst s.
  destruct (suite_spec widths pipe_stages n w _ _ _ _
              (surjective_pairing (TestSuite.init widths pipe_stages n w))
              (surjective_pairing r))
    as (results & dl & dlink & t0 & t1 & fl & _ & _ & _ & Hdir & Hl & Hall & _ & Htests
        & Hpass & Hfail & _ & Htr & Hc & Htot & _ & _ & Hdash & _ & Hlink).
  set (s := r.1) in *.
  assert (Hsil : compiles dlink = [] ∧ config_totals dlink = [])
    by (destruct Hlink as [(_ & _ & ->)|(_ & _ & ->)]; done).
  destruct Hsil as [Hsil1 Hsil2].
  destruct (closing_silent ("simulation_logs_" +:+ today w)) as (Hcl1 & _ & Hcl2 & _).
  assert (Hcomp : compiles (since w r.2) = triples n (pairs widths pipe_stages)).
  { rewrite (since_app _ _ _ Htr), !compiles_app, Hc, Hsil1, Hcl1. simpl.
    by rewrite app_nil_r. }
  assert (Hcfg : config_totals (since w r.2)
                 = (λ r, (res_passed r, res_failed r)) <$> results).
  { rewrite (since_app _ _ _ Htr), !config_totals_app, Htot, Hsil2, Hcl2. simpl.
    by rewrite app_nil_r. }
  assert (Hlen : length (pairs widths pipe_stages)
                 = (length widths * length pipe_stages)%nat) by apply pairs_length.
  assert (Hiff : compiles (since w r.2) = [] ↔ widths = [] ∨ pipe_stages = [] ∨ n ≤ 0).
  { rewrite Hcomp. split; [unfold triples|].
    - intros Hnil. destruct (decide (n ≤ 0)) as [?|Hn]; [tauto|].
      destruct (pairs widths pipe_stages) as [|wp l] eqn:Hp.
      + destruct widths, pipe_stages; try tauto. simpl in Hlen. lia.
      + exfalso. rewrite bind_cons in Hnil. apply app_eq_nil in Hnil as [Hnil _].
        apply fmap_nil_inv in Hnil.
        pose proof (range_length 1 (n + 1)) as Hr. rewrite Hnil in Hr. simpl in Hr. lia.
    - intros [->|[->|Hn]].
      + done.
      + replace (pairs widths []) with (@nil (Z * Z)); [done|].
        symmetry. apply length_zero_iff_nil. rewrite pairs_length. simpl. lia.
      + by apply triples_none. }
  split; [exact Hiff|]. split; [|split].
  - intros Hnil. apply Hiff in Hnil.
    assert (Hzero : Forall (λ r, res_passed r = 0 ∧ res_failed r = 0) results).
    { destruct Hnil as [->|[->|Hn]].
      - destruct results; [done|]. discriminate Hl.
      - replace (pairs widths []) with (@nil (Z * Z)) in Hl.
        + destruct results; [done|]. discriminate Hl.
        + symmetry. apply length_zero_iff_nil. rewrite pairs_length. simpl. lia.
      - eapply Forall_impl; [exact Hall|]. simpl. lia. }
    assert (Hp : TestSuite.total_passed s = 0).
    { rewrite Hpass. clear - Hzero.
      induction Hzero as [|x l [Hx _] _ IH]; [done|].
      rewrite fmap_cons, sum_list_cons. lia. }
    assert (Hf : TestSuite.total_failed s = 0).
    { rewrite Hfail. clear - Hzero.
      induction Hzero as [|x l [_ Hx] _ IH]; [done|].
      rewrite fmap_cons, sum_list_cons. lia. }
    split; [done|]. split; [done|]. split.
    { unfold TestSuite.dashboard. simpl. by rewrite decide_True. }
    split.
    { rewrite Hcfg. apply Forall_fmap. eapply Forall_impl; [exact Hzero|].
      simpl. by intros x [-> ->]. }
    rewrite Hdir.
    destruct Hlink as [(_ & -> & _)|(_ & -> & _)]; [|done].
    rewrite lookup_insert_ne; [done|].
    intros Heq. apply latest_not_in_logs. rewrite Heq.
    eexists. by rewrite str_app_assoc.
  - rewrite Htests, Hlen. lia.
  - intros Hn Hw Hp. rewrite Htests, Hlen.
    destruct widths; [done|]. destruct pipe_stages; [done|]. simpl. nia.
Qed.

End SuiteResults.

(** ** Where a run writes *)






Section SuiteFiles.
Context `{Env}.

(** A suite run, step by step: [__init__], the nested loops, the rest. *)
Lemma suite_steps (widths pipe_stages : list Z) (n : Z) (w : world) :
  TestSuite.run (TestSuite.init widths pipe_stages n w).1
                (TestSuite.init widths pipe_stages n w).2
  = finish (clock (TestSuite.init widths pipe_stages n w).2)
      (ConfigurationTest.for_each (pairs widths pipe_stages) run_pair
         (TestSuite.init widths pipe_stages n w).1
         (loop_start (TestSuite.init widths pipe_stages n w).1
                     (TestSuite.init widths pipe_stages n w).2)).1
      (ConfigurationTest.for_each (pairs widths pipe_stages) run_pair
         (TestSuite.init widths pipe_stages n w).1
         (loop_start (TestSuite.init widths pipe_stages n w).1
                     (TestSuite.init widths pipe_stages n w).2)).2.
Proof.
  rewrite run_unfold, suite_init_spec. simpl.
  by destruct (ConfigurationTest.for_each _ _ _ _).
Qed.



(** One configuration, with its report. *)
Lemma run_config_report (width : Z) (self : TestSuite.t) (pipe_stages : Z) (w : world)
    self' w' :
  TestSuite.run_config width self pipe_stages w = (self', w') →
  ∃ r page,
    self' = TestSuite.record_config (ModuleTest.key_of width pipe_stages) r self ∧
    res_width r = width ∧ res_pipe_stages r = pipe_stages ∧
    fs w' !! (ModuleTest.dir_of (TestSuite.log_dir self) width pipe_stages
              +:+ "/report.html") = Some (File (ConfigPage page)) ∧
    cp_width page = width ∧ cp_pipe_stages page = pipe_stages ∧
    cp_passed page = res_passed r ∧ cp_failed page = res_failed r ∧
    cp_duration page = res_duration r ∧
    writes (config_dirs (TestSuite.log_dir self) width pipe_stages)
           (config_files (TestSuite.log_dir self) width pipe_stages)
           (fs w) (fs w').
Proof.
  intros Hrun.
  destruct (run_config_spec _ _ _ _ _ _ Hrun)
    as (r0 & delta & _ & _ & _ & _ & _ & _ & _ & _ & _ & _ & Hw).
  revert Hrun. unfold TestSuite.run_config. unfold mbind, M_bind.
  destruct (ConfigurationTest.init _ _ _ _ w) as [c0 w0] eqn:Hinit.
  destruct (ConfigurationTest.run c0 w0) as [[[[passed failed] duration] c] w1] eqn:Hrun.
  destruct (config_run_spec _ _ _ _ _ _ _ _ _ _ _ _ Hinit Hrun)
    as (delta' & Hp & Hf & Hd & _ & _ & _ & _ & _ & _ & _ & _ & _ & Hrep).
  unfold mret, M_ret. intros [= <- <-].
  eexists _, _. split; [reflexivity|]. simpl.
  split; [done|]. split; [done|]. split; [exact Hrep|].
  assert (Hc : ConfigurationTest.width c = width ∧
               ConfigurationTest.pipe_stages c = pipe_stages).
  { revert Hinit Hrun. unfold ConfigurationTest.init. unfold_M.
    intros [= <- <-] Hrun.
    unfold ConfigurationTest.run, ConfigurationTest._print_summary,
      ConfigurationTest._generate_html_report in Hrun. unfold_M.
    destruct (ConfigurationTest.for_each _ _ _ _) as [c1 w2] eqn:Hloop.
    apply module_loop_spec in Hloop as (new & d & -> & _).
    rewrite print_rows_spec in Hrun. simpl in Hrun.
    injection Hrun as <- <- <- <- <-. done. }
  destruct Hc as [Hcw Hcp]. unfold ConfigurationTest.report. simpl.
  repeat split; done.
Qed.

Lemma report_path_inj (L : string) (w p w' p' : Z) :
  ModuleTest.dir_of L w p +:+ "/report.html" = ModuleTest.dir_of L w' p' +:+ "/report.html" →
  w = w' ∧ p = p'.
Proof.
  change ("/report.html") with ("/" +:+ "report.html").
  by intros (-> & -> & _)%dir_of_file_inj.
Qed.

(** The loops keep the reports in step with the dictionary. *)
Lemma pair_loop_reports (l : list (Z * Z)) (self : TestSuite.t) (w : world) self' w' :
  ConfigurationTest.for_each l run_pair self w = (self', w') →
  reports_agree (TestSuite.log_dir self) (TestSuite.config_results self) (fs w) →
  reports_agree (TestSuite.log_dir self) (TestSuite.config_results self') (fs w').
Proof.
  revert self w. induction l as [|[wd p] l IH]; intros self w; simpl.
  - unfold mret, M_ret. by intros [= <- <-].
  - unfold mbind, M_bind.
    destruct (run_pair self (wd, p) w) as [self1 w1] eqn:Hhd.
    unfold run_pair in Hhd. simpl in Hhd.
    apply run_config_report in Hhd
      as (r & page & -> & Hrw & Hrp & Hrep & Hpw & Hpp & Hpa & Hpf & Hpd & Hw).
    intros Hrest Hinv. apply IH in Hrest; [exact Hrest|]. simpl.
    intros width p' r' Hr'.
    destruct (decide (ModuleTest.key_of width p' = ModuleTest.key_of wd p)) as [Hk|Hk].
    + rewrite Hk, lookup_insert_eq in Hr'. injection Hr' as <-.
      apply key_of_inj in Hk as [-> ->]. exists page. done.
    + rewrite lookup_insert_ne in Hr' by done.
      destruct (Hinv width p' r' Hr') as (page' & Hfile & Hrest').
      exists page'. split; [|exact Hrest'].
      rewrite <- Hfile. eapply writes_keeps; [exact Hw|by rewrite Hfile|].
      intros [x Hx].
      change ("/report.html") with ("/" +:+ "report.html") in Hx.
      apply dir_of_file_inj in Hx as (-> & -> & _). done.
Qed.

(** X13.  The table of configurations of the dashboard and the reports
    it links to.  After a suite run the table has one row per pair of
    the nested loops, in their order; the row of a pair shows the counts
    and the duration of the entry of [config_results] for that pair (for
    a repeated pair, those of its last run), is highlighted exactly when
    that entry has a failure, and its link, resolved from the output
    root, is the report file of that configuration, which shows the same
    width, pipeline depth, counts and duration. *)
Theorem dashboard_rows_link_reports (widths pipe_stages : list Z) (n : Z) (w : world) :
  let i := TestSuite.init widths pipe_stages n w in
  let r := TestSuite.run i.1 i.2 in
  let root := TestSuite.log_dir i.1 in
  ∃ rs,
    dp_rows (TestSuite.dashboard r.1) = row_of_result <$> rs ∧
    (λ e, (res_width e, res_pipe_stages e)) <$> rs = pairs widths pipe_stages ∧
    Forall (λ e,
      TestSuite.config_results r.1 !! ModuleTest.key_of (res_width e) (res_pipe_stages e)
        = Some e ∧
      ∃ page,
        fs r.2 !! (root +:+ "/" +:+ report_link (res_width e) (res_pipe_stages e))
          = Some (File (ConfigPage page)) ∧
        cp_width page = res_width e ∧ cp_pipe_stages page = res_pipe_stages e ∧
        cp_passed page = res_passed e ∧ cp_failed page = res_failed e ∧
        cp_duration page = res_duration e) rs.
Proof.
  intros i r root.
  assert (Hroot : root = "simulation_logs_" +:+ today w) by done.
  (* the reports agree with the dictionary at the end *)
  assert (Hagree : reports_agree root (TestSuite.config_results r.1) (fs r.2)).
  { subst r root i. rewrite suite_steps.
    set (i := TestSuite.init widths pipe_stages n w).
    set (root := TestSuite.log_dir i.1) in *.
    destruct (ConfigurationTest.for_each _ _ _ _) as [s1 w1] eqn:Hloop.
    pose proof Hloop as Hloop'.
    apply pair_loop_reports in Hloop';
      [|intros ? ? ? He; subst i; rewrite suite_init_spec in He;
        cbn [fst TestSuite.config_results] in He; by apply lookup_empty_Some in He].
    apply pair_loop_spec in Hloop as (_ & _ & (_ & _ & _ & _ & Hdir) & _).
    cbn [fst snd]. destruct (finish (clock i.2) s1 w1) as [s2 w2] eqn:Hfin.
    apply finish_spec in Hfin as (t1 & dlink & -> & Hlink & _). simpl in *.
    assert (Hd : TestSuite.log_dir s1 = root) by (rewrite Hdir; done).
    rewrite Hd in Hlink.
    intros width p e He. destruct (Hloop' width p e He) as (page & Hfile & Hrest).
    exists page. split; [|exact Hrest].
    assert (Hfl : <[root +:+ "/dashboard.html" :=
                      File (DashboardPage (TestSuite.dashboard
                        (TestSuite.set_total_duration (t1 - clock i.2) s1)))]> (fs w1)
                  !! (ModuleTest.dir_of root width p +:+ "/report.html")
                  = Some (File (ConfigPage page))).
    { rewrite lookup_insert_ne; [exact Hfile|].
      unfold ModuleTest.dir_of. rewrite !str_app_assoc.
      intros Heq%(inj (String.app root)). discriminate Heq. }
    destruct Hlink as [(_ & -> & _)|(_ & -> & _)]; [|exact Hfl].
    rewrite lookup_insert_ne; [exact Hfl|].
    intros Heq. apply latest_not_in_logs. rewrite Heq.
    change root with ("simulation_logs_" +:+ today w).
    unfold ModuleTest.dir_of. eexists. by rewrite !str_app_assoc. }
  destruct (suite_spec widths pipe_stages n w _ _ _ _
              (surjective_pairing (TestSuite.init widths pipe_stages n w))
              (surjective_pairing r))
    as (results & dl & dlink & t0 & t1 & fl & Hws & Hps & _).
  destruct (dashboard_rows_of r.1) as (rs & Hrows & Hpairs & Hent).
  { rewrite Hws, Hps. exact (suite_entries_present widths pipe_stages n w). }
  rewrite Hws, Hps in Hpairs.
  exists rs. split; [exact Hrows|]. split; [exact Hpairs|].
  eapply Forall_impl; [exact Hent|]. simpl. intros e He. split; [exact He|].
  destruct (Hagree _ _ _ He) as (page & Hfile & Hrest).
  exists page. split; [|exact Hrest]. rewrite <- Hfile. f_equal.
  unfold report_link, ModuleTest.dir_of. rewrite !str_app_assoc. done.
Qed.

End SuiteFiles.

(** ** Replaying a run from the answers of the environment *)

Lemma clocked_nil `{Env} (pre : list event) : clocked pre [].
Proof. intros i t Hi. by rewrite lookup_nil in Hi. Qed.

Lemma clocked_app `{Env} (pre d1 d2 : list event) :
  clocked pre d1 → clocked (pre ++ d1) d2 → clocked pre (d1 ++ d2).
Proof.
  intros H1 H2 i t Hi. destruct (decide (i < length d1)%nat) as [Hlt|Hge].
  - rewrite lookup_app_l in Hi by done.
    destruct (H1 i t Hi) as (wi & Htr & ->). exists wi. split; [|done].
    rewrite Htr. f_equal. rewrite take_app_le by lia. done.
  - rewrite lookup_app_r in Hi by lia.
    destruct (H2 _ t Hi) as (wi & Htr & ->). exists wi. split; [|done].
    rewrite Htr, <- (assoc_L (++)). f_equal.
    rewrite take_app_ge by lia. done.
Qed.

Lemma clocked_print `{Env} (pre : list event) (l : line) : clocked pre [Print l].
Proof. intros [|i] t Hi; simpl in Hi; done. Qed.

Lemma clocked_silent `{Env} (pre d : list event) :
  (∀ t, Clock t ∉ d) → clocked pre d.
Proof. intros Hd i t Hi. exfalso. apply (Hd t). by eapply list_elem_of_lookup_2. Qed.

Lemma clocked_read `{Env} (w : world) : clocked (trace w) [Clock (clock w)].
Proof.
  intros [|i] t Hi; simpl in Hi; [|done].
  injection Hi as <-. exists w. simpl. by rewrite app_nil_r.
Qed.

Section Replay.
Context `{Env}.

(** One module run. *)
Lemma run_test_replay (self : ModuleTest.t) (w : world) ok self' w' :
  ModuleTest.run_test self w = (ok, self', w') →
  ∃ o, mo_launch_ok o ∧
    self' = ModuleTest.set_outcome (mo_status o) (mo_duration o) self ∧
    ok = bool_decide (mo_status o = PASSED) ∧
    trace w' = trace w ++ mo_events (ModuleTest.width self)
                 (ModuleTest.pipe_stages self) (ModuleTest.module_id self) o ∧
    clocked (trace w) (mo_events (ModuleTest.width self)
                 (ModuleTest.pipe_stages self) (ModuleTest.module_id self) o) ∧
    fs w' = <[ModuleTest.log_file self := File (Text (mo_log o))]> (fs w).
Proof.
  unfold ModuleTest.run_test, ModuleTest.subprocess_run. unfold_M.
  set (c := Compile _ _ _). set (s := Simulate _ _ _).
  destruct (tool _ c) as [rc out] eqn:Hc.
  rewrite append_out_insert. change ("" +:+ out) with out.
  case_decide as Hrc.
  - intros [= <- <- <-].
    eexists {| mo_start := clock w; mo_rc := rc; mo_out := out; mo_sim := None;
               mo_end := _ |}.
    unfold mo_launch_ok, mo_status, mo_duration, mo_events, mo_log. simpl.
    rewrite str_app_nil_r.
    split; [split; [done|by intros [? ?]]|]. split; [reflexivity|]. split; [done|].
    split; [by rewrite <- !(assoc_L (++))|]. split; [|done].
    intros [|[|[|[|[|i]]]]] t Hi; simpl in Hi; try done;
      injection Hi as <-; (eexists; split; [|reflexivity]); simpl;
      rewrite ?app_nil_r, <- ?(assoc_L (++)); done.
  - subst rc.
    destruct (tool _ s) as [rc2 out2] eqn:Hs. simpl.
    rewrite append_out_insert, lookup_insert_eq. simpl.
    destruct (Py.contains ModuleTest.marker (out +:+ out2)) eqn:Hm;
      intros [= <- <- <-];
      eexists {| mo_start := clock w; mo_rc := 0; mo_out := out;
                 mo_sim := Some (rc2, out2); mo_end := _ |};
      unfold mo_launch_ok, mo_status, mo_duration, mo_events, mo_log; simpl;
      rewrite Hm;
      (split; [split; [by eexists|done]|]); (split; [reflexivity|]); (split; [done|]);
      (split; [by rewrite <- !(assoc_L (++))|]); (split; [|done]);
      intros [|[|[|[|[|[|i]]]]]] t Hi; simpl in Hi; try done;
      injection Hi as <-; (eexists; split; [|reflexivity]); simpl;
      rewrite ?app_nil_r, <- ?(assoc_L (++)); done.
Qed.

(** The body of the loop over module ids. *)
Lemma run_module_replay (self : ConfigurationTest.t) (module_id : Z) (w : world)
    self' w' :
  ConfigurationTest.run_module self module_id w = (self', w') →
  ∃ o, mo_launch_ok o ∧
    ConfigurationTest.module_tests self'
      = ConfigurationTest.module_tests self
        ++ [mo_test (ConfigurationTest.log_dir self) (ConfigurationTest.width self)
              (ConfigurationTest.pipe_stages self) (module_id, o)] ∧
    trace w' = trace w ++ mo_events (ConfigurationTest.width self)
                 (ConfigurationTest.pipe_stages self) module_id o ∧
    clocked (trace w) (mo_events (ConfigurationTest.width self)
                 (ConfigurationTest.pipe_stages self) module_id o).
Proof.
  unfold ConfigurationTest.run_module. unfold mbind at 1. unfold M_bind at 1.
  rewrite module_init_spec.
  set (test0 := {| ModuleTest.module_id := module_id |}).
  set (w0 := with_fs _ w).
  unfold mbind, M_bind.
  destruct (ModuleTest.run_test test0 w0) as [[ok test] w1] eqn:Hrun.
  apply run_test_replay in Hrun as (o & Hwf & -> & _ & Htr & Hck & _).
  intros Hret. exists o. split; [done|].
  split; [|split; [|exact Hck]].
  - destruct ok; unfold mret, M_ret in Hret; injection Hret as <- <-; done.
  - destruct ok; unfold mret, M_ret in Hret; injection Hret as <- <-; exact Htr.
Qed.

Lemma run_module_same (self : ConfigurationTest.t) (module_id : Z) (w : world)
    self' w' :
  ConfigurationTest.run_module self module_id w = (self', w') →
  ConfigurationTest.width self' = ConfigurationTest.width self ∧
  ConfigurationTest.pipe_stages self' = ConfigurationTest.pipe_stages self ∧
  ConfigurationTest.log_dir self' = ConfigurationTest.log_dir self.
Proof. intros (test & delta & -> & _)%run_module_spec. done. Qed.

(** The loop over module ids. *)
Lemma module_loop_replay (ids : list Z) (self : ConfigurationTest.t) (w : world)
    self' w' :
  ConfigurationTest.for_each ids ConfigurationTest.run_module self w = (self', w') →
  ∃ ms, fst <$> ms = ids ∧ Forall (λ mo, mo_launch_ok mo.2) ms ∧
    ConfigurationTest.module_tests self'
      = ConfigurationTest.module_tests self
        ++ (mo_test (ConfigurationTest.log_dir self) (ConfigurationTest.width self)
              (ConfigurationTest.pipe_stages self) <$> ms) ∧
    trace w' = trace w ++ (ms ≫= λ mo, mo_events (ConfigurationTest.width self)
                             (ConfigurationTest.pipe_stages self) mo.1 mo.2) ∧
    clocked (trace w) (ms ≫= λ mo, mo_events (ConfigurationTest.width self)
                             (ConfigurationTest.pipe_stages self) mo.1 mo.2).
Proof.
  revert self w. induction ids as [|m ids IH]; intros self w; simpl.
  - unfold mret, M_ret. intros [= <- <-]. exists []. simpl.
    rewrite !app_nil_r. repeat split; done.
  - unfold mbind, M_bind.
    destruct (ConfigurationTest.run_module self m w) as [self1 w1] eqn:Hm.
    destruct (run_module_same _ _ _ _ _ Hm) as (Hw1 & Hp1 & Hl1).
    apply run_module_replay in Hm as (o & Hwf & Hts1 & Htr1 & Hck1).
    intros Hrest. apply IH in Hrest as (ms & Hids & Hwfs & Hts2 & Htr2 & Hck2).
    rewrite Hw1, Hp1, Hl1 in Hts2. rewrite Hw1, Hp1 in Htr2, Hck2.
    exists ((m, o) :: ms). rewrite !fmap_cons, bind_cons. cbn [fst snd].
    split; [by rewrite Hids|]. split; [by constructor|].
    split; [by rewrite Hts2, Hts1, <- (assoc_L (++))|].
    split; [by rewrite Htr2, Htr1, <- (assoc_L (++))|].
    apply clocked_app; [exact Hck1|]. by rewrite <- Htr1.
Qed.

End Replay.

(** ** Counting over the answers *)

Lemma mo_status_ran (o : module_outcome) : mo_status o ∈ ran.
Proof.
  unfold mo_status, ran. destruct (mo_sim o); [destruct (Py.contains _ _)|];
    repeat constructor.
Qed.

Lemma filter_fmap_length {A B : Type} (P : B → Prop) `{!∀ x, Decision (P x)}
    (Q : A → Prop) `{!∀ x, Decision (Q x)} (f : A → B) (l : list A) :
  (∀ x, P (f x) ↔ Q x) →
  length (filter P (f <$> l)) = length (filter Q l).
Proof.
  intros HPQ. induction l as [|x l IH]; [done|].
  rewrite fmap_cons, !filter_cons.
  destruct (decide (P (f x))) as [HP|HP], (decide (Q x)) as [HQ|HQ];
    simpl; rewrite ?IH; try done; exfalso; by apply HPQ in HP || apply HPQ in HQ.
Qed.

Lemma count_passed_tests (L : string) (width p : Z) (ms : list (Z * module_outcome)) :
  count_status [PASSED] (mo_test L width p <$> ms)
  = Z.of_nat (length (filter (λ mo, mo_status mo.2 = PASSED) ms)).
Proof.
  unfold count_status. f_equal. apply filter_fmap_length.
  intros mo. simpl. by rewrite list_elem_of_singleton.
Qed.

Lemma count_failed_tests (L : string) (width p : Z) (ms : list (Z * module_outcome)) :
  count_status [FAILED; COMPILE_FAILED] (mo_test L width p <$> ms)
  = Z.of_nat (length (filter (λ mo, mo_status mo.2 ≠ PASSED) ms)).
Proof.
  unfold count_status. f_equal. apply filter_fmap_length.
  intros mo. simpl.
  pose proof (mo_status_ran mo.2) as Hran.
  destruct (mo_status mo.2).
  - exfalso. by apply (bool_decide_eq_false_1 (UNKNOWN ∈ ran)) in Hran.
  - split; [|done]. intros Hx.
    by apply (bool_decide_eq_false_1 (PASSED ∈ [FAILED; COMPILE_FAILED])) in Hx.
  - split; [done|]. intros _. repeat constructor.
  - split; [done|]. intros _. repeat constructor.
Qed.

Lemma co_counts_total (c : config_outcome) :
  0 ≤ co_passed c ∧ 0 ≤ co_failed c ∧
  co_passed c + co_failed c = Z.of_nat (length (co_modules c)).
Proof.
  unfold co_passed, co_failed. split; [lia|]. split; [lia|].
  induction (co_modules c) as [|mo ms IH]; [done|].
  rewrite !filter_cons. destruct (decide (mo_status mo.2 = PASSED)) as [Hp|Hp].
  - rewrite decide_False by (intros Hn; by apply Hn). simpl length. lia.
  - rewrite decide_True by done. simpl length. lia.
Qed.

Section ReplayConfiguration.
Context `{Env}.

(** One configuration: [__init__] followed by [run]. *)
Lemma config_run_replay (width pipe_stages n : Z) (log_dir : string) (w : world)
    c0 w0 passed failed duration c w' :
  ConfigurationTest.init width pipe_stages n log_dir w = (c0, w0) →
  ConfigurationTest.run c0 w0 = (passed, failed, duration, c, w') →
  ∃ co, co_width co = width ∧ co_pipe_stages co = pipe_stages ∧ co_ok n co ∧
    ConfigurationTest.module_tests c = mo_test log_dir width pipe_stages <$> co_modules co ∧
    passed = co_passed co ∧ failed = co_failed co ∧ duration = co_duration co ∧
    ConfigurationTest.width c = width ∧ ConfigurationTest.pipe_stages c = pipe_stages ∧
    ConfigurationTest.total_modules c = n ∧
    trace w' = trace w ++ co_events co ∧
    clocked (trace w) (co_events co).
Proof.
  intros Hinit Hrun.
  destruct (config_run_spec _ _ _ _ _ _ _ _ _ _ _ _ Hinit Hrun)
    as (_ & _ & _ & _ & Hp & Hf & _).
  revert Hinit Hrun Hp Hf. unfold ConfigurationTest.init. unfold_M. intros [= <- <-].
  unfold ConfigurationTest.run, ConfigurationTest._print_summary,
    ConfigurationTest._generate_html_report. unfold_M.
  match goal with
  | |- context [ConfigurationTest.for_each ?l ?b ?s ?ws] => set (ws0 := ws); set (c00 := s)
  end.
  destruct (ConfigurationTest.for_each _ _ c00 ws0) as [c1 w1] eqn:Hloop.
  pose proof Hloop as Hloop'.
  apply module_loop_spec in Hloop' as (new & d & Hc1 & _).
  apply module_loop_replay in Hloop as (ms & Hids & Hwf & Hts & Htr & Hck).
  rewrite print_rows_spec. simpl.
  intros [= <- <- <- <- <-] Hp Hf. simpl in Hp, Hf, Hts |- *.
  rewrite Hts in Hp, Hf. rewrite count_passed_tests in Hp.
  rewrite count_failed_tests in Hf.
  eexists {| co_width := width; co_pipe_stages := pipe_stages; co_start := _;
             co_modules := ms; co_end := clock w1 |}.
  unfold co_ok, co_passed, co_failed, co_duration, co_events. simpl.
  assert (Hfields : ConfigurationTest.width c1 = width ∧
                    ConfigurationTest.pipe_stages c1 = pipe_stages ∧
                    ConfigurationTest.total_modules c1 = n) by (by rewrite Hc1).
  destruct Hfields as (Hw1 & Hp1 & Hn1).
  split; [done|]. split; [done|]. split; [done|]. split; [exact Hts|].
  split; [exact Hp|]. split; [exact Hf|]. split; [reflexivity|].
  split; [done|]. split; [done|]. split; [done|].
  assert (Hrows : ((λ test, Print (ConfigSummaryRow (ModuleTest.module_id test)
                      (ModuleTest.status test) (ModuleTest.duration test)))
                   <$> ConfigurationTest.module_tests c1)
                  = summary_row <$> ms).
  { rewrite Hts, <- list_fmap_compose. done. }
  split.
  - rewrite Hrows, Htr, Hw1, Hp1, Hp, Hf. subst ws0. simpl.
    rewrite <- !(assoc_L (++)). done.
  - apply (clocked_app _ [Print _; Clock _]).
    { intros [|[|i]] t Hi; simpl in Hi; try done. injection Hi as <-.
      eexists. split; [|reflexivity]. done. }
    apply clocked_app.
    { replace (trace w ++ [Print (ConfigBanner width pipe_stages); Clock _])
        with (trace ws0); [exact Hck|].
      subst ws0. simpl. by rewrite <- !(assoc_L (++)). }
    apply (clocked_app _ [Clock _; Print _]).
    { intros [|[|i]] t Hi; simpl in Hi; try done. injection Hi as <-.
      exists w1. rewrite Htr. subst ws0. simpl.
      rewrite <- !(assoc_L (++)), app_nil_r. done. }
    apply clocked_silent. intros t Hin.
    apply elem_of_app in Hin as [Hin|Hin].
    + apply list_elem_of_fmap in Hin as (mo & Hmo & _). discriminate Hmo.
    + apply list_elem_of_singleton in Hin. discriminate Hin.
Qed.

(** The body of the inner loop of the suite. *)
Lemma run_config_replay (width : Z) (self : TestSuite.t) (pipe_stages : Z) (w : world)
    self' w' :
  TestSuite.run_config width self pipe_stages w = (self', w') →
  ∃ co, co_width co = width ∧ co_pipe_stages co = pipe_stages ∧
    co_ok (TestSuite.total_modules self) co ∧
    self' = TestSuite.record_config (ModuleTest.key_of width pipe_stages)
              (co_result co) self ∧
    trace w' = trace w ++ co_events co ∧
    clocked (trace w) (co_events co).
Proof.
  unfold TestSuite.run_config. unfold mbind, M_bind.
  destruct (ConfigurationTest.init _ _ _ _ w) as [c0 w0] eqn:Hinit.
  destruct (ConfigurationTest.run c0 w0) as [[[[passed failed] duration] c] w1] eqn:Hrun.
  destruct (config_run_replay _ _ _ _ _ _ _ _ _ _ _ _ Hinit Hrun)
    as (co & Hw & Hp & Hok & _ & -> & -> & -> & _ & _ & _ & Htr & Hck).
  unfold mret, M_ret. intros [= <- <-]. exists co.
  split; [done|]. split; [done|]. split; [done|].
  split; [|done]. unfold co_result. by rewrite Hw, Hp.
Qed.

(** The suite object after the configurations [cos] are recorded. *)
Lemma pair_loop_replay (l : list (Z * Z)) (self : TestSuite.t) (w : world) self' w' :
  ConfigurationTest.for_each l run_pair self w = (self', w') →
  ∃ cos, (λ c, (co_width c, co_pipe_stages c)) <$> cos = l ∧
    Forall (co_ok (TestSuite.total_modules self)) cos ∧
    TestSuite.config_results self'
      = foldl store (TestSuite.config_results self) (co_result <$> cos) ∧
    TestSuite.total_passed self'
      = TestSuite.total_passed self + sum_list (co_passed <$> cos) ∧
    TestSuite.total_failed self'
      = TestSuite.total_failed self + sum_list (co_failed <$> cos) ∧
    trace w' = trace w ++ (cos ≫= co_events) ∧
    clocked (trace w) (cos ≫= co_events).
Proof.
  revert self w. induction l as [|[wd p] l IH]; intros self w; simpl.
  - unfold mret, M_ret. intros [= <- <-]. exists []. simpl.
    rewrite app_nil_r. unfold sum_list. simpl. rewrite !Z.add_0_r.
    repeat split; done.
  - unfold mbind, M_bind.
    destruct (run_pair self (wd, p) w) as [self1 w1] eqn:Hhd.
    unfold run_pair in Hhd. cbn [fst snd] in Hhd.
    apply run_config_replay in Hhd as (co & Hcw & Hcp & Hok & -> & Htr1 & Hck1).
    intros Hrest. apply IH in Hrest
      as (cos & Hl & Hall & Hres & Hpass & Hfail & Htr2 & Hck2).
    simpl in Hall, Hres, Hpass, Hfail.
    exists (co :: cos). rewrite !fmap_cons, bind_cons, !sum_list_cons.
    split; [by rewrite Hcw, Hcp, Hl|]. split; [by constructor|].
    split.
    { rewrite Hres. simpl. f_equal. unfold store. simpl. by rewrite Hcw, Hcp. }
    split; [rewrite Hpass; lia|]. split; [rewrite Hfail; lia|].
    split; [by rewrite Htr2, Htr1, <- (assoc_L (++))|].
    apply clocked_app; [exact Hck1|]. by rewrite <- Htr1.
Qed.

Lemma finish_clock (start_time : Z) (self : TestSuite.t) (w : world) :
  TestSuite.total_duration (finish start_time self w).1 = clock w - start_time.
Proof.
  unfold finish, TestSuite._print_summary, TestSuite._generate_dashboard.
  unfold mbind, M_bind, mret, M_ret, time_time, print, write_page.
  by destruct (TestSuite.link_latest _ _) as [[] w2].
Qed.

(** A whole suite run, replayed. *)
Lemma suite_replay (widths pipe_stages : list Z) (n : Z) (w : world) :
  let i := TestSuite.init widths pipe_stages n w in
  let r := TestSuite.run i.1 i.2 in
  ∃ o, so_stamp o = today w ∧
    (λ c, (co_width c, co_pipe_stages c)) <$> so_configs o = pairs widths pipe_stages ∧
    Forall (co_ok n) (so_configs o) ∧
    (so_link o = [] ∨ so_link o = [Print SymlinkWarning]) ∧
    TestSuite.config_results r.1 = foldl store ∅ (co_result <$> so_configs o) ∧
    TestSuite.total_passed r.1 = so_passed o ∧
    TestSuite.total_failed r.1 = so_failed o ∧
    TestSuite.total_tests r.1 = n * Z.of_nat (length (so_configs o)) ∧
    TestSuite.total_duration r.1 = so_end o - so_start o ∧
    since w r.2 = so_events widths pipe_stages n o ∧
    clocked (trace w) (so_events widths pipe_stages n o).
Proof.
  intros i r. subst r i. rewrite suite_steps, suite_init_spec. cbn [fst snd].
  set (s0 := {| TestSuite.widths := widths |}).
  set (w0 := {| fs := foldl mkdir_if_absent _ _; trace := trace w ++ [Today (today w)] |}).
  assert (Hw0 : trace w0 = trace w ++ [Today (today w)]) by done.
  clearbody w0.
  destruct (ConfigurationTest.for_each _ _ _ (loop_start s0 w0)) as [s1 w1] eqn:Hloop.
  pose proof Hloop as Hloop'.
  apply pair_loop_spec in Hloop'
    as (_ & _ & (Hws & Hps & Hn & _ & Hdir) & _ & _ & _ & _ & Htests & _).
  apply pair_loop_replay in Hloop
    as (cos & Hl & Hall & Hres & Hpass & Hfail & Htr & Hck).
  cbn [fst snd]. pose proof (finish_clock (clock w0) s1 w1) as Hclock.
  destruct (finish (clock w0) s1 w1) as [s2 w2] eqn:Hfin.
  apply finish_spec in Hfin as (t1 & dlink & -> & Hlink & Htr').
  cbn [fst snd] in Hclock |- *.
  assert (Ht1 : t1 = clock w1) by (simpl in Hclock; lia).
  simpl in Hws, Hps, Hn, Hdir, Hall, Hres, Hpass, Hfail, Htests, Htr, Hck.
  rewrite Hw0 in Htr, Hck.
  assert (Hlen : length (pairs widths pipe_stages) = length cos)
    by (by rewrite <- Hl, length_fmap).
  exists {| so_stamp := today w; so_start := clock w0; so_configs := cos;
            so_end := t1; so_link := dlink |}.
  unfold so_passed, so_failed, so_events. simpl.
  split; [done|]. split; [done|]. split; [done|].
  split; [destruct Hlink as [(_ & _ & ->)|(_ & _ & ->)]; [by left|by right]|].
  split; [done|]. split; [rewrite Hpass; lia|]. split; [rewrite Hfail; lia|].
  split; [rewrite Htests, Hlen; lia|]. split; [done|].
  assert (Htrace : trace w2 = trace w ++
    [Today (today w); Clock (clock w0); Print (SuiteBanner n widths pipe_stages)] ++
    (cos ≫= co_events) ++
    [Clock t1;
     Print (FinalSummary (length widths) (length pipe_stages)
              (n * Z.of_nat (length cos)) (sum_list (co_passed <$> cos))
              (sum_list (co_failed <$> cos)) (t1 - clock w0))] ++
    dlink ++ closing ("simulation_logs_" +:+ today w)).
  { rewrite Htr', Htr, Hws, Hps, Hdir, Htests, Hlen, Hpass, Hfail.
    rewrite <- !(assoc_L (++)). simpl. do 6 f_equal. }
  split; [by apply since_app|].
  (* the clock *)
  apply (clocked_app _ [Today _; Clock _; Print _]).
  { intros [|[|[|k]]] t Hk; simpl in Hk; try done. injection Hk as <-.
    exists w0. by rewrite Hw0. }
  apply clocked_app.
  { revert Hck. by rewrite <- !(assoc_L (++)). }
  apply (clocked_app _ [Clock _; Print _]).
  { intros [|[|k]] t Hk; simpl in Hk; try done. injection Hk as <-.
    exists w1. rewrite Htr. split; [|done].
    rewrite <- !(assoc_L (++)), app_nil_r. done. }
  apply clocked_silent. intros t Hin.
  apply elem_of_app in Hin as [Hin|Hin].
  - destruct Hlink as [(_ & _ & ->)|(_ & _ & ->)];
      [by apply elem_of_nil in Hin|].
    apply list_elem_of_singleton in Hin. discriminate Hin.
  - unfold closing in Hin. rewrite !elem_of_cons, elem_of_nil in Hin.
    destruct Hin as [?|[?|[?|[]]]]; discriminate.
Qed.

End ReplayConfiguration.

(** ** Launches and verdicts of a run *)

Lemma omap_bind_list {A B C : Type} (g : B → option C) (f : A → list B) (l : list A) :
  omap g (l ≫= f) = l ≫= (λ x, omap g (f x)).
Proof.
  induction l as [|x l IH]; [done|].
  by rewrite !bind_cons, omap_app, IH.
Qed.

Lemma bind_ext_Forall {A B : Type} (f g : A → list B) (l : list A) :
  Forall (λ x, f x = g x) l → l ≫= f = l ≫= g.
Proof.
  induction 1 as [|x l Hx _ IH]; [done|]. by rewrite !bind_cons, Hx, IH.
Qed.

Lemma bind_nil_all {A B : Type} (f : A → list B) (l : list A) :
  (∀ x, f x = []) → l ≫= f = [].
Proof.
  intros Hf. induction l as [|x l IH]; [done|]. by rewrite bind_cons, Hf, IH.
Qed.

Lemma bind_singleton_fmap {A B : Type} (f : A → B) (l : list A) :
  l ≫= (λ x, [f x]) = f <$> l.
Proof. induction l as [|x l IH]; [done|]. by rewrite bind_cons, fmap_cons, IH. Qed.

Lemma launches_module (width p m : Z) (o : module_outcome) :
  launches (mo_events width p m o)
  = (Compile width p m, mo_rc o)
    :: match mo_sim o with
       | Some (rc2, _) => [(Simulate width p m, rc2)]
       | None => []
       end.
Proof. unfold mo_events. by destruct (mo_sim o) as [[rc2 out2]|]. Qed.

Lemma simulations_module (width p m : Z) (o : module_outcome) :
  mo_launch_ok o →
  simulations (mo_events width p m o) = compiled_ok (mo_events width p m o).
Proof.
  unfold mo_launch_ok, mo_events. intros Hok.
  destruct (mo_sim o) as [[rc2 out2]|]; simpl.
  - rewrite decide_True; [done|]. apply Hok. by eexists.
  - rewrite decide_False; [done|]. intros Hrc. apply Hok in Hrc as [? ?]. done.
Qed.

Lemma verdicts_module (width p m : Z) (o : module_outcome) :
  verdicts (mo_events width p m o) = [mo_status o].
Proof.
  unfold mo_events, mo_status. destruct (mo_sim o) as [[rc2 out2]|]; simpl.
  - by destruct (Py.contains _ _).
  - done.
Qed.

Lemma summary_rows_module (width p m : Z) (o : module_outcome) :
  summary_rows (mo_events width p m o) = [].
Proof.
  unfold mo_events. destruct (mo_sim o) as [[rc2 out2]|]; simpl; [|done].
  by destruct (Py.contains _ _).
Qed.

Lemma compiles_module (width p m : Z) (o : module_outcome) :
  compiles (mo_events width p m o) = [(width, p, m)].
Proof.
  unfold mo_events. destruct (mo_sim o) as [[rc2 out2]|]; simpl; done.
Qed.

Lemma simulations_module_length (width p m : Z) (o : module_outcome) :
  (length (filter (λ v, v = COMPILE_FAILED) [mo_status o])
   + length (simulations (mo_events width p m o)) = 1)%nat.
Proof.
  unfold mo_events, mo_status. destruct (mo_sim o) as [[rc2 out2]|]; simpl; [|done].
  by destruct (Py.contains _ _).
Qed.

(** The projections of the events of one configuration. *)
Lemma omap_config {C : Type} (g : event → option C) (c : config_outcome) :
  (∀ t, g (Clock t) = None) → (∀ l, g (Print l) = None) →
  omap g (co_events c)
  = co_modules c ≫= λ mo, omap g (mo_events (co_width c) (co_pipe_stages c) mo.1 mo.2).
Proof.
  intros Hc Hp. unfold co_events. rewrite !omap_app, omap_bind_list. simpl.
  rewrite !Hc, !Hp.
  assert (Hrows : omap g (summary_row <$> co_modules c) = []).
  { induction (co_modules c) as [|mo ms IH]; [done|].
    rewrite fmap_cons. simpl. unfold summary_row at 1. by rewrite Hp. }
  rewrite Hrows. simpl. by rewrite app_nil_r.
Qed.

Lemma launches_config (c : config_outcome) :
  launches (co_events c)
  = co_modules c ≫= λ mo, launches (mo_events (co_width c) (co_pipe_stages c) mo.1 mo.2).
Proof. by apply omap_config. Qed.

Lemma simulations_config (c : config_outcome) :
  simulations (co_events c)
  = co_modules c ≫= λ mo, simulations (mo_events (co_width c) (co_pipe_stages c) mo.1 mo.2).
Proof. by apply omap_config. Qed.

Lemma compiles_config (c : config_outcome) :
  compiles (co_events c)
  = co_modules c ≫= λ mo, compiles (mo_events (co_width c) (co_pipe_stages c) mo.1 mo.2).
Proof. by apply omap_config. Qed.

Lemma compiled_ok_config (c : config_outcome) :
  compiled_ok (co_events c)
  = co_modules c ≫= λ mo, compiled_ok (mo_events (co_width c) (co_pipe_stages c) mo.1 mo.2).
Proof. by apply omap_config. Qed.

Lemma verdicts_config (c : config_outcome) :
  verdicts (co_events c) = (λ mo, mo_status mo.2) <$> co_modules c.
Proof.
  unfold co_events. unfold verdicts at 1. rewrite !omap_app, omap_bind_list. simpl.
  rewrite app_nil_r.
  assert (Hrows : verdicts (summary_row <$> co_modules c) = []).
  { induction (co_modules c) as [|mo ms IH]; [done|]. exact IH. }
  unfold verdicts in Hrows. rewrite Hrows, app_nil_r.
  rewrite <- bind_singleton_fmap. apply bind_ext_Forall, Forall_forall.
  intros mo _. apply verdicts_module.
Qed.

Lemma summary_rows_config (c : config_outcome) :
  summary_rows (co_events c)
  = (λ mo, (mo.1, mo_status mo.2, mo_duration mo.2)) <$> co_modules c.
Proof.
  assert (Hnone : (co_modules c ≫= λ mo,
             summary_rows (mo_events (co_width c) (co_pipe_stages c) mo.1 mo.2)) = []).
  { apply bind_nil_all. intros mo. apply summary_rows_module. }
  unfold co_events. unfold summary_rows in *. rewrite !omap_app, omap_bind_list.
  rewrite Hnone. simpl. rewrite app_nil_r. clear Hnone.
  induction (co_modules c) as [|mo ms IH]; [done|].
  rewrite !fmap_cons. simpl. f_equal. exact IH.
Qed.

Lemma well_launched_modules (width p : Z) (ms : list (Z * module_outcome))
    (rest : list (command * Z)) :
  Forall (λ mo, mo_launch_ok mo.2) ms →
  well_launched ((ms ≫= λ mo, launches (mo_events width p mo.1 mo.2)) ++ rest)
  = well_launched rest.
Proof.
  induction 1 as [|[m o] ms Hok _ IH]; [done|].
  rewrite bind_cons, launches_module. cbn [fst snd] in *.
  unfold mo_launch_ok in Hok.
  destruct (mo_sim o) as [[rc2 out2]|]; simpl.
  - rewrite decide_True by (apply Hok; by eexists).
    rewrite bool_decide_eq_true_2 by done. exact IH.
  - rewrite decide_False; [exact IH|].
    intros Hrc. apply Hok in Hrc as [? ?]. done.
Qed.

Lemma well_launched_configs (n : Z) (cos : list config_outcome)
    (rest : list (command * Z)) :
  Forall (co_ok n) cos →
  well_launched ((cos ≫= λ c, launches (co_events c)) ++ rest) = well_launched rest.
Proof.
  induction 1 as [|c cos [_ Hok] _ IH]; [done|].
  rewrite bind_cons, launches_config, <- (assoc_L (++)).
  by rewrite well_launched_modules.
Qed.

(** The projections of the events of a whole run. *)
Lemma omap_suite {C : Type} (g : event → option C) (widths pipe_stages : list Z)
    (n : Z) (o : suite_outcome) :
  (∀ t, g (Clock t) = None) → (∀ s, g (Today s) = None) →
  g (Print SymlinkWarning) = None →
  (∀ a b c, g (Print (SuiteBanner a b c)) = None) →
  (∀ a b c d e f, g (Print (FinalSummary a b c d e f)) = None) →
  (∀ s, g (Print (DashboardAt s)) = None) →
  g (Print (Literal "Test suite completed!")) = None →
  g (Print (Literal "View the report at: latest_results/dashboard.html")) = None →
  so_link o = [] ∨ so_link o = [Print SymlinkWarning] →
  omap g (so_events widths pipe_stages n o) = so_configs o ≫= λ c, omap g (co_events c).
Proof.
  intros Hc Ht Hw Hb Hf Hd Hl1 Hl2 Hlink. unfold so_events, closing.
  rewrite !omap_app, omap_bind_list. simpl.
  rewrite Hc, Ht, Hb, Hc, Hf, Hd, Hl1, Hl2. simpl.
  destruct Hlink as [->| ->]; simpl; rewrite ?Hw; by rewrite app_nil_r.
Qed.

Lemma compiled_ok_sublist (l : list event) : compiled_ok l `sublist_of` compiles l.
Proof.
  induction l as [|e l IH]; [done|].
  destruct e as [| |[wd p m|wd p m] rc out|]; try exact IH.
  unfold compiled_ok, compiles. simpl.
  destruct (decide (rc = 0)); [by apply sublist_skip|by apply sublist_cons].
Qed.

Lemma compile_failed_or_simulated (width p : Z) (ms : list (Z * module_outcome)) :
  (length (filter (λ v, v = COMPILE_FAILED) ((λ mo, mo_status mo.2) <$> ms))
   + length (ms ≫= λ mo, simulations (mo_events width p mo.1 mo.2))
   = length (ms ≫= λ mo, compiles (mo_events width p mo.1 mo.2)))%nat.
Proof.
  induction ms as [|mo ms IH]; [done|].
  rewrite fmap_cons, !bind_cons, !length_app, compiles_module, filter_cons.
  pose proof (simulations_module_length width p mo.1 mo.2) as Hone.
  rewrite filter_cons, filter_nil in Hone.
  destruct (decide (mo_status mo.2 = COMPILE_FAILED)); simpl length in *; lia.
Qed.

Section SuiteLaunches.
Context `{Env}.

(** X14.  During a suite run the simulator is launched exactly for the
    modules whose compile step exited 0, each time directly after that
    compile step; the simulator launches are therefore, in order, a
    subsequence of the compiler launches. *)
Theorem simulator_follows_its_compile (widths pipe_stages : list Z) (n : Z)
    (w : world) :
  let i := TestSuite.init widths pipe_stages n w in
  let r := TestSuite.run i.1 i.2 in
  let ev := since w r.2 in
  well_launched (launches ev) = true ∧
  simulations ev = compiled_ok ev ∧
  simulations ev `sublist_of` compiles ev.
Proof.
  intros i r ev.
  destruct (suite_replay widths pipe_stages n w)
    as (o & _ & _ & Hall & Hlink & _ & _ & _ & _ & _ & Hev & _).
  fold i r ev in Hev. rewrite Hev.
  assert (Hsim : simulations (so_events widths pipe_stages n o)
                 = compiled_ok (so_events widths pipe_stages n o)).
  { unfold simulations, compiled_ok. rewrite !omap_suite by done.
    apply bind_ext_Forall. eapply Forall_impl; [exact Hall|].
    intros c [_ Hok].
    change (simulations (co_events c) = compiled_ok (co_events c)).
    rewrite simulations_config, compiled_ok_config.
    apply bind_ext_Forall. eapply Forall_impl; [exact Hok|].
    intros mo Hmo. by apply simulations_module. }
  split; [|split; [exact Hsim|]].
  - unfold launches. rewrite omap_suite by done.
    rewrite <- (app_nil_r (_ ≫= _)).
    by rewrite (well_launched_configs n).
  - rewrite Hsim. apply compiled_ok_sublist.
Qed.

(** X15.  Every module of a suite run gets one verdict line (PASSED, FAILED
    or COMPILE FAILED): there are max(0, total_modules) x |widths| x
    |pipe_stages| of them, total_passed is the number of PASSED lines and
    total_failed the number of the others; the COMPILE FAILED lines and
    the simulator launches together are as many as the compiler launches;
    the summary tables repeat the verdicts in the same order. *)
Theorem verdict_lines_match_totals (widths pipe_stages : list Z) (n : Z)
    (w : world) :
  let i := TestSuite.init widths pipe_stages n w in
  let r := TestSuite.run i.1 i.2 in
  let ev := since w r.2 in
  Z.of_nat (length (verdicts ev))
    = Z.max 0 n * Z.of_nat (length widths) * Z.of_nat (length pipe_stages) ∧
  TestSuite.total_passed r.1
    = Z.of_nat (length (filter (λ v, v = PASSED) (verdicts ev))) ∧
  TestSuite.total_failed r.1
    = Z.of_nat (length (filter (λ v, v ≠ PASSED) (verdicts ev))) ∧
  (length (filter (λ v, v = COMPILE_FAILED) (verdicts ev))
   + length (simulations ev) = length (compiles ev))%nat ∧
  (λ row, row.1.2) <$> summary_rows ev = verdicts ev.
Proof.
  intros i r ev.
  destruct (suite_replay widths pipe_stages n w)
    as (o & _ & Hpairs & Hall & Hlink & _ & Hpass & Hfail & _ & _ & Hev & _).
  fold i r ev in Hev, Hpass, Hfail. rewrite Hev, Hpass, Hfail.
  assert (Hv : verdicts (so_events widths pipe_stages n o)
               = so_configs o ≫= λ c, (λ mo, mo_status mo.2) <$> co_modules c).
  { unfold verdicts. rewrite omap_suite by done.
    apply bind_ext_Forall, Forall_forall. intros c _. apply verdicts_config. }
  assert (Hrows : summary_rows (so_events widths pipe_stages n o)
               = so_configs o ≫= λ c,
                   (λ mo, (mo.1, mo_status mo.2, mo_duration mo.2)) <$> co_modules c).
  { unfold summary_rows. rewrite omap_suite by done.
    apply bind_ext_Forall, Forall_forall. intros c _. apply summary_rows_config. }
  assert (Hs : simulations (so_events widths pipe_stages n o)
               = so_configs o ≫= λ c, co_modules c ≫= λ mo,
                   simulations (mo_events (co_width c) (co_pipe_stages c) mo.1 mo.2)).
  { unfold simulations. rewrite omap_suite by done.
    apply bind_ext_Forall, Forall_forall. intros c _. apply simulations_config. }
  assert (Hc : compiles (so_events widths pipe_stages n o)
               = so_configs o ≫= λ c, co_modules c ≫= λ mo,
                   compiles (mo_events (co_width c) (co_pipe_stages c) mo.1 mo.2)).
  { unfold compiles. rewrite omap_suite by done.
    apply bind_ext_Forall, Forall_forall. intros c _. apply compiles_config. }
  rewrite Hv, Hrows, Hs, Hc. clear Hv Hrows Hs Hc Hev Hpass Hfail.
  assert (Hlen : length (so_configs o) = (length widths * length pipe_stages)%nat).
  { by rewrite <- pairs_length, <- Hpairs, length_fmap. }
  clear Hpairs Hlink. unfold so_passed, so_failed.
  split; [|split; [|split; [|split]]].
  - transitivity (Z.max 0 n * Z.of_nat (length (so_configs o))); [|rewrite Hlen; lia].
    clear Hlen. induction Hall as [|c cos [Hids _] _ IH]; [simpl; lia|].
    rewrite bind_cons, length_app, length_fmap, Nat2Z.inj_add, IH.
    rewrite <- (length_fmap fst (co_modules c)), Hids, range_length.
    simpl length. lia.
  - clear. induction (so_configs o) as [|c cos IH]; [done|].
    rewrite fmap_cons, sum_list_cons, bind_cons, filter_app, length_app, Nat2Z.inj_add.
    rewrite <- IH. f_equal. unfold co_passed. f_equal. symmetry.
    by apply filter_fmap_length.
  - clear. induction (so_configs o) as [|c cos IH]; [done|].
    rewrite fmap_cons, sum_list_cons, bind_cons, filter_app, length_app, Nat2Z.inj_add.
    rewrite <- IH. f_equal. unfold co_failed. f_equal. symmetry.
    by apply filter_fmap_length.
  - clear. induction (so_configs o) as [|c cos IH]; [done|].
    rewrite !bind_cons, filter_app, !length_app.
    pose proof (compile_failed_or_simulated (co_width c) (co_pipe_stages c)
                  (co_modules c)) as Hone.
    lia.
  - clear. induction (so_configs o) as [|c cos IH]; [done|].
    rewrite !bind_cons, fmap_app, IH. f_equal.
    rewrite <- list_fmap_compose. done.
Qed.

End SuiteLaunches.

(** ** The summary table and the report of one configuration *)

Lemma module_output_module (width p m m' : Z) (o : module_outcome) :
  module_output width p m (mo_events width p m' o)
  = if decide (m' = m) then mo_log o else "".
Proof.
  unfold mo_events, mo_log, module_output.
  destruct (mo_sim o) as [[rc2 out2]|]; simpl.
  - destruct (decide (m' = m)) as [->|Hne].
    + rewrite !decide_True by done. by rewrite str_app_nil_r.
    + rewrite !decide_False; [done|intros [= ?]; done|intros [= ?]; done].
  - destruct (decide (m' = m)) as [->|Hne].
    + rewrite !decide_True by done. done.
    + rewrite !decide_False; [done|intros [= ?]; done].
Qed.

Lemma module_output_modules (width p m : Z) (ms : list (Z * module_outcome)) :
  NoDup ms.*1 →
  (m ∉ ms.*1 →
     module_output width p m (ms ≫= λ mo, mo_events width p mo.1 mo.2) = "") ∧
  (∀ o, (m, o) ∈ ms →
     module_output width p m (ms ≫= λ mo, mo_events width p mo.1 mo.2) = mo_log o).
Proof.
  induction ms as [|[m0 o0] ms IH]; intros Hnd.
  - split; [done|]. intros o Ho. by apply elem_of_nil in Ho.
  - rewrite fmap_cons in Hnd. apply NoDup_cons in Hnd as [Hm0 Hnd].
    destruct (IH Hnd) as [IHnone IHsome]. cbn [fst] in Hm0.
    rewrite bind_cons, module_output_app, module_output_module. cbn [fst snd].
    split.
    + rewrite fmap_cons, not_elem_of_cons. cbn [fst]. intros [Hne Hm].
      rewrite decide_False by done. by rewrite IHnone.
    + intros o [Ho|Ho]%elem_of_cons.
      * injection Ho as <- <-. rewrite decide_True by done.
        by rewrite IHnone, str_app_nil_r.
      * rewrite decide_False.
        { by rewrite (IHsome o Ho). }
        intros ->. apply Hm0. apply list_elem_of_fmap. by exists (m, o).
Qed.

Lemma module_output_summary (width p m : Z) (ms : list (Z * module_outcome)) :
  module_output width p m (summary_row <$> ms) = "".
Proof. induction ms as [|mo ms IH]; [done|]. exact IH. Qed.

Lemma module_output_config (c : config_outcome) (m : Z) (o : module_outcome) :
  NoDup (co_modules c).*1 → (m, o) ∈ co_modules c →
  module_output (co_width c) (co_pipe_stages c) m (co_events c) = mo_log o.
Proof.
  intros Hnd Ho. unfold co_events.
  rewrite !module_output_app, module_output_summary.
  destruct (module_output_modules (co_width c) (co_pipe_stages c) m _ Hnd) as [_ Hsome].
  rewrite (Hsome o Ho). unfold module_output at 1 2 3. simpl.
  by rewrite str_app_nil_r.
Qed.

Lemma mo_status_marker (o : module_outcome) :
  (mo_status o = PASSED → Py.contains ModuleTest.marker (mo_log o) = true) ∧
  (mo_status o = FAILED → Py.contains ModuleTest.marker (mo_log o) = false).
Proof.
  unfold mo_status. destruct (mo_sim o); [|done].
  by destruct (Py.contains _ _).
Qed.

Lemma filter_nil_Forall {A : Type} (P : A → Prop) `{!∀ x, Decision (P x)} (l : list A) :
  length (filter (λ x, ¬ P x) l) = 0%nat ↔ Forall P l.
Proof.
  induction l as [|x l IH]; [by split|].
  rewrite filter_cons, Forall_cons, <- IH.
  destruct (decide (¬ P x)) as [Hx|Hx]; simpl.
  - split; [lia|]. intros [? _]. done.
  - apply dec_stable in Hx. split; [done|]. by intros [_ ?].
Qed.

Section ConfigurationOutput.
Context `{Env}.

(** After [__init__] and [run] the log of every module holds what the
    processes of that module wrote. *)
Lemma config_run_output (width pipe_stages n : Z) (log_dir : string) (w : world)
    c0 w0 passed failed duration c w' :
  ConfigurationTest.init width pipe_stages n log_dir w = (c0, w0) →
  ConfigurationTest.run c0 w0 = (passed, failed, duration, c, w') →
  ∀ m, m ∈ Py.range 1 (n + 1) →
    fs w' !! (ModuleTest.dir_of log_dir width pipe_stages
              +:+ "/" +:+ ModuleTest.log_name m)
    = Some (File (Text (module_output width pipe_stages m (since w w')))).
Proof.
  intros Hinit Hrun.
  set (self := {| TestSuite.widths := []; TestSuite.pipe_stages := [];
                  TestSuite.total_modules := n; TestSuite.timestamp := "";
                  TestSuite.log_dir := log_dir; TestSuite.config_results := ∅;
                  TestSuite.total_tests := 0; TestSuite.total_passed := 0;
                  TestSuite.total_failed := 0; TestSuite.total_duration := 0 |}).
  eapply (run_config_output width self pipe_stages w).
  unfold TestSuite.run_config, mbind, M_bind. cbn [TestSuite.total_modules
    TestSuite.log_dir self]. rewrite Hinit, Hrun. reflexivity.
Qed.

(** X16.  The summary table of a configuration has one row per module
    1..total_modules in that order, none with the initial status UNKNOWN;
    its status column repeats, in order, the verdicts printed while the
    modules ran; the table ends the output of [run], and its total line
    shows the returned counts, which are the number of PASSED rows and the
    number of the other rows. *)
Theorem summary_table_repeats_verdicts (width pipe_stages n : Z)
    (log_dir : string) (w : world) :
  let '(c0, w0) := ConfigurationTest.init width pipe_stages n log_dir w in
  let '(passed, failed, duration, c, w') := ConfigurationTest.run c0 w0 in
  let ev := since w w' in
  (λ row, row.1.1) <$> summary_rows ev = Py.range 1 (n + 1) ∧
  Forall (λ row, row.1.2 ∈ ran) (summary_rows ev) ∧
  (λ row, row.1.2) <$> summary_rows ev = verdicts ev ∧
  summary_rows ev
    = (λ t, (ModuleTest.module_id t, ModuleTest.status t, ModuleTest.duration t))
      <$> ConfigurationTest.module_tests c ∧
  (∃ before,
     ev = before ++ [Print (ConfigSummaryHead width pipe_stages)] ++
          ((λ row, Print (ConfigSummaryRow row.1.1 row.1.2 row.2)) <$> summary_rows ev) ++
          [Print (ConfigSummaryTotal passed failed duration)]) ∧
  passed = Z.of_nat (length (filter (λ row, row.1.2 = PASSED) (summary_rows ev))) ∧
  failed = Z.of_nat (length (filter (λ row, row.1.2 ≠ PASSED) (summary_rows ev))).
Proof.
  destruct (ConfigurationTest.init width pipe_stages n log_dir w) as [c0 w0] eqn:Hinit.
  destruct (ConfigurationTest.run c0 w0) as [[[[passed failed] duration] c] w'] eqn:Hrun.
  intros ev.
  destruct (config_run_replay _ _ _ _ _ _ _ _ _ _ _ _ Hinit Hrun)
    as (co & Hw & Hp & [Hids Hok] & Hts & -> & -> & -> & _ & _ & _ & Htr & _).
  apply since_app in Htr. fold ev in Htr. rewrite Htr.
  rewrite summary_rows_config, verdicts_config, Hts, <- !list_fmap_compose.
  split; [exact Hids|]. split.
  { apply Forall_fmap, Forall_forall. intros mo _. apply mo_status_ran. }
  split; [done|]. split; [done|]. split.
  { exists ([Print (ConfigBanner width pipe_stages); Clock (co_start co)] ++
            (co_modules co ≫= λ mo, mo_events width pipe_stages mo.1 mo.2) ++
            [Clock (co_end co)]).
    unfold co_events. rewrite Hw, Hp, <- !(assoc_L (++)). reflexivity. }
  unfold co_passed, co_failed. split; f_equal; symmetry; by apply filter_fmap_length.
Qed.

(** X17.  The report of a configuration has one row per module
    1..total_modules; the row of a module links to module_<id>.log, which
    exists beside the report and holds what the processes of that module
    wrote during this run; the row is shown as passed exactly when the
    status is PASSED, a PASSED row's log contains TEST PASSED and a FAILED
    row's log does not; the totals are the returned counts, and the box
    reads ALL TESTS PASSED exactly when every row is PASSED, and otherwise
    shows the failed count out of total_modules. *)
Theorem report_rows_match_logs (width pipe_stages n : Z) (log_dir : string)
    (w : world) :
  let '(c0, w0) := ConfigurationTest.init width pipe_stages n log_dir w in
  let '(passed, failed, duration, c, w') := ConfigurationTest.run c0 w0 in
  let dir := ModuleTest.dir_of log_dir width pipe_stages in
  ∃ page,
    fs w' !! (dir +:+ "/report.html") = Some (File (ConfigPage page)) ∧
    (λ row, row.1.1.1) <$> cp_rows page = Py.range 1 (n + 1) ∧
    Forall (λ '(m, st, ok, link),
       link = ModuleTest.log_name m ∧ st ∈ ran ∧ (ok = true ↔ st = PASSED) ∧
       ∃ text,
         fs w' !! (dir +:+ "/" +:+ link) = Some (File (Text text)) ∧
         text = module_output width pipe_stages m (since w w') ∧
         (st = PASSED → Py.contains "TEST PASSED" text = true) ∧
         (st = FAILED → Py.contains "TEST PASSED" text = false))
      (cp_rows page) ∧
    cp_passed page = passed ∧ cp_failed page = failed ∧
    cp_duration page = duration ∧
    (cp_box page = None ↔ Forall (λ row, row.1.1.2 = PASSED) (cp_rows page)) ∧
    (cp_box page ≠ None → cp_box page = Some (failed, n)).
Proof.
  destruct (ConfigurationTest.init width pipe_stages n log_dir w) as [c0 w0] eqn:Hinit.
  destruct (ConfigurationTest.run c0 w0) as [[[[passed failed] duration] c] w'] eqn:Hrun.
  intros dir.
  pose proof (config_run_output _ _ _ _ _ _ _ _ _ _ _ _ Hinit Hrun) as Hlogs.
  destruct (config_run_spec _ _ _ _ _ _ _ _ _ _ _ _ Hinit Hrun)
    as (_ & Hpc & Hfc & Hdc & _ & _ & _ & _ & _ & _ & _ & _ & _ & Hreport).
  destruct (config_run_replay _ _ _ _ _ _ _ _ _ _ _ _ Hinit Hrun)
    as (co & Hw & Hp & [Hids Hok] & Hts & Hpass & Hfail & _ & _ & _ & Hn & Htr & _).
  apply since_app in Htr.
  assert (Hnd : NoDup (co_modules co).*1) by (rewrite Hids; apply range_NoDup).
  exists (ConfigurationTest.report c). split; [exact Hreport|].
  unfold ConfigurationTest.report. simpl. rewrite Hts, <- !list_fmap_compose.
  split; [exact Hids|]. split.
  { apply Forall_fmap, Forall_forall. intros [m o] Hmo.
    unfold ConfigurationTest.report_row. simpl.
    split; [done|]. split; [apply mo_status_ran|].
    split; [apply bool_decide_eq_true|].
    eexists. split.
    { apply Hlogs. rewrite <- Hids. apply list_elem_of_fmap. by exists (m, o). }
    split; [done|]. rewrite Htr, <- Hw, <- Hp.
    rewrite (module_output_config co m o Hnd Hmo). apply mo_status_marker. }
  split; [done|]. split; [done|]. split; [done|].
  rewrite Hfc, Hn. split.
  - rewrite Forall_fmap. simpl. rewrite Hfail. unfold co_failed.
    case_decide as Hz.
    + split; [intros _|done].
      apply (filter_nil_Forall (λ mo, mo_status mo.2 = PASSED)). lia.
    + split; [done|]. intros Hall. exfalso. apply Hz.
      apply (filter_nil_Forall (λ mo, mo_status mo.2 = PASSED)) in Hall. lia.
  - by case_decide.
Qed.

End ConfigurationOutput.

(** ** Durations *)

Lemma ascending_app (l1 l2 : list Z) :
  ascending (l1 ++ l2) →
  (∀ x y, x ∈ l1 → y ∈ l2 → x ≤ y) ∧ ascending l1 ∧ ascending l2.
Proof.
  induction l1 as [|a l1 IH]; simpl.
  - intros Hl2. split; [|done]. intros x y Hx. by apply elem_of_nil in Hx.
  - rewrite Forall_app. intros [[Ha1 Ha2] Hrest].
    destruct (IH Hrest) as (Hcross & H1 & H2).
    split; [|done]. intros x y [->|Hx]%elem_of_cons Hy.
    + rewrite Forall_forall in Ha2. by apply Ha2.
    + by apply Hcross.
Qed.

Lemma clocked_tail `{Env} (pre : list event) (e : event) (d : list event) :
  clocked pre (e :: d) → clocked (pre ++ [e]) d.
Proof.
  intros Hc i t Hi. destruct (Hc (S i) t Hi) as (wi & Htr & ->).
  exists wi. split; [|done]. rewrite Htr. simpl. by rewrite <- (assoc_L (++)).
Qed.

(** Under a clock that never runs backwards the clock reads of a run are
    in ascending order. *)
Lemma clocks_sorted `{Env} (pre d : list event) :
  monotone_clock → clocked pre d → ascending (clocks d).
Proof.
  intros Hmono. revert pre. induction d as [|e d IH]; intros pre Hc; [constructor|].
  pose proof (IH _ (clocked_tail _ _ _ Hc)) as Hd.
  destruct e as [t| | |]; try exact Hd.
  change (clocks (Clock t :: d)) with (t :: clocks d).
  split; [|exact Hd].
  apply Forall_forall. intros t' Ht'.
  unfold clocks in Ht'. apply list_elem_of_omap in Ht' as (e' & He' & Heq).
  destruct e' as [t''| | |]; try discriminate Heq. injection Heq as ->.
  apply list_elem_of_lookup_1 in He' as [j Hj].
  destruct (Hc 0%nat t eq_refl) as (w0 & Htr0 & ->).
  destruct (Hc (S j) t' Hj) as (wj & Htrj & ->).
  apply Hmono. rewrite Htr0, Htrj. simpl. rewrite app_nil_r.
  by apply prefix_app_r.
Qed.

Lemma clocks_module (width p m : Z) (o : module_outcome) :
  clocks (mo_events width p m o) = [mo_start o; mo_end o].
Proof.
  unfold mo_events. destruct (mo_sim o) as [[rc2 out2]|]; [|done].
  by destruct (Py.contains _ _).
Qed.

Lemma clocks_config (c : config_outcome) :
  clocks (co_events c)
  = co_start c :: (co_modules c ≫= λ mo, [mo_start mo.2; mo_end mo.2]) ++ [co_end c].
Proof.
  assert (Hrows : clocks (summary_row <$> co_modules c) = []).
  { induction (co_modules c) as [|mo ms IH]; [done|]. exact IH. }
  assert (Hms : (co_modules c ≫= λ mo,
                   clocks (mo_events (co_width c) (co_pipe_stages c) mo.1 mo.2))
                = co_modules c ≫= λ mo, [mo_start mo.2; mo_end mo.2]).
  { apply bind_ext_Forall, Forall_forall. intros mo _. apply clocks_module. }
  unfold co_events. unfold clocks in *. rewrite !omap_app, omap_bind_list.
  rewrite Hrows, Hms. done.
Qed.

Lemma clocks_suite (widths pipe_stages : list Z) (n : Z) (o : suite_outcome) :
  so_link o = [] ∨ so_link o = [Print SymlinkWarning] →
  clocks (so_events widths pipe_stages n o)
  = so_start o :: (so_configs o ≫= λ c, clocks (co_events c)) ++ [so_end o].
Proof.
  intros Hlink. unfold so_events, closing. unfold clocks at 1.
  rewrite !omap_app, omap_bind_list.
  destruct Hlink as [->| ->]; cbn [omap list_omap app]; done.
Qed.

(** What an ascending list tells about its parts. *)
Lemma sorted_between (a b : Z) (l : list Z) :
  ascending (a :: l ++ [b]) →
  a ≤ b ∧ Forall (λ t, a ≤ t ∧ t ≤ b) l ∧ ascending l.
Proof.
  intros [Ha (Hlb & Hl & _)%ascending_app].
  apply Forall_app in Ha as [Ha Hab]. rewrite Forall_singleton in Hab.
  split; [done|]. split; [|done].
  apply Forall_forall. intros t Ht. split.
  - rewrite Forall_forall in Ha. by apply Ha.
  - apply Hlb; [done|]. by apply list_elem_of_singleton.
Qed.

Lemma sorted_bind_part {A : Type} (f : A → list Z) (l : list A) (x : A) :
  ascending (l ≫= f) → x ∈ l → ascending (f x).
Proof.
  intros Hs (l1 & l2 & ->)%list_elem_of_split.
  rewrite bind_app, bind_cons in Hs.
  apply ascending_app in Hs as (_ & _ & Hs).
  apply ascending_app in Hs as (_ & Hs & _). done.
Qed.

Lemma elem_of_bind_part {A : Type} (f : A → list Z) (l : list A) (x : A) (t : Z) :
  x ∈ l → t ∈ f x → t ∈ l ≫= f.
Proof. intros Hx Ht. apply list_elem_of_bind. eauto. Qed.

(** The modules of a configuration run between its two clock reads. *)
Lemma config_clock_order (c : config_outcome) :
  ascending (clocks (co_events c)) →
  co_start c ≤ co_end c ∧
  Forall (λ mo, co_start c ≤ mo_start mo.2 ∧ mo_start mo.2 ≤ mo_end mo.2 ∧
                mo_end mo.2 ≤ co_end c) (co_modules c).
Proof.
  rewrite clocks_config. intros (Hab & Hin & Hs)%sorted_between.
  split; [done|]. apply Forall_forall. intros mo Hmo.
  rewrite Forall_forall in Hin.
  assert (H1 : mo_start mo.2 ∈ co_modules c ≫= λ mo, [mo_start mo.2; mo_end mo.2]).
  { apply (elem_of_bind_part _ _ mo); [done|]. by left. }
  assert (H2 : mo_end mo.2 ∈ co_modules c ≫= λ mo, [mo_start mo.2; mo_end mo.2]).
  { apply (elem_of_bind_part _ _ mo); [done|]. right. by left. }
  apply (sorted_bind_part _ _ mo) in Hs; [|done].
  destruct Hs as [Hle _]. rewrite Forall_singleton in Hle.
  destruct (Hin _ H1), (Hin _ H2). lia.
Qed.

(** The configurations of a suite run between its two clock reads. *)
Lemma suite_clock_order (widths pipe_stages : list Z) (n : Z) (o : suite_outcome) :
  so_link o = [] ∨ so_link o = [Print SymlinkWarning] →
  ascending (clocks (so_events widths pipe_stages n o)) →
  so_start o ≤ so_end o ∧
  Forall (λ c, so_start o ≤ co_start c ∧ co_end c ≤ so_end o ∧
               ascending (clocks (co_events c))) (so_configs o).
Proof.
  intros Hlink. rewrite clocks_suite by done.
  intros (Hab & Hin & Hs)%sorted_between.
  split; [done|]. apply Forall_forall. intros c Hc.
  rewrite Forall_forall in Hin.
  pose proof (sorted_bind_part _ _ c Hs Hc) as Hsc.
  assert (H1 : co_start c ∈ so_configs o ≫= λ c, clocks (co_events c)).
  { apply (elem_of_bind_part _ _ c); [done|]. rewrite clocks_config. by left. }
  assert (H2 : co_end c ∈ so_configs o ≫= λ c, clocks (co_events c)).
  { apply (elem_of_bind_part _ _ c); [done|]. rewrite clocks_config.
    right. apply elem_of_app. right. by left. }
  destruct (Hin _ H1), (Hin _ H2). split; [lia|]. split; [lia|done].
Qed.

Lemma stub_clock_monotone (compile_rc sim_rc : Z) (sim_out : string) :
  @monotone_clock (stub_env compile_rc sim_rc sim_out).
Proof.
  intros w1 w2 [k Hk]. simpl. rewrite Hk, length_app. lia.
Qed.

Section Durations.
Context `{Env}.

(** X18.  Under a clock that never runs backwards the duration [run]
    returns for a configuration is not negative, and the duration of every
    module of the configuration lies between 0 and it. *)
Theorem module_durations_within_configuration (width pipe_stages n : Z)
    (log_dir : string) (w : world) :
  monotone_clock →
  let '(c0, w0) := ConfigurationTest.init width pipe_stages n log_dir w in
  let '(passed, failed, duration, c, w') := ConfigurationTest.run c0 w0 in
  0 ≤ duration ∧ ConfigurationTest.duration c = duration ∧
  Forall (λ t, 0 ≤ ModuleTest.duration t ∧ ModuleTest.duration t ≤ duration)
    (ConfigurationTest.module_tests c) ∧
  Forall (λ row, 0 ≤ row.2 ∧ row.2 ≤ duration) (summary_rows (since w w')).
Proof.
  intros Hmono.
  destruct (ConfigurationTest.init width pipe_stages n log_dir w) as [c0 w0] eqn:Hinit.
  destruct (ConfigurationTest.run c0 w0) as [[[[passed failed] duration] c] w'] eqn:Hrun.
  destruct (config_run_spec _ _ _ _ _ _ _ _ _ _ _ _ Hinit Hrun)
    as (_ & _ & _ & Hdc & _).
  destruct (config_run_replay _ _ _ _ _ _ _ _ _ _ _ _ Hinit Hrun)
    as (co & _ & _ & _ & Hts & _ & _ & -> & _ & _ & _ & Htr & Hck).
  apply since_app in Htr. rewrite Htr, summary_rows_config, Hts.
  apply (clocks_sorted _ _ Hmono), config_clock_order in Hck as [Hco Hms].
  unfold co_duration. split; [lia|]. split; [done|].
  rewrite !Forall_fmap. split.
  - eapply Forall_impl; [exact Hms|]. intros mo (? & ? & ?). simpl.
    unfold mo_duration. lia.
  - eapply Forall_impl; [exact Hms|]. intros mo (? & ? & ?). simpl.
    unfold mo_duration. lia.
Qed.

(** X19.  Under a clock that never runs backwards the total duration of a
    suite run is not negative, the duration recorded for every
    configuration in config_results lies between 0 and it, and so does the
    duration in every row of the summary tables printed during the run. *)
Theorem configuration_durations_within_total (widths pipe_stages : list Z)
    (n : Z) (w : world) :
  monotone_clock →
  let i := TestSuite.init widths pipe_stages n w in
  let r := TestSuite.run i.1 i.2 in
  0 ≤ TestSuite.total_duration r.1 ∧
  (∀ key res, TestSuite.config_results r.1 !! key = Some res →
     0 ≤ res_duration res ∧ res_duration res ≤ TestSuite.total_duration r.1) ∧
  Forall (λ row, 0 ≤ row.2 ∧ row.2 ≤ TestSuite.total_duration r.1)
    (summary_rows (since w r.2)).
Proof.
  intros Hmono i r.
  destruct (suite_replay widths pipe_stages n w)
    as (o & _ & _ & _ & Hlink & Hres & _ & _ & _ & Hdur & Hev & Hck).
  fold i r in Hres, Hdur, Hev. rewrite Hres, Hdur, Hev.
  apply (clocks_sorted _ _ Hmono), suite_clock_order in Hck as [Hso Hcos]; [|done].
  split; [lia|]. split.
  - intros key res Hkey.
    apply foldl_store_lookup_Some in Hkey as [Hkey|[Hin _]];
      [by rewrite lookup_empty in Hkey|].
    apply list_elem_of_fmap in Hin as (c & -> & Hc).
    rewrite Forall_forall in Hcos. destruct (Hcos c Hc) as (? & ? & Hs).
    apply config_clock_order in Hs as [? _]. simpl. unfold co_duration. lia.
  - assert (Hrows : summary_rows (so_events widths pipe_stages n o)
               = so_configs o ≫= λ c,
                   (λ mo, (mo.1, mo_status mo.2, mo_duration mo.2)) <$> co_modules c).
    { unfold summary_rows. rewrite omap_suite by done.
      apply bind_ext_Forall, Forall_forall. intros c _. apply summary_rows_config. }
    rewrite Hrows. apply Forall_forall. intros row Hrow.
    apply list_elem_of_bind in Hrow as (c & Hrow & Hc).
    apply list_elem_of_fmap in Hrow as (mo & -> & Hmo).
    rewrite Forall_forall in Hcos. destruct (Hcos c Hc) as (? & ? & Hs).
    apply config_clock_order in Hs as [? Hms].
    rewrite Forall_forall in Hms. destruct (Hms mo Hmo) as (? & ? & ?).
    simpl. unfold mo_duration. lia.
Qed.

End Durations.

Lemma module_durations_within_configuration_witness :
  @monotone_clock (stub_env 0 0 "TEST PASSED") ∧
  let '(c0, w0) := @ConfigurationTest.init 8 2 2 "simulation_logs_t" fresh in
  let '(passed, failed, duration, c, w') :=
    @ConfigurationTest.run (stub_env 0 0 "TEST PASSED") c0 w0 in
  0 ≤ duration ∧ ConfigurationTest.duration c = duration ∧
  Forall (λ t, 0 ≤ ModuleTest.duration t ∧ ModuleTest.duration t ≤ duration)
    (ConfigurationTest.module_tests c) ∧
  Forall (λ row, 0 ≤ row.2 ∧ row.2 ≤ duration) (summary_rows (since fresh w')).
Proof.
  split; [apply stub_clock_monotone|].
  exact (@module_durations_within_configuration (stub_env 0 0 "TEST PASSED")
           8 2 2 "simulation_logs_t" fresh (stub_clock_monotone 0 0 "TEST PASSED")).
Defined.

Lemma configuration_durations_within_total_witness :
  @monotone_clock (stub_env 0 0 "TEST PASSED") ∧
  let i := @TestSuite.init (stub_env 0 0 "TEST PASSED") [8] [2; 3] 1 fresh in
  let r := @TestSuite.run (stub_env 0 0 "TEST PASSED") i.1 i.2 in
  0 ≤ TestSuite.total_duration r.1 ∧
  (∀ key res, TestSuite.config_results r.1 !! key = Some res →
     0 ≤ res_duration res ∧ res_duration res ≤ TestSuite.total_duration r.1) ∧
  Forall (λ row, 0 ≤ row.2 ∧ row.2 ≤ TestSuite.total_duration r.1)
    (summary_rows (since fresh r.2)).
Proof.
  split; [apply stub_clock_monotone|].
  exact (@configuration_durations_within_total (stub_env 0 0 "TEST PASSED")
           [8] [2; 3] 1 fresh (stub_clock_monotone 0 0 "TEST PASSED")).
Defined.

(** ** Reading back what was written *)




(** *** [strip] *)







(** *** Decimal numerals *)







(** *** [split] and [join] *)






Section ReadBack.
Context `{Env}.


End ReadBack.
